(** * Flange Genie: the flange joint sizing engine of [src/App.tsx]

    A shallow embedding of the calculation engine of the TEMA flange bolt
    B.C.D calculator ([calculateFullResults], [pccStatusInfo],
    [performSearch] and [interpolateStress] of [src/App.tsx], and the PCC-1
    banner of [src/components/BoltLoadTable.tsx]) together with the
    properties stated about it.

    Numbers.  A JavaScript [number] is modelled by [num]: a rational, one of
    the two infinities, or NaN.  The special values, the zero tests
    ([x || y], [x !== 0]), the comparisons and [Math.min]/[Math.max]/
    [Math.ceil] follow ECMAScript; finite arithmetic is exact (binary
    rounding and the sign of zero are not modelled, a zero divisor counts as
    [+0]).  The properties are stated so as not to lean on that exactness:
    a result is equated with an arithmetic expression only as the code
    itself writes that expression, and an inequality is stated only where
    every step is monotone or the code's own tolerance absorbs the rounding.
    Reading an array slot that does not exist gives [undefined] in
    the source; every such read feeds arithmetic, a comparison or [||],
    where [undefined] behaves as NaN, so the model reads NaN there.

    Reference tables.  [src/constants.ts] is not part of the sources at
    hand: the tables are Section variables, typed after the fields the code
    reads.  [Math.sqrt] is a Section variable too.

    Handlers.  The development also covers the shell thickness rule
    [calculateAutoG0] and the state handlers of [src/App.tsx]
    ([handleInputChange], [handleSaveToList], [handleEditSave],
    [removeRecord], [editRecord]), and the input panel of
    [src/components/Calculator.tsx] ([updatePcc1Values], [togglePcc1Check],
    [toggleManualMode], [resetGasketStandard], [applyGasketBounds], the
    seating suggestions and the spacing status).  A handler is a function
    from the state it reads to the state it stores; [Date.now()] is an
    argument, the rendering of a number in a template literal and the
    [minYield] field of a material row are Section variables, and
    [toLowerCase] acts on the letters A to Z. *)

From Stdlib Require Import QArith Qround Lqa ZArith List String Bool Lia.
Import ListNotations.

(* ===================================================================== *)
(** ** JavaScript numbers *)
(* ===================================================================== *)

Inductive num : Type :=
| Fin (q : Q)
| PInf
| NInf
| NaN.

Arguments Fin q%_Q.

Declare Scope num_scope.
Delimit Scope num_scope with num.
Bind Scope num_scope with num.

Definition Qltb (a b : Q) : bool := negb (Qle_bool b a).
Definition Qzerob (a : Q) : bool := Qeq_bool a 0.

(** The infinity of the sign of [q] ([q] is not zero where this is used). *)
Definition inf_of_sign (q : Q) : num := if Qltb 0 q then PInf else NInf.

Definition neg (a : num) : num :=
  match a with
  | Fin q => Fin (- q)
  | PInf => NInf
  | NInf => PInf
  | NaN => NaN
  end.

Definition add (a b : num) : num :=
  match a, b with
  | NaN, _ | _, NaN => NaN
  | Fin x, Fin y => Fin (x + y)
  | PInf, NInf | NInf, PInf => NaN
  | PInf, _ | _, PInf => PInf
  | NInf, _ | _, NInf => NInf
  end.

Definition sub (a b : num) : num := add a (neg b).

Definition mul (a b : num) : num :=
  match a, b with
  | NaN, _ | _, NaN => NaN
  | Fin x, Fin y => Fin (x * y)
  | Fin x, PInf | PInf, Fin x => if Qzerob x then NaN else inf_of_sign x
  | Fin x, NInf | NInf, Fin x => if Qzerob x then NaN else neg (inf_of_sign x)
  | PInf, PInf | NInf, NInf => PInf
  | PInf, NInf | NInf, PInf => NInf
  end.

Definition div (a b : num) : num :=
  match a, b with
  | NaN, _ | _, NaN => NaN
  | Fin x, Fin y =>
      if Qzerob y then (if Qzerob x then NaN else inf_of_sign x)
      else Fin (x / y)
  | Fin _, (PInf | NInf) => Fin 0
  | PInf, Fin y => if Qltb y 0 then NInf else PInf
  | NInf, Fin y => if Qltb y 0 then PInf else NInf
  | (PInf | NInf), (PInf | NInf) => NaN
  end.

(** [a <= b], [a < b] and friends: every comparison with NaN is false. *)
Definition le (a b : num) : bool :=
  match a, b with
  | NaN, _ | _, NaN => false
  | NInf, _ | _, PInf => true
  | Fin x, Fin y => Qle_bool x y
  | _, _ => false
  end.

Definition lt (a b : num) : bool :=
  match a, b with
  | NaN, _ | _, NaN => false
  | Fin x, Fin y => Qltb x y
  | NInf, NInf | PInf, PInf => false
  | NInf, _ | _, PInf => true
  | _, _ => false
  end.

Definition ge (a b : num) : bool := le b a.
Definition gt (a b : num) : bool := lt b a.

(** [a === b] on numbers. *)
Definition seq (a b : num) : bool :=
  match a, b with
  | Fin x, Fin y => Qeq_bool x y
  | PInf, PInf | NInf, NInf => true
  | _, _ => false
  end.

Definition sne (a b : num) : bool := negb (seq a b).

(** Truthiness of a number: [0] and NaN are falsy. *)
Definition truthy (a : num) : bool :=
  match a with
  | Fin q => negb (Qzerob q)
  | PInf | NInf => true
  | NaN => false
  end.

(** [a || b] on numbers. *)
Definition or (a b : num) : num := if truthy a then a else b.

(** [Math.min(a, b)] and [Math.max(a, b)]: NaN if an argument is NaN. *)
Definition Math_min (a b : num) : num :=
  match a, b with
  | NaN, _ | _, NaN => NaN
  | _, _ => if le a b then a else b
  end.

Definition Math_max (a b : num) : num :=
  match a, b with
  | NaN, _ | _, NaN => NaN
  | _, _ => if le a b then b else a
  end.

Definition Math_min3 (a b c : num) : num := Math_min (Math_min a b) c.
Definition Math_max3 (a b c : num) : num := Math_max (Math_max a b) c.

Definition Math_ceil (a : num) : num :=
  match a with
  | Fin q => Fin (inject_Z (Qceiling q))
  | _ => a
  end.

(** [Math.pow(a, 2)]. *)
Definition Math_pow2 (a : num) : num := mul a a.

(** [Math.PI]: the double nearest to pi, which is this rational. *)
Definition Math_PI : num := Fin (884279719003555 # 281474976710656).

Notation "a + b" := (add a b) : num_scope.
Notation "a - b" := (sub a b) : num_scope.
Notation "a * b" := (mul a b) : num_scope.
Notation "a / b" := (div a b) : num_scope.
Notation "a <=? b" := (le a b) : num_scope.
Notation "a <? b" := (lt a b) : num_scope.
Notation "a >=? b" := (ge a b) (at level 70) : num_scope.
Notation "a >? b" := (gt a b) (at level 70) : num_scope.
Notation "a === b" := (seq a b) (at level 70) : num_scope.
Notation "a !== b" := (sne a b) (at level 70) : num_scope.
Notation "a || b" := (or a b) : num_scope.

(** Numeric equality of two model numbers (the fractions need not be
    reduced the same way). *)
Definition num_eq (a b : num) : Prop :=
  match a, b with
  | Fin x, Fin y => x == y
  | PInf, PInf | NInf, NInf | NaN, NaN => True
  | _, _ => False
  end.

Infix "=n=" := num_eq (at level 70).

Definition finite (a : num) : Prop :=
  match a with Fin _ => True | _ => False end.

(** Array reads: [xs[i]] of a number array, NaN where the slot is missing. *)
Definition idx (xs : list num) (i : nat) : num := nth i xs NaN.

(** [xs[xs.length - 1]]. *)
Definition idx_last (xs : list num) : num := last xs NaN.

(* ===================================================================== *)
(** ** Unit conversion *)
(* ===================================================================== *)

Open Scope string_scope.
Open Scope num_scope.

Definition toMpa (p : num) (unit : string) : num :=
  if String.eqb unit "Bar" then p * Fin 0.1
  else if String.eqb unit "PSI" then p * Fin 0.00689476
  else if String.eqb unit "kg/cm²" then p * Fin 0.0980665
  else p.

Definition toCelsius (t : num) (unit : string) : num :=
  if String.eqb unit "°F" then (t - Fin 32) * Fin 5 / Fin 9
  else if String.eqb unit "K" then t - Fin 273.15
  else t.

(* ===================================================================== *)
(** ** Data model *)
(* ===================================================================== *)

(** [FlangeInputs] ([src/types.ts] is not at hand; the fields are those of
    [initialInputs]).  [shellGapA] may be [undefined] in the source. *)
Record FlangeInputs : Type := mkFlangeInputs {
  itemNo : string;
  partName : string;
  boltSize : num;
  boltCount : num;
  insideDia : num;
  g0 : num;
  g1 : num;
  cClearance : num;
  shellGapA : option num;
  gasketSeatingWidth : num;
  hasInnerRing : bool;
  hasOuterRing : bool;
  innerRingWidthManual : num;
  outerRingWidthManual : num;
  useManualOverride : bool;
  actualBCD : num;
  actualOD : num;
  manualSeatingID : num;
  manualSeatingOD : num;
  manualM : num;
  manualY : num;
  manualPassM : num;
  manualPassY : num;
  designTemp : num;
  tempUnit : string;
  designPressure : num;
  pressureUnit : string;
  shellMaterial : string;
  jointEfficiency : num;
  corrosionAllowance : num;
  boltMaterial : string;
  passPartitionLength : num;
  passPartitionWidth : num;
  gasketType : string;
  passGasketType : string;
  facingSketch : string;
  useHydraulicTensioning : bool;
  usePcc1Check : bool;
  sgT : num;
  sgMinS : num;
  sgMinO : num;
  sgMax : num;
  sbMax : num;
  sbMin : num;
  sfMax : num;
  phiFMax : num;
  phiGMax : num;
  g : num;
  passPartAreaReduction : num
}.

(** Rows of the reference tables, with the fields the engine reads. *)
Module Bolt.
Record t : Type := mk {
  size : num; B_min : num; R : num; E : num;
  holeSize : num; tensileArea : num }.
End Bolt.

Module Tension.
Record t : Type := mk { size : num; B_ten : num }.
End Tension.

Module Ring.
Record t : Type := mk { min : num; max : num; irMin : num; orMin : num }.
End Ring.

Module Gasket.
Record t : Type := mk { id : string; m : num; y : num }.
End Gasket.

Module Material.
Record t : Type := mk { id : string; stresses : list (option num) }.
End Material.

(** [CalculationResults], field for field as [calculateFullResults]
    returns it. *)
Module Res.
Record CalculationResults : Type := mk {
  bcdMethod1 : num; bcdMethod2 : num; bcdMethod3 : num;
  selectedBcdSource : nat;
  bcdTema : num; odTema : num; boltSpacingMin : num; maxBoltSpacing : num;
  geometricPitch : num; actualBoltSpacing : num;
  spacingOk : bool;
  radialDistance : num; edgeDistance : num; effectiveC : num;
  shellGapA : num;
  gasketSeatingWidth : num; innerRingWidth : num; outerRingWidth : num;
  gasketID : num; seatingID : num; seatingOD : num; gasketOD : num;
  finalBCD : num; finalOD : num;
  maxRaisedFace : num;
  boltHoleSize : num;
  singleBoltArea : num; totalBoltArea : num;
  requiredBoltArea : num;
  totalBoltLoadAmbient : num;
  totalBoltLoadDesign : num;
  ambientAllowableStress : num; designAllowableStress : num;
  gasketM : num; gasketY : num; passM : num; passY : num;
  wm1 : num; wm2 : num; hForce : num; hpForce : num;
  gMeanDia : num; bWidth : num; b0Width : num; nWidth : num }.
End Res.
Definition CalculationResults : Type := Res.CalculationResults.

(** A small error monad: [None] is a thrown [TypeError] (a property read
    on [undefined]). *)
Definition bind {A B : Type} (c : option A) (k : A -> option B) : option B :=
  match c with Some a => k a | None => None end.

Notation "x <- c ;; k" := (bind c (fun x => k))
  (at level 61, c at next level, right associativity).

(** [a || b] where [a] is the result of [find]: an object is truthy. *)
Definition orElse {A : Type} (a b : option A) : option A :=
  match a with Some _ => a | None => b end.

(** [xs[xs.length - 1]] of an array of rows. *)
Definition last_error {A : Type} (xs : list A) : option A :=
  match rev xs with x :: _ => Some x | [] => None end.

(** [stresses[1] || 0] on a curve with [null] entries. *)
Definition ambientOf (stresses : list (option num)) : num :=
  match nth_error stresses 1 with
  | Some (Some v) => v || Fin 0
  | _ => Fin 0
  end.

(* ===================================================================== *)
(** ** Stress interpolation *)
(* ===================================================================== *)

Section Engine.

(** [Math.sqrt]. *)
Variable Math_sqrt : num -> num.

(** The constants of [src/constants.ts] the engine reads. *)
Variable TEMA_BOLT_DATA : list Bolt.t.
Variable HYDRAULIC_TENSIONING_DATA : list Tension.t.
Variable GASKET_RING_TABLE : list Ring.t.
Variable GASKET_TYPES : list Gasket.t.
Variable ASME_BOLT_MATERIALS : list Material.t.
(** The shared temperature steps of the material tables. *)
Variable BOLT_TEMP_STEPS : list num.
(** An object keyed by bolt size. *)
Variable WHC_MAX_PITCH_TABLE : list (num * num).

(** [stressCurve.map(s => s || 0)]; [None] is [null]. *)
Definition cleanCurveOf (stressCurve : list (option num)) : list num :=
  map (fun s => match s with Some v => v || Fin 0 | None => Fin 0 end)
      stressCurve.

(** The [for] loop of [interpolateStress]: [fuel] iterations are left,
    [i] is the loop counter. *)
Fixpoint interpolateLoop (temp : num) (cleanCurve : list num)
         (fuel i : nat) : num :=
  match fuel with
  | O => idx cleanCurve 0
  | S fuel' =>
      let t1 := idx BOLT_TEMP_STEPS i in
      let t2 := idx BOLT_TEMP_STEPS (i + 1) in
      if (temp >=? t1) && (temp <=? t2) then
        let s1 := idx cleanCurve i in
        let s2 := idx cleanCurve (i + 1) || s1 in
        s1 + ((s2 - s1) * (temp - t1)) / (t2 - t1)
      else interpolateLoop temp cleanCurve fuel' (i + 1)
  end.

Definition interpolateStress (temp : num)
           (stressCurve : list (option num)) : num :=
  let cleanCurve := cleanCurveOf stressCurve in
  if temp <=? idx BOLT_TEMP_STEPS 0 then idx cleanCurve 0
  else if temp >=? idx_last BOLT_TEMP_STEPS then idx_last cleanCurve
  else interpolateLoop temp cleanCurve (List.length BOLT_TEMP_STEPS - 1) 0.


(* ===================================================================== *)
(** ** [calculateFullResults] *)
(* ===================================================================== *)

(** [WHC_MAX_PITCH_TABLE[k]], NaN for a missing key. *)
Definition pitchAt (k : num) : num :=
  match find (fun e => fst e === k) WHC_MAX_PITCH_TABLE with
  | Some e => snd e
  | None => NaN
  end.

(** [GASKET_RING_TABLE.find(...) || GASKET_RING_TABLE[length - 1]]. *)
Definition ringConfigOf (insideDia : num) : option Ring.t :=
  orElse (find (fun r => (insideDia >=? Ring.min r) && (insideDia <=? Ring.max r))
               GASKET_RING_TABLE)
         (last_error GASKET_RING_TABLE).

Definition calculateFullResults (currentInputs : FlangeInputs)
  : option CalculationResults :=
  let boltData :=
    orElse (find (fun b => Bolt.size b === boltSize currentInputs) TEMA_BOLT_DATA)
           (hd_error TEMA_BOLT_DATA) in
  let tensionData :=
    find (fun t => Tension.size t === boltSize currentInputs)
         HYDRAULIC_TENSIONING_DATA in
  let ringConfig := ringConfigOf (insideDia currentInputs) in

  innerRingWidth <-
    (if hasInnerRing currentInputs then
       if truthy (innerRingWidthManual currentInputs)
       then Some (innerRingWidthManual currentInputs)
       else (r <- ringConfig ;; Some (Ring.irMin r))
     else Some (Fin 0)) ;;
  outerRingWidth <-
    (if hasOuterRing currentInputs then
       if truthy (outerRingWidthManual currentInputs)
       then Some (outerRingWidthManual currentInputs)
       else (r <- ringConfig ;; Some (Ring.orMin r))
     else Some (Fin 0)) ;;
  let effectiveC := cClearance currentInputs || Fin 2.5 in
  let shellGapA :=
    match shellGapA currentInputs with Some a => a | None => Fin 3 end in
  let bConst := Fin 1.5 in

  boltData <- boltData ;;
  let roundedHoleSize := Math_ceil (Bolt.holeSize boltData) in

  let effectiveBMin :=
    match useHydraulicTensioning currentInputs, tensionData with
    | true, Some tensionData =>
        Math_max (Bolt.B_min boltData) (Tension.B_ten tensionData)
    | _, _ => Bolt.B_min boltData
    end in

  let bcdMethod1 :=
    Math_ceil ((effectiveBMin * Fin 25.4 * boltCount currentInputs) / Math_PI) in
  let radialDistance := Bolt.R boltData * Fin 25.4 in
  let bcdMethod2 :=
    Math_ceil (insideDia currentInputs + (Fin 2 * g1 currentInputs)
               + (Fin 2 * radialDistance)) in

  let baseBCDForAutoGasket := Math_max bcdMethod1 bcdMethod2 in

  let autoSeatingOD_BCD :=
    baseBCDForAutoGasket - roundedHoleSize - (Fin 2 * effectiveC)
    - (Fin 2 * bConst) - (Fin 2 * outerRingWidth) in
  let autoSeatingOD_Shell :=
    insideDia currentInputs + (Fin 2 * shellGapA) + (Fin 2 * innerRingWidth)
    + (Fin 2 * gasketSeatingWidth currentInputs) in

  let autoSeatingOD := Math_max autoSeatingOD_BCD autoSeatingOD_Shell in
  let autoSeatingID := autoSeatingOD - (Fin 2 * gasketSeatingWidth currentInputs) in

  let seatingID :=
    if manualSeatingID currentInputs !== Fin 0
    then manualSeatingID currentInputs else autoSeatingID in
  let seatingOD :=
    if manualSeatingOD currentInputs !== Fin 0
    then manualSeatingOD currentInputs else autoSeatingOD in

  let gasketOD :=
    seatingOD + (if hasOuterRing currentInputs
                 then Fin 2 * outerRingWidth else Fin 0) in
  let gasketID :=
    seatingID - (if hasInnerRing currentInputs
                 then Fin 2 * innerRingWidth else Fin 0) in

  let bcdMethod3 :=
    gasketOD + (Fin 2 * bConst) + (Fin 2 * effectiveC) + roundedHoleSize in
  let bcdTema := Math_max3 bcdMethod1 bcdMethod2 bcdMethod3 in
  let selectedBcdSource :=
    if bcdTema === bcdMethod1 then 1%nat
    else if bcdTema === bcdMethod2 then 2%nat else 3%nat in
  let finalBCD :=
    if actualBCD currentInputs !== Fin 0
    then actualBCD currentInputs else bcdTema in

  let edgeDistance := Bolt.E boltData * Fin 25.4 in
  let odTema := Math_ceil (finalBCD + (Fin 2 * edgeDistance)) in
  let finalOD :=
    if actualOD currentInputs !== Fin 0
    then actualOD currentInputs else odTema in

  let gType :=
    orElse (find (fun g => String.eqb (Gasket.id g) (gasketType currentInputs))
                 GASKET_TYPES)
           (hd_error GASKET_TYPES) in
  gasketM <-
    (if manualM currentInputs !== Fin 0 then Some (manualM currentInputs)
     else (g <- gType ;; Some (Gasket.m g))) ;;
  gasketY <-
    (if manualY currentInputs !== Fin 0 then Some (manualY currentInputs)
     else (g <- gType ;; Some (Gasket.y g))) ;;

  let passGType :=
    orElse (find (fun g => String.eqb (Gasket.id g) (passGasketType currentInputs))
                 GASKET_TYPES)
           gType in
  passM <-
    (if manualPassM currentInputs !== Fin 0 then Some (manualPassM currentInputs)
     else (g <- passGType ;; Some (Gasket.m g))) ;;
  passY <-
    (if manualPassY currentInputs !== Fin 0 then Some (manualPassY currentInputs)
     else (g <- passGType ;; Some (Gasket.y g))) ;;

  let boltNominalDia := boltSize currentInputs * Fin 25.4 in
  let geometricPitch := (Math_PI * finalBCD) / boltCount currentInputs in
  let boltSpacingMin := effectiveBMin * Fin 25.4 in

  let whcMaxPitch :=
    pitchAt (boltSize currentInputs) || (Fin 2.5 * boltNominalDia + Fin 12) in
  let maxBoltSpacing := whcMaxPitch in

  let nWidth := gasketSeatingWidth currentInputs in
  let facing := facingSketch currentInputs in
  let b0Width :=
    if (String.prefix "1a" facing || String.prefix "1b" facing)%bool
    then nWidth / Fin 2
    else if (String.prefix "1c" facing || String.prefix "1d" facing)%bool
    then nWidth / Fin 4
    else if String.prefix "2" facing
    then nWidth / Fin 8
    else nWidth / Fin 2 in

  let Cul := Fin 25.4 in
  let bWidth :=
    if b0Width >? Fin 6 then Fin 0.5 * Cul * Math_sqrt (b0Width / Cul)
    else b0Width in
  let gMeanDia :=
    if b0Width >? Fin 6 then seatingOD - (Fin 2 * bWidth)
    else (seatingID + seatingOD) / Fin 2 in

  let pMpa := toMpa (designPressure currentInputs) (pressureUnit currentInputs) in
  let hForce := Fin 0.785 * Math_pow2 gMeanDia * pMpa in
  let hpForce :=
    Fin 2 * pMpa
    * (bWidth * Math_PI * gMeanDia * gasketM
       + passPartitionWidth currentInputs * passPartitionLength currentInputs
         * passM) in
  let wm1 := hForce + hpForce in
  let wm2 :=
    (Math_PI * bWidth * gMeanDia * (gasketY * Fin 0.00689476))
    + (passPartitionWidth currentInputs * passPartitionLength currentInputs
       * (passY * Fin 0.00689476)) in

  mat <-
    orElse (find (fun m => String.eqb (Material.id m) (boltMaterial currentInputs))
                 ASME_BOLT_MATERIALS)
           (hd_error ASME_BOLT_MATERIALS) ;;
  let ambientAllowableStress := ambientOf (Material.stresses mat) in
  let designAllowableStress :=
    interpolateStress
      (toCelsius (designTemp currentInputs) (tempUnit currentInputs))
      (Material.stresses mat) in

  let totalBoltArea := Bolt.tensileArea boltData * boltCount currentInputs in
  let reqAreaOperating := wm1 / designAllowableStress in
  let reqAreaSeating := wm2 / ambientAllowableStress in
  let requiredBoltArea := Math_max reqAreaOperating reqAreaSeating in

  Some {|
    Res.bcdMethod1 := bcdMethod1; Res.bcdMethod2 := bcdMethod2;
    Res.bcdMethod3 := bcdMethod3; Res.selectedBcdSource := selectedBcdSource;
    Res.bcdTema := bcdTema; Res.odTema := odTema;
    Res.boltSpacingMin := boltSpacingMin; Res.maxBoltSpacing := maxBoltSpacing;
    Res.geometricPitch := geometricPitch;
    Res.actualBoltSpacing := maxBoltSpacing;
    Res.spacingOk :=
      (geometricPitch >=? boltSpacingMin) && (geometricPitch <=? maxBoltSpacing);
    Res.radialDistance := radialDistance; Res.edgeDistance := edgeDistance;
    Res.effectiveC := effectiveC; Res.shellGapA := shellGapA;
    Res.gasketSeatingWidth := nWidth;
    Res.innerRingWidth := innerRingWidth; Res.outerRingWidth := outerRingWidth;
    Res.gasketID := gasketID; Res.seatingID := seatingID;
    Res.seatingOD := seatingOD; Res.gasketOD := gasketOD;
    Res.finalBCD := finalBCD; Res.finalOD := finalOD;
    Res.maxRaisedFace :=
      finalBCD - roundedHoleSize - (Fin 2 * effectiveC) - (Fin 2 * bConst)
      - (Fin 2 * outerRingWidth);
    Res.boltHoleSize := roundedHoleSize;
    Res.singleBoltArea := Bolt.tensileArea boltData;
    Res.totalBoltArea := totalBoltArea;
    Res.requiredBoltArea := requiredBoltArea;
    Res.totalBoltLoadAmbient := totalBoltArea * ambientAllowableStress;
    Res.totalBoltLoadDesign := totalBoltArea * designAllowableStress;
    Res.ambientAllowableStress := ambientAllowableStress;
    Res.designAllowableStress := designAllowableStress;
    Res.gasketM := gasketM; Res.gasketY := gasketY;
    Res.passM := passM; Res.passY := passY;
    Res.wm1 := wm1; Res.wm2 := wm2; Res.hForce := hForce; Res.hpForce := hpForce;
    Res.gMeanDia := gMeanDia; Res.bWidth := bWidth; Res.b0Width := b0Width;
    Res.nWidth := nWidth
  |}.

(* ===================================================================== *)
(** ** PCC-1 stress selection: [pccStatusInfo] *)
(* ===================================================================== *)

(** Gasket area [Ag] and total bolt root area. *)
Definition totalAgOf (inputs : FlangeInputs) (results : CalculationResults) : num :=
  let ringArea :=
    (Math_PI / Fin 4)
    * (Math_pow2 (Res.seatingOD results) - Math_pow2 (Res.seatingID results)) in
  let reducedPassArea :=
    (passPartAreaReduction inputs / Fin 100) * passPartitionWidth inputs
    * passPartitionLength inputs in
  ringArea + reducedPassArea.

Definition totalBoltRootAreaOf (inputs : FlangeInputs)
           (results : CalculationResults) : num :=
  Res.singleBoltArea results * boltCount inputs.

Definition sbSelCalcOf (inputs : FlangeInputs) (results : CalculationResults) : num :=
  let totalBoltRootArea := totalBoltRootAreaOf inputs results in
  if totalBoltRootArea >? Fin 0
  then (sgT inputs * totalAgOf inputs results) / totalBoltRootArea
  else Fin 0.

(** Steps 2 to 4 and the final selection, as functions of [sbSelCalc]. *)
Definition valA (inputs : FlangeInputs) (sbSelCalc : num) : num :=
  Math_min sbSelCalc (sbMax inputs || PInf).

Definition valB (inputs : FlangeInputs) (sbSelCalc : num) : num :=
  Math_max (valA inputs sbSelCalc) (sbMin inputs || Fin 0).

Definition valC (inputs : FlangeInputs) (sbSelCalc : num) : num :=
  Math_min (valB inputs sbSelCalc) (sfMax inputs || PInf).

Definition sbSelFinalOf (inputs : FlangeInputs) (sbSelCalc : num) : num :=
  Math_min3 (valA inputs sbSelCalc) (valB inputs sbSelCalc)
            (valC inputs sbSelCalc).

(** The four inequality checks (steps 5 to 8). *)
Definition isStep5Ok (inputs : FlangeInputs) (results : CalculationResults)
           (sbSelFinal : num) : bool :=
  let totalBoltRootArea := totalBoltRootAreaOf inputs results in
  let totalAg := totalAgOf inputs results in
  let step5Threshold :=
    if totalBoltRootArea >? Fin 0
    then sgMinS inputs * (totalAg / totalBoltRootArea) else Fin 0 in
  sbSelFinal >=? step5Threshold - Fin 0.001.

Definition isStep6Ok (inputs : FlangeInputs) (results : CalculationResults)
           (sbSelFinal : num) : bool :=
  let totalBoltRootArea := totalBoltRootAreaOf inputs results in
  let totalAg := totalAgOf inputs results in
  let pMpa := toMpa (designPressure inputs) (pressureUnit inputs) in
  let step6Numerator :=
    (sgMinO inputs * totalAg)
    + ((Math_PI / Fin 4) * pMpa * Math_pow2 (Res.seatingID results)) in
  let step6Denominator := (g inputs || Fin 1) * totalBoltRootArea in
  let step6Threshold :=
    if totalBoltRootArea >? Fin 0
    then step6Numerator / step6Denominator else Fin 0 in
  sbSelFinal >=? step6Threshold - Fin 0.001.

Definition isStep7Ok (inputs : FlangeInputs) (results : CalculationResults)
           (sbSelFinal : num) : bool :=
  let totalBoltRootArea := totalBoltRootAreaOf inputs results in
  let totalAg := totalAgOf inputs results in
  let step7Threshold :=
    if totalBoltRootArea >? Fin 0
    then sgMax inputs * (totalAg / totalBoltRootArea) else PInf in
  if sgMax inputs === Fin 0 then true
  else sbSelFinal <=? step7Threshold + Fin 0.001.

Definition isStep8Ok (inputs : FlangeInputs) (sbSelFinal : num) : bool :=
  let step8Threshold :=
    if phiFMax inputs >? Fin 0
    then sfMax inputs * ((g inputs || Fin 1) / phiFMax inputs) else PInf in
  if phiFMax inputs === Fin 0 then true
  else sbSelFinal <=? step8Threshold + Fin 0.001.

Record PccStatus : Type := mkPccStatus { active : bool; safe : bool }.

(** [pccStatusInfo] of [App.tsx]: the PCC-1 summary the application
    reports. *)
Definition pccStatusInfo (inputs : FlangeInputs) (results : CalculationResults)
  : PccStatus :=
  if negb (usePcc1Check inputs) then {| active := false; safe := true |}
  else
    let sbSelFinal := sbSelFinalOf inputs (sbSelCalcOf inputs results) in
    {| active := true;
       safe := isStep5Ok inputs results sbSelFinal
               && isStep6Ok inputs results sbSelFinal
               && isStep7Ok inputs results sbSelFinal
               && isStep8Ok inputs sbSelFinal |}.

(** The banner of the PCC-1 panel of [BoltLoadTable.tsx] ("Stress Within
    Limit" when true, "Check Bounds" when false); the panel recomputes the
    same step values from the same [inputs] and [results]. *)
Definition BoltLoadTable_withinLimit (inputs : FlangeInputs)
           (results : CalculationResults) : bool :=
  let sbSelFinal := sbSelFinalOf inputs (sbSelCalcOf inputs results) in
  (sbSelFinal <=? sbMax inputs) && (sbSelFinal >=? sbMin inputs)
  && isStep5Ok inputs results sbSelFinal
  && isStep6Ok inputs results sbSelFinal
  && isStep7Ok inputs results sbSelFinal
  && isStep8Ok inputs sbSelFinal.

(** The ring configuration the input panel of [Calculator.tsx] shows. *)
Definition Calculator_autoIR (inputs : FlangeInputs) : option num :=
  ringConfig <- ringConfigOf (insideDia inputs) ;;
  Some (Ring.irMin ringConfig).

(* ===================================================================== *)
(** ** Design-space search: [performSearch] *)
(* ===================================================================== *)

(** [{ ...targetInputs, useManualOverride: false, actualBCD: 0, actualOD: 0,
       manualSeatingID: 0, manualSeatingOD: 0 }] *)
Definition clearGeometryOverrides (i : FlangeInputs) : FlangeInputs :=
  mkFlangeInputs
    (itemNo i) (partName i) (boltSize i) (boltCount i) (insideDia i)
    (g0 i) (g1 i) (cClearance i) (shellGapA i) (gasketSeatingWidth i)
    (hasInnerRing i) (hasOuterRing i)
    (innerRingWidthManual i) (outerRingWidthManual i)
    false (Fin 0) (Fin 0) (Fin 0) (Fin 0)
    (manualM i) (manualY i) (manualPassM i) (manualPassY i)
    (designTemp i) (tempUnit i) (designPressure i) (pressureUnit i)
    (shellMaterial i) (jointEfficiency i) (corrosionAllowance i)
    (boltMaterial i) (passPartitionLength i) (passPartitionWidth i)
    (gasketType i) (passGasketType i) (facingSketch i)
    (useHydraulicTensioning i) (usePcc1Check i)
    (sgT i) (sgMinS i) (sgMinO i) (sgMax i) (sbMax i) (sbMin i) (sfMax i)
    (phiFMax i) (phiGMax i) (g i) (passPartAreaReduction i).

(** [{ ...i, boltSize: size, boltCount: count }] *)
Definition withSizeCount (i : FlangeInputs) (size count : num) : FlangeInputs :=
  mkFlangeInputs
    (itemNo i) (partName i) size count (insideDia i)
    (g0 i) (g1 i) (cClearance i) (shellGapA i) (gasketSeatingWidth i)
    (hasInnerRing i) (hasOuterRing i)
    (innerRingWidthManual i) (outerRingWidthManual i)
    (useManualOverride i) (actualBCD i) (actualOD i)
    (manualSeatingID i) (manualSeatingOD i)
    (manualM i) (manualY i) (manualPassM i) (manualPassY i)
    (designTemp i) (tempUnit i) (designPressure i) (pressureUnit i)
    (shellMaterial i) (jointEfficiency i) (corrosionAllowance i)
    (boltMaterial i) (passPartitionLength i) (passPartitionWidth i)
    (gasketType i) (passGasketType i) (facingSketch i)
    (useHydraulicTensioning i) (usePcc1Check i)
    (sgT i) (sgMinS i) (sgMinO i) (sgMax i) (sbMax i) (sbMin i) (sfMax i)
    (phiFMax i) (phiGMax i) (g i) (passPartAreaReduction i).

(** The updater passed to [setInputs] when the search succeeds. *)
Definition applySearchResult (prev : FlangeInputs) (bestSize bestCount : num)
  : FlangeInputs :=
  clearGeometryOverrides (withSizeCount prev bestSize bestCount).

Definition counts : list num :=
  map (fun z => Fin (inject_Z z))
      [4; 8; 12; 16; 20; 24; 28; 32; 36; 40; 44; 48; 52; 56; 60; 64; 68; 72;
       76; 80]%Z.

Definition sizesToSearch (optimizedTargetInputs : FlangeInputs)
           (fixedSize : bool) : list num :=
  if fixedSize then [boltSize optimizedTargetInputs]
  else map Bolt.size
           (filter (fun b => Bolt.size b >=? Fin 0.75) TEMA_BOLT_DATA).

(** The mutable locals of the search loop. *)
Record SearchVars : Type := mkSearchVars {
  bestSize : num;
  bestCount : num;
  minRequiredLoad : num;
  found : bool
}.

Definition requiredLoadOf (r : CalculationResults) : num :=
  Math_max (Res.wm1 r) (Res.wm2 r).

Definition marginOf (r : CalculationResults) : num :=
  ((Res.totalBoltLoadDesign r - requiredLoadOf r) / requiredLoadOf r) * Fin 100.

(** The body of the inner loop for one [(size, count)]. *)
Definition searchStep (optimizedTargetInputs : FlangeInputs) (size : num)
           (v : SearchVars) (count : num) : option SearchVars :=
  let testInputs := withSizeCount optimizedTargetInputs size count in
  testResults <- calculateFullResults testInputs ;;
  let req := requiredLoadOf testResults in
  let margin := marginOf testResults in
  if (margin >=? Fin 0) && Res.spacingOk testResults then
    if req <? minRequiredLoad v
    then Some (mkSearchVars size count req true)
    else Some v
  else Some v.

Fixpoint forCounts (optimizedTargetInputs : FlangeInputs) (size : num)
         (cs : list num) (v : SearchVars) : option SearchVars :=
  match cs with
  | [] => Some v
  | count :: cs' =>
      v' <- searchStep optimizedTargetInputs size v count ;;
      forCounts optimizedTargetInputs size cs' v'
  end.

Fixpoint forSizes (optimizedTargetInputs : FlangeInputs) (sizes : list num)
         (v : SearchVars) : option SearchVars :=
  match sizes with
  | [] => Some v
  | size :: sizes' =>
      v' <- forCounts optimizedTargetInputs size counts v ;;
      forSizes optimizedTargetInputs sizes' v'
  end.

(** The two dialogs [performSearch] can raise. *)
Inductive Alert : Type :=
| OptimizationCompleted (fixedSize : bool)
    (bestSize bestCount minRequiredLoad finalMargin : num)
| NoValidConfiguration (fixedSize : bool) (currentBoltSize : num).

(** [performSearch]: [prev] is the stored Design Input ([setInputs] updates
    it), the result is the new stored Design Input and the dialog.  [None]
    is a [TypeError] thrown by [calculateFullResults]; [setInputs] has not
    been reached then. *)
Definition performSearch (prev targetInputs : FlangeInputs) (fixedSize : bool)
  : option (FlangeInputs * Alert) :=
  let optimizedTargetInputs := clearGeometryOverrides targetInputs in
  let init :=
    mkSearchVars (boltSize optimizedTargetInputs)
                 (boltCount optimizedTargetInputs) PInf false in
  v <- forSizes optimizedTargetInputs
                (sizesToSearch optimizedTargetInputs fixedSize) init ;;
  if found v then
    let next := applySearchResult prev (bestSize v) (bestCount v) in
    let finalTestInputs :=
      withSizeCount optimizedTargetInputs (bestSize v) (bestCount v) in
    finalResults <- calculateFullResults finalTestInputs ;;
    let finalMargin := marginOf finalResults in
    Some (next,
          OptimizationCompleted fixedSize (bestSize v) (bestCount v)
                                (minRequiredLoad v) finalMargin)
  else
    Some (prev, NoValidConfiguration fixedSize (boltSize optimizedTargetInputs)).

(** [handleOptimize]: the search runs on the stored Design Input. *)
Definition handleOptimize (inputs : FlangeInputs) (isFixedSizeSearch : bool)
  : option (FlangeInputs * Alert) :=
  performSearch inputs inputs isFixedSizeSearch.

End Engine.

(* ===================================================================== *)
(** ** The interpolation rule as the specification words it *)
(* ===================================================================== *)

(** Null entries become zero, every other entry is kept. *)
Definition zeroSubstituted (stressCurve : list (option num)) : list num :=
  map (fun s => match s with Some v => v | None => Fin 0 end) stressCurve.

(** Linear interpolation between the first pair of neighbouring steps that
    brackets [t]. *)
Fixpoint interpolateBracket_spec (t : num) (steps values : list num)
  : option num :=
  match steps, values with
  | t1 :: ((t2 :: _) as steps'), s1 :: ((s2 :: _) as values') =>
      if (t1 <=? t) && (t <=? t2)
      then Some (s1 + (s2 - s1) * (t - t1) / (t2 - t1))
      else interpolateBracket_spec t steps' values'
  | _, _ => None
  end.

(** The reference definition: first value at or below the lowest step, last
    value at or above the highest step, linear in between. *)
Definition interpolate_spec (steps : list num) (t : num)
           (stressCurve : list (option num)) : num :=
  let values := zeroSubstituted stressCurve in
  if t <=? idx steps 0 then idx values 0
  else if idx_last steps <=? t then idx_last values
  else match interpolateBracket_spec t steps values with
       | Some v => v
       | None => NaN
       end.

(** Steps in strictly ascending order, all finite. *)
Definition ascending (steps : list num) : Prop :=
  (forall i, (i < List.length steps)%nat -> finite (idx steps i)) /\
  (forall i, (i + 1 < List.length steps)%nat ->
             (idx steps i <? idx steps (i + 1)) = true).

(* ===================================================================== *)
(** ** Example tables and inputs *)
(* ===================================================================== *)

(** Small tables in the shape of [src/constants.ts], used to run the model
    on concrete inputs. *)
Definition exampleBolts : list Bolt.t :=
  [ Bolt.mk (Fin 0.625) (Fin 1.5) (Fin 0.9375) (Fin 0.75) (Fin 19.05) (Fin 130.3);
    Bolt.mk (Fin 0.75) (Fin 1.75) (Fin 1.125) (Fin 0.8125) (Fin 22.225) (Fin 194.8);
    Bolt.mk (Fin 1) (Fin 2.25) (Fin 1.375) (Fin 1.0625) (Fin 28.575) (Fin 355.5) ].

Definition exampleTension : list Tension.t :=
  [ Tension.mk (Fin 1) (Fin 2.5) ].

Definition exampleRings : list Ring.t :=
  [ Ring.mk (Fin 0) (Fin 600) (Fin 6) (Fin 6);
    Ring.mk (Fin 601) (Fin 100000) (Fin 10) (Fin 10) ].

Definition exampleGaskets : list Gasket.t :=
  [ Gasket.mk "Flat metal" (Fin 4) (Fin 8800);
    Gasket.mk "Spiral wound" (Fin 3) (Fin 10000) ].

Definition exampleSteps : list num := [Fin 40; Fin 100; Fin 200; Fin 300].

(** The second material is not allowed at the highest step: its last entry
    is [null]. *)
Definition exampleMaterials : list Material.t :=
  [ Material.mk "SA-193 B7"
      [Some (Fin 172); Some (Fin 172); Some (Fin 172); Some (Fin 172)];
    Material.mk "SA-307 B"
      [Some (Fin 48); Some (Fin 48); Some (Fin 48); None] ].

Definition examplePitch : list (num * num) := [ (Fin 0.75, Fin 76) ].

(** A square root for the examples, rounded down to six decimals. *)
Definition exampleSqrt (a : num) : num :=
  match a with
  | Fin q =>
      if Qltb q 0 then NaN
      else Fin (Z.sqrt (Qfloor (q * 1000000000000)) # 1000000)
  | PInf => PInf
  | _ => NaN
  end.

(** [initialInputs] of [App.tsx] over the example tables ([g0 = 2],
    [g1 = 3]). *)
Definition exampleInputs : FlangeInputs :=
  mkFlangeInputs
    "E-101" "CC FLG" (Fin 0.75) (Fin 12) (Fin 300)
    (Fin 2) (Fin 3) (Fin 2.5) (Some (Fin 3)) (Fin 15)
    true true (Fin 0) (Fin 0)
    false (Fin 0) (Fin 0) (Fin 0) (Fin 0)
    (Fin 0) (Fin 0) (Fin 0) (Fin 0)
    (Fin 100) "°C" (Fin 1) "MPa"
    "SA-516 70" (Fin 1) (Fin 0)
    "SA-193 B7" (Fin 0) (Fin 0)
    "Spiral wound" "Spiral wound" "1a: Flat Face / Groove"
    false false
    (Fin 0) (Fin 0) (Fin 0) (Fin 0) (Fin 0) (Fin 0) (Fin 0)
    (Fin 0.32) (Fin 1) (Fin 0.7) (Fin 50).

(** The engine and the search over the example tables. *)
Abbreviation exampleCalculate :=
  (calculateFullResults exampleSqrt exampleBolts exampleTension exampleRings
                        exampleGaskets exampleMaterials exampleSteps
                        examplePitch).

Abbreviation exampleSearch :=
  (performSearch exampleSqrt exampleBolts exampleTension exampleRings
                 exampleGaskets exampleMaterials exampleSteps examplePitch).

(** [{ ...i, usePcc1Check: true, sgT, sgMinS, sgMinO, sgMax, sbMax, sbMin,
       sfMax }] *)
Definition withPcc1 (i : FlangeInputs)
           (sgT' sgMinS' sgMinO' sgMax' sbMax' sbMin' sfMax' : num)
  : FlangeInputs :=
  mkFlangeInputs
    (itemNo i) (partName i) (boltSize i) (boltCount i) (insideDia i)
    (g0 i) (g1 i) (cClearance i) (shellGapA i) (gasketSeatingWidth i)
    (hasInnerRing i) (hasOuterRing i)
    (innerRingWidthManual i) (outerRingWidthManual i)
    (useManualOverride i) (actualBCD i) (actualOD i)
    (manualSeatingID i) (manualSeatingOD i)
    (manualM i) (manualY i) (manualPassM i) (manualPassY i)
    (designTemp i) (tempUnit i) (designPressure i) (pressureUnit i)
    (shellMaterial i) (jointEfficiency i) (corrosionAllowance i)
    (boltMaterial i) (passPartitionLength i) (passPartitionWidth i)
    (gasketType i) (passGasketType i) (facingSketch i)
    (useHydraulicTensioning i) true
    sgT' sgMinS' sgMinO' sgMax' sbMax' sbMin' sfMax'
    (phiFMax i) (phiGMax i) (g i) (passPartAreaReduction i).

(** PCC-1 check on, bolt stress bounds 200 to 500 MPa, no flange limit. *)
Definition pccBoundedInputs : FlangeInputs :=
  withPcc1 exampleInputs (Fin 150) (Fin 140) (Fin 97) (Fin 0)
           (Fin 500) (Fin 200) (Fin 0).

(** The stress curve of the second example material. *)
Definition exampleCurveB : list (option num) :=
  [Some (Fin 48); Some (Fin 48); Some (Fin 48); None].

(* ===================================================================== *)
(** ** The auto-derived values, in terms of the result's fields *)
(* ===================================================================== *)

Section AutoValues.

Variable GASKET_TYPES : list Gasket.t.

(** The seating outside diameter the engine derives when no manual value
    is given: the larger of the bolt-circle fit, taken from the provisional
    B.C.D [max(bcdMethod1, bcdMethod2)], and the shell fit. *)
Definition autoSeatingODOf (i : FlangeInputs) (r : CalculationResults) : num :=
  Math_max
    (Math_max (Res.bcdMethod1 r) (Res.bcdMethod2 r) - Res.boltHoleSize r
     - (Fin 2 * Res.effectiveC r) - (Fin 2 * Fin 1.5)
     - (Fin 2 * Res.outerRingWidth r))
    (insideDia i + (Fin 2 * Res.shellGapA r) + (Fin 2 * Res.innerRingWidth r)
     + (Fin 2 * gasketSeatingWidth i)).

Definition autoSeatingIDOf (i : FlangeInputs) (r : CalculationResults) : num :=
  autoSeatingODOf i r - (Fin 2 * gasketSeatingWidth i).

(** The gasket-table row of the flange gasket and of the pass-partition
    gasket. *)
Definition gTypeOf (i : FlangeInputs) : option Gasket.t :=
  orElse (find (fun g => String.eqb (Gasket.id g) (gasketType i)) GASKET_TYPES)
         (hd_error GASKET_TYPES).

Definition passGTypeOf (i : FlangeInputs) : option Gasket.t :=
  orElse (find (fun g => String.eqb (Gasket.id g) (passGasketType i))
               GASKET_TYPES)
         (gTypeOf i).

End AutoValues.

(** [{ ...i, hasInnerRing, hasOuterRing, innerRingWidthManual,
       outerRingWidthManual }] *)
Definition withRings (i : FlangeInputs) (hasInner hasOuter : bool)
           (innerManual outerManual : num) : FlangeInputs :=
  mkFlangeInputs
    (itemNo i) (partName i) (boltSize i) (boltCount i) (insideDia i)
    (g0 i) (g1 i) (cClearance i) (shellGapA i) (gasketSeatingWidth i)
    hasInner hasOuter innerManual outerManual
    (useManualOverride i) (actualBCD i) (actualOD i)
    (manualSeatingID i) (manualSeatingOD i)
    (manualM i) (manualY i) (manualPassM i) (manualPassY i)
    (designTemp i) (tempUnit i) (designPressure i) (pressureUnit i)
    (shellMaterial i) (jointEfficiency i) (corrosionAllowance i)
    (boltMaterial i) (passPartitionLength i) (passPartitionWidth i)
    (gasketType i) (passGasketType i) (facingSketch i)
    (useHydraulicTensioning i) (usePcc1Check i)
    (sgT i) (sgMinS i) (sgMinO i) (sgMax i) (sbMax i) (sbMin i) (sfMax i)
    (phiFMax i) (phiGMax i) (g i) (passPartAreaReduction i).

(** [{ ...i, insideDia }] *)
Definition withInsideDia (i : FlangeInputs) (insideDia' : num) : FlangeInputs :=
  mkFlangeInputs
    (itemNo i) (partName i) (boltSize i) (boltCount i) insideDia'
    (g0 i) (g1 i) (cClearance i) (shellGapA i) (gasketSeatingWidth i)
    (hasInnerRing i) (hasOuterRing i)
    (innerRingWidthManual i) (outerRingWidthManual i)
    (useManualOverride i) (actualBCD i) (actualOD i)
    (manualSeatingID i) (manualSeatingOD i)
    (manualM i) (manualY i) (manualPassM i) (manualPassY i)
    (designTemp i) (tempUnit i) (designPressure i) (pressureUnit i)
    (shellMaterial i) (jointEfficiency i) (corrosionAllowance i)
    (boltMaterial i) (passPartitionLength i) (passPartitionWidth i)
    (gasketType i) (passGasketType i) (facingSketch i)
    (useHydraulicTensioning i) (usePcc1Check i)
    (sgT i) (sgMinS i) (sgMinO i) (sgMax i) (sbMax i) (sbMin i) (sfMax i)
    (phiFMax i) (phiGMax i) (g i) (passPartAreaReduction i).

(** [{ ...i, boltMaterial, designTemp }] *)
Definition withBoltMaterial (i : FlangeInputs) (boltMaterial' : string)
           (designTemp' : num) : FlangeInputs :=
  mkFlangeInputs
    (itemNo i) (partName i) (boltSize i) (boltCount i) (insideDia i)
    (g0 i) (g1 i) (cClearance i) (shellGapA i) (gasketSeatingWidth i)
    (hasInnerRing i) (hasOuterRing i)
    (innerRingWidthManual i) (outerRingWidthManual i)
    (useManualOverride i) (actualBCD i) (actualOD i)
    (manualSeatingID i) (manualSeatingOD i)
    (manualM i) (manualY i) (manualPassM i) (manualPassY i)
    designTemp' (tempUnit i) (designPressure i) (pressureUnit i)
    (shellMaterial i) (jointEfficiency i) (corrosionAllowance i)
    boltMaterial' (passPartitionLength i) (passPartitionWidth i)
    (gasketType i) (passGasketType i) (facingSketch i)
    (useHydraulicTensioning i) (usePcc1Check i)
    (sgT i) (sgMinS i) (sgMinO i) (sgMax i) (sbMax i) (sbMin i) (sfMax i)
    (phiFMax i) (phiGMax i) (g i) (passPartAreaReduction i).

(** [{ ...i, manualM, manualY, manualPassM, manualPassY }] *)
Definition withManualFactors (i : FlangeInputs)
           (manualM' manualY' manualPassM' manualPassY' : num) : FlangeInputs :=
  mkFlangeInputs
    (itemNo i) (partName i) (boltSize i) (boltCount i) (insideDia i)
    (g0 i) (g1 i) (cClearance i) (shellGapA i) (gasketSeatingWidth i)
    (hasInnerRing i) (hasOuterRing i)
    (innerRingWidthManual i) (outerRingWidthManual i)
    (useManualOverride i) (actualBCD i) (actualOD i)
    (manualSeatingID i) (manualSeatingOD i)
    manualM' manualY' manualPassM' manualPassY'
    (designTemp i) (tempUnit i) (designPressure i) (pressureUnit i)
    (shellMaterial i) (jointEfficiency i) (corrosionAllowance i)
    (boltMaterial i) (passPartitionLength i) (passPartitionWidth i)
    (gasketType i) (passGasketType i) (facingSketch i)
    (useHydraulicTensioning i) (usePcc1Check i)
    (sgT i) (sgMinS i) (sgMinO i) (sgMax i) (sbMax i) (sbMin i) (sfMax i)
    (phiFMax i) (phiGMax i) (g i) (passPartAreaReduction i).

(** [{ ...i, useManualOverride: true, actualBCD, actualOD, manualSeatingID,
       manualSeatingOD }] *)
Definition withManualGeometry (i : FlangeInputs)
           (actualBCD' actualOD' manualSeatingID' manualSeatingOD' : num)
  : FlangeInputs :=
  mkFlangeInputs
    (itemNo i) (partName i) (boltSize i) (boltCount i) (insideDia i)
    (g0 i) (g1 i) (cClearance i) (shellGapA i) (gasketSeatingWidth i)
    (hasInnerRing i) (hasOuterRing i)
    (innerRingWidthManual i) (outerRingWidthManual i)
    true actualBCD' actualOD' manualSeatingID' manualSeatingOD'
    (manualM i) (manualY i) (manualPassM i) (manualPassY i)
    (designTemp i) (tempUnit i) (designPressure i) (pressureUnit i)
    (shellMaterial i) (jointEfficiency i) (corrosionAllowance i)
    (boltMaterial i) (passPartitionLength i) (passPartitionWidth i)
    (gasketType i) (passGasketType i) (facingSketch i)
    (useHydraulicTensioning i) (usePcc1Check i)
    (sgT i) (sgMinS i) (sgMinO i) (sgMax i) (sbMax i) (sbMin i) (sfMax i)
    (phiFMax i) (phiGMax i) (g i) (passPartAreaReduction i).

(** No inner ring, yet a manual inner ring width of 5 mm. *)
Definition ringAbsentInputs : FlangeInputs :=
  withRings exampleInputs false true (Fin 5) (Fin 0).

(** A shell inside diameter between the two ranges of [exampleRings]. *)
Definition betweenRangesInputs : FlangeInputs :=
  withInsideDia exampleInputs (Fin 600.5).

(** The second example material at the highest temperature step, where its
    curve is [null]. *)
Definition zeroStressInputs : FlangeInputs :=
  withBoltMaterial exampleInputs "SA-307 B" (Fin 300).

(** Manual overrides of the geometry and of all four gasket factors. *)
Definition overriddenInputs : FlangeInputs :=
  withManualFactors
    (withManualGeometry exampleInputs (Fin 400) (Fin 450) (Fin 320) (Fin 350))
    (Fin 2.5) (Fin 9000) (Fin 2) (Fin 5000).

(** [{ ...i, designPressure }] *)
Definition withDesignPressure (i : FlangeInputs) (designPressure' : num)
  : FlangeInputs :=
  mkFlangeInputs
    (itemNo i) (partName i) (boltSize i) (boltCount i) (insideDia i)
    (g0 i) (g1 i) (cClearance i) (shellGapA i) (gasketSeatingWidth i)
    (hasInnerRing i) (hasOuterRing i)
    (innerRingWidthManual i) (outerRingWidthManual i)
    (useManualOverride i) (actualBCD i) (actualOD i)
    (manualSeatingID i) (manualSeatingOD i)
    (manualM i) (manualY i) (manualPassM i) (manualPassY i)
    (designTemp i) (tempUnit i) designPressure' (pressureUnit i)
    (shellMaterial i) (jointEfficiency i) (corrosionAllowance i)
    (boltMaterial i) (passPartitionLength i) (passPartitionWidth i)
    (gasketType i) (passGasketType i) (facingSketch i)
    (useHydraulicTensioning i) (usePcc1Check i)
    (sgT i) (sgMinS i) (sgMinO i) (sgMax i) (sbMax i) (sbMin i) (sfMax i)
    (phiFMax i) (phiGMax i) (g i) (passPartAreaReduction i).

(** Twenty-four 1 inch bolts at 0.1 MPa with the PCC-1 check on: target
    gasket stress 140 MPa, bolt stress bounds 289.6 to 506.8 MPa, flange
    limit 400 MPa. *)
Definition pccBelowMinInputs : FlangeInputs :=
  withPcc1
    (withDesignPressure (withSizeCount exampleInputs (Fin 1) (Fin 24)) (Fin 0.1))
    (Fin 140) (Fin 140) (Fin 97) (Fin 0) (Fin 506.8) (Fin 289.6) (Fin 400).

(* ===================================================================== *)
(** ** Statement vocabulary for the search *)
(* ===================================================================== *)

(** The test of the search loop: margin at least zero and pitch within the
    spacing bounds. *)
Definition feasible (r : CalculationResults) : bool :=
  (marginOf r >=? Fin 0) && Res.spacingOk r.

(** A finite number that is not negative. *)
Definition nonneg (a : num) : Prop :=
  match a with Fin q => (0 <= q)%Q | _ => False end.

(** Tables with physical entries: tensile areas and allowable stresses are
    finite and not negative ([null] stresses are allowed), temperature
    steps are finite. *)
Definition physicalTables (bolts : list Bolt.t) (materials : list Material.t)
           (steps : list num) : Prop :=
  (forall b, In b bolts -> nonneg (Bolt.tensileArea b)) /\
  (forall m s, In m materials -> In (Some s) (Material.stresses m) -> nonneg s) /\
  (forall t, In t steps -> finite t).

(** [handleOptimize] over the example tables. *)
Abbreviation exampleOptimize :=
  (handleOptimize exampleSqrt exampleBolts exampleTension exampleRings
                  exampleGaskets exampleMaterials exampleSteps examplePitch).

(** Two cells of the grid searched from [exampleInputs]. *)
Definition exampleCell_34_20 : FlangeInputs :=
  withSizeCount (clearGeometryOverrides exampleInputs)
                (Fin 0.75) (Fin (inject_Z 20)).

Definition exampleCell_1_24 : FlangeInputs :=
  withSizeCount (clearGeometryOverrides exampleInputs)
                (Fin 1) (Fin (inject_Z 24)).

(* ===================================================================== *)
(** ** Statement vocabulary for [calculateFullResults] *)
(* ===================================================================== *)

(** [calculateFullResults] reads a ring-table row: a ring is present and
    has no manual width. *)
Definition needsRingTable (i : FlangeInputs) : bool :=
  (hasInnerRing i && negb (truthy (innerRingWidthManual i)))
  || (hasOuterRing i && negb (truthy (outerRingWidthManual i))).

(** [calculateFullResults] reads a gasket-table row: one of the four
    factors has no manual value. *)
Definition needsGasketTable (i : FlangeInputs) : bool :=
  negb (manualM i !== Fin 0) || negb (manualY i !== Fin 0)
  || negb (manualPassM i !== Fin 0) || negb (manualPassY i !== Fin 0).

(** The "Hydraulic Bolt Tensioning" button of [Calculator.tsx]:
    [{ ...inputs, useHydraulicTensioning: !inputs.useHydraulicTensioning }] *)
Definition toggleHydraulicTensioning (i : FlangeInputs) : FlangeInputs :=
  mkFlangeInputs
    (itemNo i) (partName i) (boltSize i) (boltCount i) (insideDia i)
    (g0 i) (g1 i) (cClearance i) (shellGapA i) (gasketSeatingWidth i)
    (hasInnerRing i) (hasOuterRing i)
    (innerRingWidthManual i) (outerRingWidthManual i)
    (useManualOverride i) (actualBCD i) (actualOD i)
    (manualSeatingID i) (manualSeatingOD i)
    (manualM i) (manualY i) (manualPassM i) (manualPassY i)
    (designTemp i) (tempUnit i) (designPressure i) (pressureUnit i)
    (shellMaterial i) (jointEfficiency i) (corrosionAllowance i)
    (boltMaterial i) (passPartitionLength i) (passPartitionWidth i)
    (gasketType i) (passGasketType i) (facingSketch i)
    (negb (useHydraulicTensioning i)) (usePcc1Check i)
    (sgT i) (sgMinS i) (sgMinO i) (sgMax i) (sbMax i) (sbMin i) (sfMax i)
    (phiFMax i) (phiGMax i) (g i) (passPartAreaReduction i).

(** The spacing status of [ResultTable] ([Calculator.tsx]). *)
Definition isPitchTooSmall (results : CalculationResults) : bool :=
  Res.geometricPitch results <? Res.boltSpacingMin results - Fin 0.1.

Definition isPitchTooLarge (results : CalculationResults) : bool :=
  Res.geometricPitch results >? Res.maxBoltSpacing results + Fin 0.1.

Definition spacingStatus (results : CalculationResults) : string :=
  if isPitchTooSmall results then "PITCH TOO SMALL"
  else if isPitchTooLarge results then "PITCH TOO LARGE" else "PITCH OK".

(* ===================================================================== *)
(** ** Input panel handlers of [Calculator.tsx] *)
(* ===================================================================== *)

(** [Math.round]: the nearest integer, a half goes up. *)
Definition Math_round (a : num) : num :=
  match a with
  | Fin q => Fin (inject_Z (Qfloor (q + (1 # 2))))
  | _ => a
  end.

(** [s.toLowerCase()] on the letters A to Z; every other byte is kept. *)
Definition lowerAscii (c : Ascii.ascii) : Ascii.ascii :=
  let n := Ascii.N_of_ascii c in
  if ((65 <=? n) && (n <=? 90))%N then Ascii.ascii_of_N (n + 32) else c.

Fixpoint toLowerCase (s : string) : string :=
  match s with
  | EmptyString => EmptyString
  | String c s' => String (lowerAscii c) (toLowerCase s')
  end.

(** [s.includes(sub)]. *)
Fixpoint includes (s sub : string) : bool :=
  orb (String.prefix sub s)
      match s with
      | EmptyString => false
      | String _ s' => includes s' sub
      end.

(** [toggleManualMode]:
    [{ ...inputs, useManualOverride: !inputs.useManualOverride }] *)
Definition toggleManualMode (i : FlangeInputs) : FlangeInputs :=
  mkFlangeInputs
    (itemNo i) (partName i) (boltSize i) (boltCount i) (insideDia i)
    (g0 i) (g1 i) (cClearance i) (shellGapA i) (gasketSeatingWidth i)
    (hasInnerRing i) (hasOuterRing i) (innerRingWidthManual i)
    (outerRingWidthManual i) (negb (useManualOverride i)) (actualBCD i)
    (actualOD i) (manualSeatingID i) (manualSeatingOD i) (manualM i)
    (manualY i) (manualPassM i) (manualPassY i) (designTemp i)
    (tempUnit i) (designPressure i) (pressureUnit i) (shellMaterial i)
    (jointEfficiency i) (corrosionAllowance i) (boltMaterial i)
    (passPartitionLength i) (passPartitionWidth i) (gasketType i)
    (passGasketType i) (facingSketch i) (useHydraulicTensioning i)
    (usePcc1Check i) (sgT i) (sgMinS i) (sgMinO i) (sgMax i) (sbMax i)
    (sbMin i) (sfMax i) (phiFMax i) (phiGMax i) (g i)
    (passPartAreaReduction i).

(** [resetGasketStandard]: the input handed to [onInputChange]. *)
Definition resetGasketStandard (i : FlangeInputs) : FlangeInputs :=
  mkFlangeInputs
    (itemNo i) (partName i) (boltSize i) (boltCount i) (insideDia i)
    (g0 i) (g1 i) (Fin 2.5) (Some (Fin 3)) (gasketSeatingWidth i) true
    true (Fin 0) (Fin 0) false (Fin 0) (Fin 0) (Fin 0) (Fin 0) (Fin 0)
    (Fin 0) (Fin 0) (Fin 0) (designTemp i) (tempUnit i) (designPressure i)
    (pressureUnit i) (shellMaterial i) (jointEfficiency i)
    (corrosionAllowance i) (boltMaterial i) (Fin 0) (Fin 0) (gasketType i)
    (passGasketType i) (facingSketch i) false false (sgT i) (sgMinS i)
    (sgMinO i) (sgMax i) (sbMax i) (sbMin i) (sfMax i) (Fin 0.32) (Fin 1)
    (Fin 0.7) (Fin 50).

Section InputPanel.

Variable ASME_BOLT_MATERIALS : list Material.t.

(** The [minYield] field of a bolt material row; [None] where the row has
    none. *)
Variable minYield : Material.t -> option num.

(** [updatePcc1Values]: the gasket stress limits by gasket family, the
    bolt stress limits from the minimum yield, and the defaults of the
    three factors. *)
Definition updatePcc1Values (gasketType' : string)
           (currentInputs : FlangeInputs) : FlangeInputs :=
  let typeLower := toLowerCase gasketType' in
  let grooved := includes typeLower "grooved" in
  let corruga := includes typeLower "corruga" in
  let spiral := includes typeLower "spiral" in
  let mat :=
    find (fun m => String.eqb (Material.id m) (boltMaterial currentInputs))
         ASME_BOLT_MATERIALS in
  let yield :=
    match mat with
    | Some m =>
        match minYield m with
        | Some y => if truthy y then Some y else None
        | None => None
        end
    | None => None
    end in
  let sgMax' :=
    if grooved then Fin 380 else if corruga then Fin 275
    else if spiral then Fin 0 else sgMax currentInputs in
  let sgMinS' :=
    if grooved then Fin 140 else if corruga then Fin 140
    else if spiral then Fin 140 else sgMinS currentInputs in
  let sgMinO' :=
    if grooved then Fin 97 else if corruga then Fin 97
    else if spiral then Fin 97 else sgMinO currentInputs in
  let sbMax' :=
    match yield with
    | Some y => Math_round (y * Fin 0.7 * Fin 10) / Fin 10
    | None => sbMax currentInputs
    end in
  let sbMin' :=
    match yield with
    | Some y => Math_round (y * Fin 0.4 * Fin 10) / Fin 10
    | None => sbMin currentInputs
    end in
  let phiFMax' :=
    if negb (truthy (phiFMax currentInputs)) then Fin 0.32
    else phiFMax currentInputs in
  let g' :=
    if negb (truthy (g currentInputs)) then Fin 0.7 else g currentInputs in
  let passPartAreaReduction' :=
    if negb (truthy (passPartAreaReduction currentInputs)) then Fin 50
    else passPartAreaReduction currentInputs in
  mkFlangeInputs
    (itemNo currentInputs) (partName currentInputs)
    (boltSize currentInputs) (boltCount currentInputs)
    (insideDia currentInputs) (g0 currentInputs) (g1 currentInputs)
    (cClearance currentInputs) (shellGapA currentInputs)
    (gasketSeatingWidth currentInputs) (hasInnerRing currentInputs)
    (hasOuterRing currentInputs) (innerRingWidthManual currentInputs)
    (outerRingWidthManual currentInputs) (useManualOverride currentInputs)
    (actualBCD currentInputs) (actualOD currentInputs)
    (manualSeatingID currentInputs) (manualSeatingOD currentInputs)
    (manualM currentInputs) (manualY currentInputs)
    (manualPassM currentInputs) (manualPassY currentInputs)
    (designTemp currentInputs) (tempUnit currentInputs)
    (designPressure currentInputs) (pressureUnit currentInputs)
    (shellMaterial currentInputs) (jointEfficiency currentInputs)
    (corrosionAllowance currentInputs) (boltMaterial currentInputs)
    (passPartitionLength currentInputs) (passPartitionWidth currentInputs)
    (gasketType currentInputs) (passGasketType currentInputs)
    (facingSketch currentInputs) (useHydraulicTensioning currentInputs)
    (usePcc1Check currentInputs) (sgT currentInputs) sgMinS' sgMinO'
    sgMax' sbMax' sbMin' (sfMax currentInputs) phiFMax'
    (phiGMax currentInputs) g' passPartAreaReduction'.

(** [togglePcc1Check]: the input handed to [onInputChange]. *)
Definition togglePcc1Check (inputs : FlangeInputs) : FlangeInputs :=
  let nextInputs :=
    mkFlangeInputs
      (itemNo inputs) (partName inputs) (boltSize inputs)
      (boltCount inputs) (insideDia inputs) (g0 inputs) (g1 inputs)
      (cClearance inputs) (shellGapA inputs) (gasketSeatingWidth inputs)
      (hasInnerRing inputs) (hasOuterRing inputs)
      (innerRingWidthManual inputs) (outerRingWidthManual inputs)
      (useManualOverride inputs) (actualBCD inputs) (actualOD inputs)
      (manualSeatingID inputs) (manualSeatingOD inputs) (manualM inputs)
      (manualY inputs) (manualPassM inputs) (manualPassY inputs)
      (designTemp inputs) (tempUnit inputs) (designPressure inputs)
      (pressureUnit inputs) (shellMaterial inputs)
      (jointEfficiency inputs) (corrosionAllowance inputs)
      (boltMaterial inputs) (passPartitionLength inputs)
      (passPartitionWidth inputs) (gasketType inputs)
      (passGasketType inputs) (facingSketch inputs)
      (useHydraulicTensioning inputs) (negb (usePcc1Check inputs))
      (sgT inputs) (sgMinS inputs) (sgMinO inputs) (sgMax inputs)
      (sbMax inputs) (sbMin inputs) (sfMax inputs) (phiFMax inputs)
      (phiGMax inputs) (g inputs) (passPartAreaReduction inputs) in
  if usePcc1Check nextInputs
  then updatePcc1Values (gasketType inputs) nextInputs
  else nextInputs.

End InputPanel.
(* ===================================================================== *)
(** ** Shell thickness: [calculateAutoG0] *)
(* ===================================================================== *)

(** The fields [calculateAutoG0] reads of its [Partial<FlangeInputs>]
    argument; [None] is an absent field. *)
Module Partial.
Record t : Type := mk {
  shellMaterial : option string;
  designTemp : option num;
  tempUnit : option string;
  designPressure : option num;
  pressureUnit : option string;
  insideDia : option num;
  corrosionAllowance : option num;
  jointEfficiency : option num }.
End Partial.

(** [a ?? b] on numbers. *)
Definition nullish (a : option num) (b : num) : num :=
  match a with Some v => v | None => b end.

(** [a || b] on strings: the empty string is falsy. *)
Definition strOr (a : option string) (b : string) : string :=
  match a with
  | Some (String c s) => String c s
  | _ => b
  end.

(** [xs.includes(name)] on an array of strings. *)
Definition Array_includes (xs : list string) (name : string) : bool :=
  existsb (String.eqb name) xs.

Section ShellThickness.

Variable ASME_SHELL_MATERIALS : list Material.t.
Variable BOLT_TEMP_STEPS : list num.

(** The shell material row: the row of the given id, of the first row's id
    where none is given, the first row where the id matches none.  [None]
    is the [TypeError] on an empty table. *)
Definition shellMatOf (currentInputs : Partial.t) : option Material.t :=
  shellMatId <-
    match Partial.shellMaterial currentInputs with
    | Some (String c s) => Some (String c s)
    | _ => m <- hd_error ASME_SHELL_MATERIALS ;; Some (Material.id m)
    end ;;
  orElse (find (fun m => String.eqb (Material.id m) shellMatId)
               ASME_SHELL_MATERIALS)
         (hd_error ASME_SHELL_MATERIALS).

Definition calculateAutoG0 (currentInputs : Partial.t) : option num :=
  shellMat <- shellMatOf currentInputs ;;
  let temp := nullish (Partial.designTemp currentInputs) (Fin 100) in
  let tempU := strOr (Partial.tempUnit currentInputs) "°C" in
  let press := nullish (Partial.designPressure currentInputs) (Fin 1) in
  let pressU := strOr (Partial.pressureUnit currentInputs) "MPa" in
  let id := nullish (Partial.insideDia currentInputs) (Fin 300) in
  let corr := nullish (Partial.corrosionAllowance currentInputs) (Fin 0) in
  let jointEff := nullish (Partial.jointEfficiency currentInputs) (Fin 1) in
  let shellStress :=
    interpolateStress BOLT_TEMP_STEPS (toCelsius temp tempU)
                      (Material.stresses shellMat) in
  let pMpa := toMpa press pressU in
  let denom := shellStress * jointEff - Fin 0.6 * pMpa in
  let autoG0 :=
    (pMpa * (id + Fin 2 * corr) / Fin 2)
    / (if denom >? Fin 0 then denom else Fin 1) + corr in
  Some (Math_ceil autoG0).

End ShellThickness.

(** A full [FlangeInputs] handed to [calculateAutoG0]: every field is
    present. *)
Definition partialOf (i : FlangeInputs) : Partial.t :=
  Partial.mk (Some (shellMaterial i)) (Some (designTemp i))
             (Some (tempUnit i)) (Some (designPressure i))
             (Some (pressureUnit i)) (Some (insideDia i))
             (Some (corrosionAllowance i)) (Some (jointEfficiency i)).

(* ===================================================================== *)
(** ** Application state and its handlers ([App.tsx]) *)
(* ===================================================================== *)

Module Saved.
Record t : Type := mk {
  id : string;
  originalInputs : FlangeInputs;
  itemNo : string;
  part : string;
  id_mm : num;
  g0 : num;
  g1 : num;
  bcd : num;
  flangeOd : num;
  boltSize : string;
  boltEa : num;
  boltMaterial : string;
  hasOuterRing : bool;
  hasInnerRing : bool;
  gasketRod : num;
  gasketOd : num;
  gasketId : num;
  gasketRid : num;
  gasketType : string }.
End Saved.

(** The four state variables of [App]. *)
Module App.
Record t : Type := mk {
  inputs : FlangeInputs;
  isFixedSizeSearch : bool;
  savedRecords : list Saved.t;
  editingRecordId : option string }.
End App.

Definition g0Triggers : list string :=
  ["designTemp"; "tempUnit"; "designPressure"; "pressureUnit";
   "shellMaterial"; "jointEfficiency"; "insideDia"; "corrosionAllowance"].

Definition designConditions : list string :=
  ["designTemp"; "tempUnit"; "designPressure"; "pressureUnit";
   "shellMaterial"; "boltMaterial"; "gasketType"; "passGasketType";
   "facingSketch"; "jointEfficiency"; "corrosionAllowance"].

Definition geometryTriggers : list string := ["boltSize"; "insideDia"].

(** [finalInputs.g0 = autoG0; finalInputs.g1 = ...] *)
Definition withG0G1 (i : FlangeInputs) (g0' g1' : num) : FlangeInputs :=
  mkFlangeInputs
    (itemNo i) (partName i) (boltSize i) (boltCount i) (insideDia i) g0'
    g1' (cClearance i) (shellGapA i) (gasketSeatingWidth i)
    (hasInnerRing i) (hasOuterRing i) (innerRingWidthManual i)
    (outerRingWidthManual i) (useManualOverride i) (actualBCD i)
    (actualOD i) (manualSeatingID i) (manualSeatingOD i) (manualM i)
    (manualY i) (manualPassM i) (manualPassY i) (designTemp i)
    (tempUnit i) (designPressure i) (pressureUnit i) (shellMaterial i)
    (jointEfficiency i) (corrosionAllowance i) (boltMaterial i)
    (passPartitionLength i) (passPartitionWidth i) (gasketType i)
    (passGasketType i) (facingSketch i) (useHydraulicTensioning i)
    (usePcc1Check i) (sgT i) (sgMinS i) (sgMinO i) (sgMax i) (sbMax i)
    (sbMin i) (sfMax i) (phiFMax i) (phiGMax i) (g i)
    (passPartAreaReduction i).

Section InputChange.

Variable ASME_SHELL_MATERIALS : list Material.t.
Variable BOLT_TEMP_STEPS : list num.

(** [handleInputChange]: the new state; [None] is a [TypeError] of
    [calculateAutoG0], the state is not updated then. *)
Definition handleInputChange (s : App.t) (updatedInputs : FlangeInputs)
           (changedFieldName : string) : option App.t :=
  finalInputs <-
    (if Array_includes g0Triggers changedFieldName then
       autoG0 <- calculateAutoG0 ASME_SHELL_MATERIALS BOLT_TEMP_STEPS
                                 (partialOf updatedInputs) ;;
       Some (withG0G1 updatedInputs autoG0
                      (Math_ceil (autoG0 * Fin 1.3 / Fin 3 + autoG0)))
     else Some updatedInputs) ;;
  let fixed :=
    if Array_includes designConditions changedFieldName then false
    else if Array_includes geometryTriggers changedFieldName then true
    else App.isFixedSizeSearch s in
  Some (App.mk finalInputs fixed (App.savedRecords s)
               (App.editingRecordId s)).

End InputChange.

(** [parseFloat(x.toFixed(d))]: [x] rounded to [d] decimals, a half away
    from zero; [toFixed] leaves a number of magnitude 1e21 or more, and
    what is not a finite number, as it is. *)
Definition toFixed_parsed (d : Z) (a : num) : num :=
  match a with
  | Fin q =>
      let magnitude := if Qltb q 0 then (- q)%Q else q in
      if Qle_bool (inject_Z (10 ^ 21)) magnitude then a
      else
        let n := inject_Z (Qfloor (magnitude * inject_Z (10 ^ d) + (1 # 2))) in
        Fin ((if Qltb q 0 then - n else n) / inject_Z (10 ^ d))
  | _ => a
  end.

Section SavedRecords.

(** The decimal rendering of a number in a template literal. *)
Variable Number_toString : num -> string.

(** The record [handleSaveToList] and [handleEditSave] build (both by the
    same expression) from the stored input and its results. *)
Definition recordOf (id : string) (inputs : FlangeInputs)
           (results : CalculationResults) : Saved.t :=
  {| Saved.id := id;
     Saved.originalInputs := inputs;
     Saved.itemNo := strOr (Some (itemNo inputs)) "-";
     Saved.part := strOr (Some (partName inputs)) "-";
     Saved.id_mm := insideDia inputs;
     Saved.g0 := g0 inputs;
     Saved.g1 := g1 inputs;
     Saved.bcd := Math_round (Res.finalBCD results);
     Saved.flangeOd := Math_round (Res.finalOD results);
     Saved.boltSize :=
       String.append (Number_toString (boltSize inputs))
                     (String (Ascii.ascii_of_nat 34) EmptyString);
     Saved.boltEa := boltCount inputs;
     Saved.boltMaterial := boltMaterial inputs;
     Saved.hasOuterRing := hasOuterRing inputs;
     Saved.hasInnerRing := hasInnerRing inputs;
     Saved.gasketRod := toFixed_parsed 1 (Res.gasketOD results);
     Saved.gasketOd := toFixed_parsed 1 (Res.seatingOD results);
     Saved.gasketId := toFixed_parsed 1 (Res.seatingID results);
     Saved.gasketRid := toFixed_parsed 1 (Res.gasketID results);
     Saved.gasketType := gasketType inputs |}.

(** [handleSaveToList]; [now] is [Date.now().toString()], [results] the
    results of the stored input. *)
Definition handleSaveToList (now : string) (results : CalculationResults)
           (s : App.t) : App.t :=
  App.mk (App.inputs s) (App.isFixedSizeSearch s)
         (App.savedRecords s ++ [recordOf now (App.inputs s) results])%list
         None.

(** [handleEditSave]: the new state and the dialog. *)
Definition handleEditSave (results : CalculationResults) (s : App.t)
  : App.t * string :=
  match App.editingRecordId s with
  | Some (String c id') =>
      let editingRecordId := String c id' in
      let updatedRecord := recordOf editingRecordId (App.inputs s) results in
      (App.mk (App.inputs s) (App.isFixedSizeSearch s)
              (map (fun rec =>
                      if String.eqb (Saved.id rec) editingRecordId
                      then updatedRecord else rec)
                   (App.savedRecords s))
              None,
       "Record Updated Successfully!")
  | _ =>
      (s, "Please select a record to edit from the summary list first.")
  end.

Definition removeRecord (id : string) (s : App.t) : App.t :=
  App.mk (App.inputs s) (App.isFixedSizeSearch s)
         (filter (fun r => negb (String.eqb (Saved.id r) id))
                 (App.savedRecords s))
         (match App.editingRecordId s with
          | Some e => if String.eqb e id then None else Some e
          | None => None
          end).

Definition editRecord (record : Saved.t) (s : App.t) : App.t :=
  App.mk (Saved.originalInputs record) (App.isFixedSizeSearch s)
         (App.savedRecords s) (Some (Saved.id record)).

End SavedRecords.

(** The editing id is [null] or the id of a record of the list. *)
Definition editingIsSaved (s : App.t) : Prop :=
  match App.editingRecordId s with
  | Some e => exists rec, In rec (App.savedRecords s) /\ Saved.id rec = e
  | None => True
  end.
(* ===================================================================== *)
(** ** Example data for the handlers *)
(* ===================================================================== *)

(** Minimum yields for [exampleMaterials], in MPa. *)
Definition exampleYield (m : Material.t) : option num :=
  if String.eqb (Material.id m) "SA-193 B7" then Some (Fin 725) else None.

Definition exampleShells : list Material.t :=
  [ Material.mk "SA-516 70"
      [Some (Fin 138); Some (Fin 138); Some (Fin 138); Some (Fin 136)] ].

(** Renders the sizes of [exampleBolts]. *)
Definition exampleToString (a : num) : string :=
  if a === Fin 0.625 then "0.625"
  else if a === Fin 0.75 then "0.75"
  else if a === Fin 1 then "1" else "NaN".

(** The state [App] starts in. *)
Definition exampleState : App.t := App.mk exampleInputs false [] None.

(** The thickness rule and the handlers over the example tables. *)
Abbreviation exampleAutoG0 := (calculateAutoG0 exampleShells exampleSteps).

Abbreviation exampleInputChange :=
  (handleInputChange exampleShells exampleSteps).

Abbreviation exampleSave := (handleSaveToList exampleToString).

Abbreviation exampleEditSave := (handleEditSave exampleToString).

(** The state after saving [exampleInputs] at clock reading [now], and
    after then opening that record for editing. *)
Definition savedOnce (now : string) (results : CalculationResults) : App.t :=
  exampleSave now results exampleState.

Definition editingFirst (now : string) (results : CalculationResults)
  : App.t :=
  editRecord (recordOf exampleToString now exampleInputs results)
             (savedOnce now results).

(* ===================================================================== *)
(** ** The seating suggestions of the input panel ([Calculator.tsx]) *)
(* ===================================================================== *)

(** [Math.abs]. *)
Definition Math_abs (a : num) : num :=
  match a with
  | Fin q => Fin (if Qltb q 0 then (- q)%Q else q)
  | PInf | NInf => PInf
  | NaN => NaN
  end.

(** [applyGasketBounds]: the input handed to [onInputChange]. *)
Definition applyGasketBounds (inputs : FlangeInputs) (id od : num)
  : FlangeInputs :=
  mkFlangeInputs
    (itemNo inputs) (partName inputs) (boltSize inputs) (boltCount inputs)
    (insideDia inputs) (g0 inputs) (g1 inputs) (cClearance inputs)
    (shellGapA inputs) (gasketSeatingWidth inputs) (hasInnerRing inputs)
    (hasOuterRing inputs) (innerRingWidthManual inputs)
    (outerRingWidthManual inputs) (useManualOverride inputs)
    (actualBCD inputs) (actualOD inputs) (toFixed_parsed 2 id)
    (toFixed_parsed 2 od) (manualM inputs) (manualY inputs)
    (manualPassM inputs) (manualPassY inputs) (designTemp inputs)
    (tempUnit inputs) (designPressure inputs) (pressureUnit inputs)
    (shellMaterial inputs) (jointEfficiency inputs)
    (corrosionAllowance inputs) (boltMaterial inputs)
    (passPartitionLength inputs) (passPartitionWidth inputs)
    (gasketType inputs) (passGasketType inputs) (facingSketch inputs)
    (useHydraulicTensioning inputs) (usePcc1Check inputs) (sgT inputs)
    (sgMinS inputs) (sgMinO inputs) (sgMax inputs) (sbMax inputs)
    (sbMin inputs) (sfMax inputs) (phiFMax inputs) (phiGMax inputs)
    (g inputs) (passPartAreaReduction inputs).

Section Suggestions.

Variable GASKET_RING_TABLE : list Ring.t.

(** [currentIR]; the panel reads [ringConfig.irMin] on every render, so an
    empty ring table is a [TypeError] ([None]) whether or not there is an
    inner ring. *)
Definition currentIROf (inputs : FlangeInputs) : option num :=
  ringConfig <- ringConfigOf GASKET_RING_TABLE (insideDia inputs) ;;
  let autoIR := Ring.irMin ringConfig in
  Some (if hasInnerRing inputs
        then innerRingWidthManual inputs || autoIR else Fin 0).

(** [s2OD], the seating outside diameter by the shell fit. *)
Definition s2ODOf (inputs : FlangeInputs) : option num :=
  currentIR <- currentIROf inputs ;;
  Some (insideDia inputs
        + (Fin 2 * match shellGapA inputs with Some a => a | None => Fin 3 end)
        + (Fin 2 * currentIR) + (Fin 2 * gasketSeatingWidth inputs)).

(** [(isSug1Active, isSug2Active)]: which suggestion the panel marks as
    the applied one. *)
Definition suggestionFlags (inputs : FlangeInputs)
           (results : CalculationResults) : option (bool * bool) :=
  s2OD <- s2ODOf inputs ;;
  let s1OD := Res.maxRaisedFace results in
  if manualSeatingOD inputs !== Fin 0 then
    Some (Math_abs (manualSeatingOD inputs - s1OD) <? Fin 0.1,
          Math_abs (manualSeatingOD inputs - s2OD) <? Fin 0.1)
  else if s1OD >=? s2OD then Some (true, false)
  else Some (false, true).

(** The second suggestion button: [applyGasketBounds(currentS2OD -
    (inputs.gasketSeatingWidth * 2), currentS2OD)]. *)
Definition applyShellSuggestion (inputs : FlangeInputs)
  : option FlangeInputs :=
  currentS2OD <- s2ODOf inputs ;;
  Some (applyGasketBounds inputs
          (currentS2OD - (gasketSeatingWidth inputs * Fin 2)) currentS2OD).

End Suggestions.


(* ===================================================================== *)
(** * Properties *)
(* ===================================================================== *)

(** ** Order facts on [num] *)

Lemma Qle_bool_false (x y : Q) : Qle_bool x y = false <-> (y < x)%Q.
Proof.
  split; intro H.
  - apply Qnot_le_lt. intro Hle. apply Qle_bool_iff in Hle. congruence.
  - destruct (Qle_bool x y) eqn:E; [|reflexivity].
    apply Qle_bool_iff in E. lra.
Qed.

Lemma Qltb_true (x y : Q) : Qltb x y = true <-> (x < y)%Q.
Proof.
  unfold Qltb. rewrite negb_true_iff. apply Qle_bool_false.
Qed.

Lemma Qltb_false (x y : Q) : Qltb x y = false <-> (y <= x)%Q.
Proof.
  unfold Qltb. rewrite negb_false_iff. apply Qle_bool_iff.
Qed.

Lemma Qzerob_true (x : Q) : Qzerob x = true <-> (x == 0)%Q.
Proof. apply Qeq_bool_iff. Qed.

Lemma Qzerob_false (x : Q) : Qzerob x = false <-> ~ (x == 0)%Q.
Proof.
  unfold Qzerob. split; intro H.
  - intro E. apply Qeq_bool_iff in E. congruence.
  - destruct (Qeq_bool x 0) eqn:E; [|reflexivity].
    apply Qeq_bool_iff in E. contradiction.
Qed.

(** Turns every boolean test on rationals in the context into the order
    fact it decides. *)
Ltac qprops :=
  repeat match goal with
  | H : Qle_bool _ _ = true |- _ => apply Qle_bool_iff in H
  | H : Qle_bool _ _ = false |- _ => apply Qle_bool_false in H
  | H : Qltb _ _ = true |- _ => apply Qltb_true in H
  | H : Qltb _ _ = false |- _ => apply Qltb_false in H
  | H : Qzerob _ = true |- _ => apply Qzerob_true in H
  | H : Qzerob _ = false |- _ => apply Qzerob_false in H
  | H : Qeq_bool _ _ = true |- _ => apply Qeq_bool_iff in H
  | H : Qeq_bool _ _ = false |- _ => apply Qeq_bool_neq in H
  end.

(** Case analysis on every rational test that occurs in the goal. *)
Ltac qsplit :=
  repeat match goal with
  | |- context [Qle_bool ?a ?b] => destruct (Qle_bool a b) eqn:?
  | |- context [Qltb ?a ?b] => destruct (Qltb a b) eqn:?
  | |- context [Qzerob ?a] => destruct (Qzerob a) eqn:?
  | |- context [Qeq_bool ?a ?b] => destruct (Qeq_bool a b) eqn:?
  end.

Ltac qcases := repeat (progress (qsplit; simpl)).

Ltac qdone :=
  qprops;
  try solve [ reflexivity | discriminate | contradiction | tauto
            | lra | exfalso; lra ].

Lemma le_refl (a : num) : a <> NaN -> (a <=? a) = true.
Proof.
  destruct a; simpl; intro H; try reflexivity; try congruence.
  apply Qle_bool_iff. lra.
Qed.

Lemma le_trans (a b c : num) :
  (a <=? b) = true -> (b <=? c) = true -> (a <=? c) = true.
Proof.
  destruct a, b, c; simpl; intros H1 H2; try reflexivity; try discriminate.
  qprops. apply Qle_bool_iff. lra.
Qed.

Lemma le_total (a b : num) :
  a <> NaN -> b <> NaN -> (a <=? b) = true \/ (b <=? a) = true.
Proof.
  destruct a, b; simpl; intros Ha Hb; try congruence; auto.
  destruct (Qle_bool q q0) eqn:E; [auto|].
  right. qprops. apply Qle_bool_iff. lra.
Qed.

Lemma le_not_NaN (a b : num) : (a <=? b) = true -> a <> NaN /\ b <> NaN.
Proof. destruct a, b; simpl; intro H; split; congruence. Qed.

Lemma lt_le (a b : num) : (a <? b) = true -> (a <=? b) = true.
Proof.
  destruct a, b; simpl; intro H; try reflexivity; try discriminate.
  qprops. apply Qle_bool_iff. lra.
Qed.

Lemma lt_not_ge (a b : num) : (a <? b) = true -> (b <=? a) = false.
Proof.
  destruct a, b; simpl; intro H; try reflexivity; try discriminate.
  qprops. apply Qle_bool_false. lra.
Qed.

Lemma le_lt_trans (a b c : num) :
  (a <=? b) = true -> (b <? c) = true -> (a <? c) = true.
Proof.
  destruct a, b, c; simpl; intros H1 H2; try reflexivity; try discriminate.
  qprops. apply Qltb_true. lra.
Qed.

Lemma Math_min_NaN (a b : num) :
  Math_min a b = NaN <-> a = NaN \/ b = NaN.
Proof.
  destruct a, b; simpl; qsplit; split; intro H;
    try discriminate; auto; destruct H; discriminate.
Qed.

Lemma Math_max_NaN (a b : num) :
  Math_max a b = NaN <-> a = NaN \/ b = NaN.
Proof.
  destruct a, b; simpl; qsplit; split; intro H;
    try discriminate; auto; destruct H; discriminate.
Qed.

(** [Math.min] is the greatest lower bound of its two arguments. *)
Lemma Math_min_glb (a b c : num) :
  a <> NaN -> b <> NaN ->
  (c <=? Math_min a b) = ((c <=? a) && (c <=? b)).
Proof.
  destruct a, b, c; simpl; intros Ha Hb; try congruence;
    qcases; try reflexivity; qdone.
Qed.

Lemma Math_min_le_iff (a b c : num) :
  a <> NaN -> b <> NaN ->
  (Math_min a b <=? c) = ((a <=? c) || (b <=? c))%bool.
Proof.
  destruct a, b, c; simpl; intros Ha Hb; try congruence;
    qcases; try reflexivity; qdone.
Qed.

Lemma Math_max_ge_l (a b : num) :
  a <> NaN -> b <> NaN -> (a <=? Math_max a b) = true.
Proof.
  destruct a, b; simpl; intros Ha Hb; try congruence;
    qcases; try reflexivity; qdone.
Qed.

Lemma or_not_NaN (a b : num) : b <> NaN -> (a || b) <> NaN.
Proof.
  unfold or. destruct a; simpl; try congruence.
  destruct (Qzerob q); simpl; congruence.
Qed.

Lemma or_truthy (a b : num) : truthy a = true -> (a || b) = a.
Proof. unfold or. intros ->. reflexivity. Qed.

Lemma or_falsy (a b : num) : truthy a = false -> (a || b) = b.
Proof. unfold or. intros ->. reflexivity. Qed.

Lemma Math_max_ge_r (a b : num) :
  a <> NaN -> b <> NaN -> (b <=? Math_max a b) = true.
Proof.
  destruct a, b; simpl; intros Ha Hb; try congruence;
    qcases; try reflexivity; qdone.
Qed.

Lemma truthy_not_NaN (a : num) : truthy a = true -> a <> NaN.
Proof. destruct a; simpl; congruence. Qed.

Lemma le_PInf (a : num) : a <> NaN -> (a <=? PInf) = true.
Proof. destruct a; simpl; congruence. Qed.

(** ** PCC-1 stress selection *)

(** C1 (as amended).  With the PCC-1 check enabled, both bolt-stress bounds
    nonzero and [sbMin <= sbMax], the selected stress never exceeds [sbMax];
    it reaches [sbMin] exactly when [Sb_calc] already does and the flange
    limit [sfMax] is unset or at least [sbMin].  The final three-way minimum
    takes step 2's value again, so step 3's raise to [sbMin] has no effect
    on the result. *)
Theorem sbSelFinal_bounds (inputs : FlangeInputs) (sbSelCalc : num) :
  usePcc1Check inputs = true ->
  truthy (sbMax inputs) = true ->
  truthy (sbMin inputs) = true ->
  (sbMin inputs <=? sbMax inputs) = true ->
  sbSelCalc <> NaN ->
  (sbSelFinalOf inputs sbSelCalc <=? sbMax inputs) = true /\
  ((sbMin inputs <=? sbSelFinalOf inputs sbSelCalc) = true <->
   (sbMin inputs <=? sbSelCalc) = true /\
   (truthy (sfMax inputs) = false \/ (sbMin inputs <=? sfMax inputs) = true)).
Proof.
  intros _ Hmax Hmin Hle Hcalc.
  unfold sbSelFinalOf, Math_min3, valC, valB, valA.
  rewrite (or_truthy _ PInf Hmax), (or_truthy _ (Fin 0) Hmin).
  pose proof (truthy_not_NaN _ Hmax) as HM.
  pose proof (truthy_not_NaN _ Hmin) as Hm.
  set (X := sfMax inputs || PInf).
  assert (HX : X <> NaN) by (apply or_not_NaN; discriminate).
  set (A := Math_min sbSelCalc (sbMax inputs)).
  assert (HA : A <> NaN) by (intro E; apply Math_min_NaN in E; tauto).
  set (B := Math_max A (sbMin inputs)).
  assert (HB : B <> NaN) by (intro E; apply Math_max_NaN in E; tauto).
  assert (HC : Math_min B X <> NaN)
    by (intro E; apply Math_min_NaN in E; tauto).
  assert (HAB : Math_min A B <> NaN)
    by (intro E; apply Math_min_NaN in E; tauto).
  split.
  - rewrite Math_min_le_iff by assumption.
    rewrite (Math_min_le_iff A B) by assumption.
    unfold A at 1. rewrite Math_min_le_iff by assumption.
    rewrite (le_refl _ HM). rewrite orb_true_r. reflexivity.
  - rewrite !Math_min_glb by assumption.
    unfold A at 1. rewrite Math_min_glb by assumption.
    rewrite Hle. unfold B. rewrite (Math_max_ge_r _ _ HA Hm).
    rewrite !andb_true_r. simpl.
    rewrite andb_true_iff.
    assert (HXiff : (sbMin inputs <=? X) = true <->
                    truthy (sfMax inputs) = false \/
                    (sbMin inputs <=? sfMax inputs) = true).
    { unfold X, or. destruct (truthy (sfMax inputs)) eqn:Et.
      - split; [auto|]. intros [H|H]; [discriminate|exact H].
      - rewrite (le_PInf _ Hm). tauto. }
    rewrite HXiff. tauto.
Qed.

(** The bounds of [pccBoundedInputs] are nonzero and ordered, and
    [Sb_calc = 300] lies between them: so does the selected stress. *)
Lemma sbSelFinal_bounds_witness :
  (usePcc1Check pccBoundedInputs = true /\
   truthy (sbMax pccBoundedInputs) = true /\
   truthy (sbMin pccBoundedInputs) = true /\
   (sbMin pccBoundedInputs <=? sbMax pccBoundedInputs) = true /\
   Fin 300 <> NaN) /\
  (sbSelFinalOf pccBoundedInputs (Fin 300) <=? sbMax pccBoundedInputs) = true /\
  (sbMin pccBoundedInputs <=? sbSelFinalOf pccBoundedInputs (Fin 300)) = true.
Proof.
  assert (Hnan : Fin 300 <> NaN) by discriminate.
  split; [repeat split; exact Hnan|].
  destruct (sbSelFinal_bounds pccBoundedInputs (Fin 300)
              eq_refl eq_refl eq_refl eq_refl Hnan) as [Hup Hlow].
  split; [exact Hup|].
  apply Hlow. split; [reflexivity|left; reflexivity].
Defined.

(** C1 as stated fails: with bounds 200 and 500 and [Sb_calc = 100] the
    selected stress is 100, below [sbMin]. *)
Lemma sbSelFinal_below_sbMin :
  usePcc1Check pccBoundedInputs = true /\
  truthy (sbMin pccBoundedInputs) = true /\
  truthy (sbMax pccBoundedInputs) = true /\
  (sbMin pccBoundedInputs <=? sbMax pccBoundedInputs) = true /\
  valA pccBoundedInputs (Fin 100) = Fin 100 /\
  valB pccBoundedInputs (Fin 100) = Fin 200 /\
  valC pccBoundedInputs (Fin 100) = Fin 200 /\
  sbSelFinalOf pccBoundedInputs (Fin 100) = Fin 100 /\
  (sbMin pccBoundedInputs <=? sbSelFinalOf pccBoundedInputs (Fin 100)) = false.
Proof. repeat split. Qed.

(** ** Stress interpolation *)

Lemma ascending_mono (steps : list num) :
  ascending steps ->
  forall d j, (j + d < List.length steps)%nat ->
              (idx steps j <=? idx steps (j + d)) = true.
Proof.
  intros [Hfin Hasc] d. induction d as [|d IH]; intros j Hlt.
  - rewrite Nat.add_0_r. apply le_refl.
    specialize (Hfin j ltac:(lia)).
    destruct (idx steps j); simpl in Hfin; try contradiction. discriminate.
  - apply le_trans with (idx steps (j + d)).
    + apply IH. lia.
    + apply lt_le. replace (j + S d)%nat with (j + d + 1)%nat by lia.
      apply Hasc. lia.
Qed.

Lemma lt_le_trans (a b c : num) :
  (a <? b) = true -> (b <=? c) = true -> (a <? c) = true.
Proof.
  destruct a, b, c; simpl; intros H1 H2; try reflexivity; try discriminate.
  qprops. apply Qltb_true. lra.
Qed.

Lemma idx_last_eq (xs : list num) :
  idx_last xs = idx xs (List.length xs - 1).
Proof.
  unfold idx_last, idx. induction xs as [|x xs IH]; [reflexivity|].
  destruct xs as [|y xs]; [reflexivity|].
  change (last (x :: y :: xs) NaN) with (last (y :: xs) NaN).
  rewrite IH. simpl. rewrite Nat.sub_0_r. reflexivity.
Qed.

(** The loop returns the interpolation on the first bracket it meets. *)
Lemma interpolateLoop_first_bracket (steps : list num) (t : num)
      (clean : list num) :
  forall fuel i k,
    (i <= k)%nat -> (k < i + fuel)%nat ->
    (forall j, (i <= j < k)%nat ->
               ((t >=? idx steps j) && (t <=? idx steps (j + 1))) = false) ->
    ((t >=? idx steps k) && (t <=? idx steps (k + 1))) = true ->
    interpolateLoop steps t clean fuel i
    = (let s1 := idx clean k in
       let s2 := idx clean (k + 1) || s1 in
       s1 + ((s2 - s1) * (t - idx steps k)) / (idx steps (k + 1) - idx steps k)).
Proof.
  induction fuel as [|fuel IH]; intros i k Hik Hk Hskip Hhit; [lia|].
  simpl. destruct (Nat.eq_dec i k) as [->|Hne].
  - rewrite Hhit. reflexivity.
  - rewrite (Hskip i) by lia.
    apply IH; try lia; [|exact Hhit].
    intros j Hj. apply Hskip. lia.
Qed.

Lemma cleanCurveOf_idx (curve : list (option num)) (i : nat) :
  idx (cleanCurveOf curve) i
  = match nth_error curve i with
    | Some (Some v) => v || Fin 0
    | Some None => Fin 0
    | None => NaN
    end.
Proof.
  unfold idx, cleanCurveOf. revert i.
  induction curve as [|s curve IH]; intros [|i]; simpl; try reflexivity.
  apply IH.
Qed.

(** Over a flat segment the interpolation formula gives the left value. *)
Lemma segment_flat (s1 t1 t2 t : num) :
  finite s1 -> finite t1 -> finite t2 -> (t1 <? t2) = true ->
  (t1 <? t) = true -> (t <=? t2) = true ->
  s1 + ((s1 - s1) * (t - t1)) / (t2 - t1) =n= s1.
Proof.
  destruct s1 as [a| | |], t1 as [c| | |], t2 as [d| | |];
    simpl; try contradiction; intros _ _ _ Hlt Hlo Hhi.
  destruct t as [u| | |]; simpl in Hlo, Hhi; try discriminate.
  qprops. simpl.
  destruct (Qzerob (d + - c)) eqn:Ez; qprops; [exfalso; lra|].
  simpl. field. lra.
Qed.

(** C4 (as amended).  Over ascending steps, [interpolateStress] returns the
    first cleaned value at or below the lowest step, the last cleaned value
    at or above the highest step, and in between, on the segment with
    [t1 < t <= t2], the value [s1 + (s2 - s1) * (t - t1) / (t2 - t1)], where
    [s1] is the cleaned value at [t1] and [s2] is the cleaned value at [t2]
    unless that is zero, in which case [s2 = s1] (the segment is flat).
    Cleaning maps [null], zero and NaN entries to zero.  On a segment whose
    cleaned value at [t2] is zero the result is the value at [t1] over the
    whole segment, [t2] included. *)
Theorem interpolateStress_segments (steps : list num) (t : num)
        (stressCurve : list (option num)) :
  ascending steps ->
  let clean := cleanCurveOf stressCurve in
  (forall i, idx clean i
             = match nth_error stressCurve i with
               | Some (Some v) => v || Fin 0
               | Some None => Fin 0
               | None => NaN
               end) /\
  ((t <=? idx steps 0) = true ->
   interpolateStress steps t stressCurve = idx clean 0) /\
  ((t <=? idx steps 0) = false -> (t >=? idx_last steps) = true ->
   interpolateStress steps t stressCurve = idx_last clean) /\
  (forall i,
     (i + 1 < List.length steps)%nat ->
     (idx steps i <? t) = true -> (t <=? idx steps (i + 1)) = true ->
     (t <? idx_last steps) = true ->
     interpolateStress steps t stressCurve
     = (let s1 := idx clean i in
        let s2 := idx clean (i + 1) || s1 in
        s1 + ((s2 - s1) * (t - idx steps i))
             / (idx steps (i + 1) - idx steps i))) /\
  (forall i,
     (i + 1 < List.length steps)%nat ->
     (idx steps i <? t) = true -> (t <=? idx steps (i + 1)) = true ->
     (t <? idx_last steps) = true ->
     truthy (idx clean (i + 1)) = false -> finite (idx clean i) ->
     interpolateStress steps t stressCurve =n= idx clean i).
Proof.
  intros Hasc clean.
  assert (Hseg : forall i,
     (i + 1 < List.length steps)%nat ->
     (idx steps i <? t) = true -> (t <=? idx steps (i + 1)) = true ->
     (t <? idx_last steps) = true ->
     interpolateStress steps t stressCurve
     = (let s1 := idx clean i in
        let s2 := idx clean (i + 1) || s1 in
        s1 + ((s2 - s1) * (t - idx steps i))
             / (idx steps (i + 1) - idx steps i))).
  { intros i Hi Hlo Hhi Hlast.
    unfold interpolateStress. fold clean.
    assert (H0 : (t <=? idx steps 0) = false).
    { apply lt_not_ge. apply le_lt_trans with (idx steps i); [|exact Hlo].
      apply (ascending_mono steps Hasc i 0). lia. }
    rewrite H0. unfold ge. rewrite (lt_not_ge _ _ Hlast).
    apply interpolateLoop_first_bracket; try lia.
    - intros j Hj. apply andb_false_iff. right.
      apply lt_not_ge. apply le_lt_trans with (idx steps i); [|exact Hlo].
      replace i with ((j + 1) + (i - (j + 1)))%nat at 1 by lia.
      apply (ascending_mono steps Hasc). lia.
    - unfold ge. rewrite (lt_le _ _ Hlo), Hhi. reflexivity. }
  split; [apply cleanCurveOf_idx|].
  split; [intros H; unfold interpolateStress; rewrite H; reflexivity|].
  split; [intros H0 H1; unfold interpolateStress; rewrite H0, H1; reflexivity|].
  split; [exact Hseg|].
  intros i Hi Hlo Hhi Hlast Hzero Fi.
  rewrite (Hseg i Hi Hlo Hhi Hlast). cbv zeta.
  unfold or. rewrite Hzero.
  destruct Hasc as [Hfin Hadj].
  apply segment_flat; try assumption.
  - apply Hfin. lia.
  - apply Hfin. lia.
  - apply Hadj. exact Hi.
Qed.

Lemma exampleSteps_ascending : ascending exampleSteps.
Proof.
  split; intros i Hi; simpl in Hi;
    do 4 (destruct i as [|i]; [try exact I; try reflexivity; try lia|]);
    try lia.
Qed.

(** The example curve on the example steps at 250 degrees, between the
    steps 200 and 300: the entry at 300 is [null], the result is the value
    at 200. *)
Lemma interpolateStress_segments_witness :
  ascending exampleSteps /\
  interpolateStress exampleSteps (Fin 250) exampleCurveB
  = Fin 48 + ((Fin 48 - Fin 48) * (Fin 250 - Fin 200)) / (Fin 300 - Fin 200) /\
  interpolateStress exampleSteps (Fin 250) exampleCurveB =n= Fin 48.
Proof.
  split; [exact exampleSteps_ascending|].
  pose proof (interpolateStress_segments exampleSteps (Fin 250) exampleCurveB
                exampleSteps_ascending) as H.
  cbv zeta in H. destruct H as (_ & _ & _ & Hseg & Hflat).
  split.
  - apply (Hseg 2%nat); [simpl; lia | reflexivity | reflexivity | reflexivity].
  - apply (Hflat 2%nat);
      [simpl; lia | reflexivity | reflexivity | reflexivity | reflexivity
      | exact I].
Defined.

(** C4 as stated fails: where the next entry of the curve is [null] the
    code holds the previous value (48 at 250 degrees), the reference
    definition interpolates towards zero (24). *)
Lemma interpolateStress_differs_from_spec :
  ascending exampleSteps /\
  interpolateStress exampleSteps (Fin 250) exampleCurveB =n= Fin 48 /\
  interpolate_spec exampleSteps (Fin 250) exampleCurveB =n= Fin 24 /\
  ~ (interpolateStress exampleSteps (Fin 250) exampleCurveB
     =n= interpolate_spec exampleSteps (Fin 250) exampleCurveB).
Proof.
  split; [exact exampleSteps_ascending|].
  repeat split; try reflexivity.
  vm_compute. discriminate.
Qed.

(** ** [calculateFullResults] *)

Lemma bind_Some {A B : Type} (c : option A) (k : A -> option B) (b : B) :
  bind c k = Some b -> exists a, c = Some a /\ k a = Some b.
Proof. destruct c as [a|]; simpl; [eauto|discriminate]. Qed.

(** Opens a successful run of [calculateFullResults]: one equation for each
    value read from a table, and the result record. *)
Ltac calc_inv H :=
  unfold calculateFullResults in H;
  repeat (let x := fresh "x" in
          let E := fresh "E" in
          apply bind_Some in H; destruct H as (x & E & H);
          cbv beta zeta in H);
  injection H as H; subst.

Lemma seq_refl (a : num) : a <> NaN -> (a === a) = true.
Proof.
  destruct a; simpl; intro H; try reflexivity; try congruence.
  apply Qeq_bool_iff. reflexivity.
Qed.

(** A maximum that is a number is one of its arguments. *)
Lemma Math_max_is_arg (a b : num) :
  Math_max a b <> NaN -> Math_max a b = a \/ Math_max a b = b.
Proof.
  destruct a, b; simpl; intro H; try congruence; auto;
    destruct (Qle_bool q q0); auto.
Qed.

Lemma Math_max3_is_arg (a b c : num) :
  Math_max3 a b c <> NaN ->
  (Math_max3 a b c === a) = true \/ (Math_max3 a b c === b) = true \/
  (Math_max3 a b c === c) = true.
Proof.
  intro H. unfold Math_max3 in *.
  assert (Hab : Math_max a b <> NaN).
  { intro E. apply H. apply Math_max_NaN. auto. }
  destruct (Math_max_is_arg _ _ H) as [E|E].
  - destruct (Math_max_is_arg _ _ Hab) as [E'|E'].
    + left. rewrite E, E'. apply seq_refl. congruence.
    + right. left. rewrite E, E'. apply seq_refl. congruence.
  - right. right. rewrite E. apply seq_refl. congruence.
Qed.

Lemma last_error_app {A : Type} (xs : list A) :
  xs <> [] ->
  exists front x, xs = (front ++ [x])%list /\ last_error xs = Some x.
Proof.
  intro H. destruct (exists_last H) as (front & x & ->).
  exists front, x. split; [reflexivity|].
  unfold last_error. rewrite rev_app_distr. reflexivity.
Qed.

Lemma find_none_all {A : Type} (f : A -> bool) (xs : list A) :
  (forall x, In x xs -> f x = false) -> find f xs = None.
Proof.
  induction xs as [|x xs IH]; intro H; [reflexivity|].
  simpl. rewrite (H x (or_introl eq_refl)). apply IH.
  intros y Hy. apply H. right. exact Hy.
Qed.

Lemma orElse_find_In {A : Type} (f : A -> bool) (xs : list A) (x : A) :
  orElse (find f xs) (hd_error xs) = Some x -> In x xs.
Proof.
  destruct (find f xs) as [y|] eqn:E; simpl; intro H.
  - injection H as <-. apply find_some in E. tauto.
  - destruct xs; simpl in H; [discriminate|]. injection H as <-. left.
    reflexivity.
Qed.

Section CalculateFacts.

Variable Math_sqrt : num -> num.
Variable TEMA_BOLT_DATA : list Bolt.t.
Variable HYDRAULIC_TENSIONING_DATA : list Tension.t.
Variable GASKET_RING_TABLE : list Ring.t.
Variable GASKET_TYPES : list Gasket.t.
Variable ASME_BOLT_MATERIALS : list Material.t.
Variable BOLT_TEMP_STEPS : list num.
Variable WHC_MAX_PITCH_TABLE : list (num * num).

Local Abbreviation calculate :=
  (calculateFullResults Math_sqrt TEMA_BOLT_DATA HYDRAULIC_TENSIONING_DATA
     GASKET_RING_TABLE GASKET_TYPES ASME_BOLT_MATERIALS BOLT_TEMP_STEPS
     WHC_MAX_PITCH_TABLE).

(** The fields of a result, each in terms of the inputs and of the other
    fields. *)
Lemma calculate_geometry (i : FlangeInputs) (r : CalculationResults) :
  calculate i = Some r ->
  Res.seatingOD r
  = (if manualSeatingOD i !== Fin 0 then manualSeatingOD i
     else autoSeatingODOf i r) /\
  Res.seatingID r
  = (if manualSeatingID i !== Fin 0 then manualSeatingID i
     else autoSeatingIDOf i r) /\
  Res.gasketOD r
  = Res.seatingOD r
    + (if hasOuterRing i then Fin 2 * Res.outerRingWidth r else Fin 0) /\
  Res.bcdMethod3 r
  = Res.gasketOD r + (Fin 2 * Fin 1.5) + (Fin 2 * Res.effectiveC r)
    + Res.boltHoleSize r /\
  Res.bcdTema r
  = Math_max3 (Res.bcdMethod1 r) (Res.bcdMethod2 r) (Res.bcdMethod3 r) /\
  Res.selectedBcdSource r
  = (if Res.bcdTema r === Res.bcdMethod1 r then 1%nat
     else if Res.bcdTema r === Res.bcdMethod2 r then 2%nat else 3%nat) /\
  Res.finalBCD r
  = (if actualBCD i !== Fin 0 then actualBCD i else Res.bcdTema r) /\
  Res.odTema r = Math_ceil (Res.finalBCD r + (Fin 2 * Res.edgeDistance r)) /\
  Res.finalOD r
  = (if actualOD i !== Fin 0 then actualOD i else Res.odTema r).
Proof.
  intro H. calc_inv H. repeat split.
Qed.

Lemma calculate_boltData (i : FlangeInputs) (r : CalculationResults) :
  calculate i = Some r ->
  exists boltData,
    orElse (find (fun b => Bolt.size b === boltSize i) TEMA_BOLT_DATA)
           (hd_error TEMA_BOLT_DATA) = Some boltData /\
    Res.boltHoleSize r = Math_ceil (Bolt.holeSize boltData) /\
    Res.singleBoltArea r = Bolt.tensileArea boltData /\
    Res.totalBoltArea r = Bolt.tensileArea boltData * boltCount i.
Proof.
  intro H. calc_inv H.
  match goal with
  | E : orElse (find _ TEMA_BOLT_DATA) _ = Some ?b |- _ =>
      exists b; split; [exact E|repeat split]
  end.
Qed.

(** The ring widths of a result. *)
Lemma calculate_rings (i : FlangeInputs) (r : CalculationResults) :
  calculate i = Some r ->
  (if hasInnerRing i then
     if truthy (innerRingWidthManual i) then Some (innerRingWidthManual i)
     else option_map Ring.irMin (ringConfigOf GASKET_RING_TABLE (insideDia i))
   else Some (Fin 0)) = Some (Res.innerRingWidth r) /\
  (if hasOuterRing i then
     if truthy (outerRingWidthManual i) then Some (outerRingWidthManual i)
     else option_map Ring.orMin (ringConfigOf GASKET_RING_TABLE (insideDia i))
   else Some (Fin 0)) = Some (Res.outerRingWidth r).
Proof.
  intro H. calc_inv H. cbn [Res.innerRingWidth Res.outerRingWidth].
  split.
  - match goal with
    | E : (if hasInnerRing i then _ else _) = Some ?w |- _ = Some ?w =>
        rewrite <- E
    end.
    destruct (hasInnerRing i), (truthy (innerRingWidthManual i));
      reflexivity.
  - match goal with
    | E : (if hasOuterRing i then _ else _) = Some ?w |- _ = Some ?w =>
        rewrite <- E
    end.
    destruct (hasOuterRing i), (truthy (outerRingWidthManual i));
      reflexivity.
Qed.

(** The two candidates that do not depend on the gasket, and the
    clearances. *)
Lemma calculate_candidates (i : FlangeInputs) (r : CalculationResults) :
  calculate i = Some r ->
  exists boltData,
    orElse (find (fun b => Bolt.size b === boltSize i) TEMA_BOLT_DATA)
           (hd_error TEMA_BOLT_DATA) = Some boltData /\
    Res.radialDistance r = Bolt.R boltData * Fin 25.4 /\
    Res.boltSpacingMin r
    = match useHydraulicTensioning i,
            find (fun t => Tension.size t === boltSize i)
                 HYDRAULIC_TENSIONING_DATA with
      | true, Some tensionData =>
          Math_max (Bolt.B_min boltData) (Tension.B_ten tensionData)
      | _, _ => Bolt.B_min boltData
      end * Fin 25.4 /\
    Res.bcdMethod1 r
    = Math_ceil ((Res.boltSpacingMin r * boltCount i) / Math_PI) /\
    Res.bcdMethod2 r
    = Math_ceil (insideDia i + (Fin 2 * g1 i)
                 + (Fin 2 * Res.radialDistance r)) /\
    Res.effectiveC r = (cClearance i || Fin 2.5) /\
    Res.shellGapA r
    = match shellGapA i with Some a => a | None => Fin 3 end.
Proof.
  intro H. calc_inv H.
  match goal with
  | E : orElse (find _ TEMA_BOLT_DATA) _ = Some ?b |- _ =>
      exists b; split; [exact E|repeat split]
  end.
Qed.

(** C5.  The bolt-circle diameter is computed in two passes.  Method 1 is
    the rounded-up circle of the minimum pitch, Method 2 the rounded-up
    [insideDia + 2 * g1 + 2 * R], both from the bolt row of the input's
    size (the first row where none matches); the gasket seating diameters
    are derived from the provisional B.C.D [max(bcdMethod1, bcdMethod2)]
    (unless given manually); Method 3 is
    [gasketOD + 2 * 1.5 + 2 * clearance + rounded-up hole]; the governing
    B.C.D is the maximum of the three candidates, the reported source is
    the first of 1, 2, 3 whose candidate equals it, and the final B.C.D is
    the manual value when that is nonzero, else the governing one. *)
Theorem calculate_two_pass_bcd (i : FlangeInputs) (r : CalculationResults) :
  calculate i = Some r ->
  exists boltData,
    orElse (find (fun b => Bolt.size b === boltSize i) TEMA_BOLT_DATA)
           (hd_error TEMA_BOLT_DATA) = Some boltData /\
    Res.boltHoleSize r = Math_ceil (Bolt.holeSize boltData) /\
    Res.radialDistance r = Bolt.R boltData * Fin 25.4 /\
    Res.boltSpacingMin r
    = match useHydraulicTensioning i,
            find (fun t => Tension.size t === boltSize i)
                 HYDRAULIC_TENSIONING_DATA with
      | true, Some tensionData =>
          Math_max (Bolt.B_min boltData) (Tension.B_ten tensionData)
      | _, _ => Bolt.B_min boltData
      end * Fin 25.4 /\
    Res.bcdMethod1 r
    = Math_ceil ((Res.boltSpacingMin r * boltCount i) / Math_PI) /\
    Res.bcdMethod2 r
    = Math_ceil (insideDia i + (Fin 2 * g1 i)
                 + (Fin 2 * Res.radialDistance r)) /\
    Res.effectiveC r = (cClearance i || Fin 2.5) /\
    Res.shellGapA r
    = match shellGapA i with Some a => a | None => Fin 3 end /\
    (if hasInnerRing i then
       if truthy (innerRingWidthManual i) then Some (innerRingWidthManual i)
       else option_map Ring.irMin
                       (ringConfigOf GASKET_RING_TABLE (insideDia i))
     else Some (Fin 0)) = Some (Res.innerRingWidth r) /\
    (if hasOuterRing i then
       if truthy (outerRingWidthManual i) then Some (outerRingWidthManual i)
       else option_map Ring.orMin
                       (ringConfigOf GASKET_RING_TABLE (insideDia i))
     else Some (Fin 0)) = Some (Res.outerRingWidth r) /\
    Res.seatingOD r
    = (if manualSeatingOD i !== Fin 0 then manualSeatingOD i
       else autoSeatingODOf i r) /\
    Res.seatingID r
    = (if manualSeatingID i !== Fin 0 then manualSeatingID i
       else autoSeatingIDOf i r) /\
    Res.gasketOD r
    = Res.seatingOD r
      + (if hasOuterRing i then Fin 2 * Res.outerRingWidth r else Fin 0) /\
    Res.bcdMethod3 r
    = Res.gasketOD r + (Fin 2 * Fin 1.5) + (Fin 2 * Res.effectiveC r)
      + Res.boltHoleSize r /\
    Res.bcdTema r
    = Math_max3 (Res.bcdMethod1 r) (Res.bcdMethod2 r) (Res.bcdMethod3 r) /\
    match Res.selectedBcdSource r with
    | 1%nat => (Res.bcdTema r === Res.bcdMethod1 r) = true
    | 2%nat => (Res.bcdTema r === Res.bcdMethod1 r) = false /\
               (Res.bcdTema r === Res.bcdMethod2 r) = true
    | 3%nat => (Res.bcdTema r === Res.bcdMethod1 r) = false /\
               (Res.bcdTema r === Res.bcdMethod2 r) = false /\
               (Res.bcdTema r <> NaN ->
                (Res.bcdTema r === Res.bcdMethod3 r) = true)
    | _ => False
    end /\
    Res.finalBCD r
    = (if actualBCD i !== Fin 0 then actualBCD i else Res.bcdTema r).
Proof.
  intro H.
  destruct (calculate_geometry _ _ H)
    as (Hod & Hid & Hgod & Hm3 & Htema & Hsrc & Hbcd & _ & _).
  destruct (calculate_boltData _ _ H) as (boltData & Hrow & Hhole & _).
  destruct (calculate_candidates _ _ H)
    as (boltData' & Hrow' & HR & Hs & Hm1 & Hm2 & Hc & Ha).
  rewrite Hrow in Hrow'. injection Hrow' as <-.
  destruct (calculate_rings _ _ H) as (Hir & Hor).
  exists boltData.
  repeat (split; [assumption|]).
  split; [|assumption].
  rewrite Hsrc.
  destruct (Res.bcdTema r === Res.bcdMethod1 r) eqn:Eq1; [reflexivity|].
  destruct (Res.bcdTema r === Res.bcdMethod2 r) eqn:Eq2;
    [split; reflexivity|].
  split; [reflexivity|]. split; [reflexivity|].
  intro Hn. rewrite Htema in Hn.
  destruct (Math_max3_is_arg _ _ _ Hn) as [Ha'|[Ha'|Ha']];
    rewrite <- Htema in Ha'; congruence.
Qed.

Lemma calculate_factors (i : FlangeInputs) (r : CalculationResults) :
  calculate i = Some r ->
  (if manualM i !== Fin 0 then Some (manualM i)
   else option_map Gasket.m (gTypeOf GASKET_TYPES i)) = Some (Res.gasketM r) /\
  (if manualY i !== Fin 0 then Some (manualY i)
   else option_map Gasket.y (gTypeOf GASKET_TYPES i)) = Some (Res.gasketY r) /\
  (if manualPassM i !== Fin 0 then Some (manualPassM i)
   else option_map Gasket.m (passGTypeOf GASKET_TYPES i))
  = Some (Res.passM r) /\
  (if manualPassY i !== Fin 0 then Some (manualPassY i)
   else option_map Gasket.y (passGTypeOf GASKET_TYPES i))
  = Some (Res.passY r).
Proof.
  intro H. calc_inv H.
  cbn [Res.gasketM Res.gasketY Res.passM Res.passY].
  unfold passGTypeOf, gTypeOf.
  repeat split;
    match goal with
    | E : ?c = Some ?w |- _ = Some ?w => rewrite <- E
    end;
    match goal with
    | |- context [if ?b then _ else _] => destruct b; try reflexivity
    end;
    match goal with
    | |- context [option_map _ ?o] => destruct o; reflexivity
    end.
Qed.

Lemma calculate_loads (i : FlangeInputs) (r : CalculationResults) :
  calculate i = Some r ->
  Res.requiredBoltArea r
  = Math_max (Res.wm1 r / Res.designAllowableStress r)
             (Res.wm2 r / Res.ambientAllowableStress r) /\
  Res.spacingOk r
  = ((Res.geometricPitch r >=? Res.boltSpacingMin r)
     && (Res.geometricPitch r <=? Res.maxBoltSpacing r)) /\
  Res.totalBoltLoadDesign r
  = Res.totalBoltArea r * Res.designAllowableStress r /\
  exists mat,
    orElse (find (fun m => String.eqb (Material.id m) (boltMaterial i))
                 ASME_BOLT_MATERIALS)
           (hd_error ASME_BOLT_MATERIALS) = Some mat /\
    Res.designAllowableStress r
    = interpolateStress BOLT_TEMP_STEPS
        (toCelsius (designTemp i) (tempUnit i)) (Material.stresses mat) /\
    Res.ambientAllowableStress r = ambientOf (Material.stresses mat).
Proof.
  intro H. calc_inv H.
  repeat (split; [reflexivity|]).
  match goal with
  | E : orElse (find _ ASME_BOLT_MATERIALS) _ = Some ?m |- _ =>
      exists m; split; [exact E|split; reflexivity]
  end.
Qed.

(** *** Zero allowable stress *)

Lemma div_positive_by_zero (a b : num) :
  finite a -> (a >? Fin 0) = true -> (b === Fin 0) = true -> a / b = PInf.
Proof.
  unfold gt. destruct a as [x| | |], b as [y| | |]; simpl;
    try contradiction; try discriminate.
  intros _ Hpos Hzero.
  assert (Ey : Qzerob y = true) by exact Hzero. rewrite Ey.
  destruct (Qzerob x) eqn:Ex; [qprops; exfalso; lra|].
  unfold inf_of_sign. rewrite Hpos. reflexivity.
Qed.

Lemma Math_max_PInf_l (b : num) :
  Math_max PInf b = PInf \/ Math_max PInf b = NaN.
Proof. destruct b; simpl; auto. Qed.

(** The two area/stress ratios of [calculateFullResults] carry no zero
    test: with a positive operating load and a zero design allowable
    stress the required area is [Infinity] (NaN if the seating ratio is
    NaN), not zero. *)
Lemma zero_design_stress_unguarded (i : FlangeInputs) (r : CalculationResults) :
  calculate i = Some r ->
  finite (Res.wm1 r) -> (Res.wm1 r >? Fin 0) = true ->
  (Res.designAllowableStress r === Fin 0) = true ->
  Res.wm1 r / Res.designAllowableStress r = PInf /\
  (Res.requiredBoltArea r = PInf \/ Res.requiredBoltArea r = NaN).
Proof.
  intros H Hfin Hpos Hzero.
  destruct (calculate_loads _ _ H) as (Hreq & _).
  pose proof (div_positive_by_zero _ _ Hfin Hpos Hzero) as Hdiv.
  split; [exact Hdiv|].
  rewrite Hreq, Hdiv. apply Math_max_PInf_l.
Qed.

(** *** Totality on non-empty tables *)

Lemma bind_exists {A B : Type} (c : option A) (k : A -> option B) :
  (exists a, c = Some a) -> (forall a, exists b, k a = Some b) ->
  exists b, bind c k = Some b.
Proof. intros [a ->] Hk. simpl. apply Hk. Qed.

Lemma orElse_hd_Some {A : Type} (o : option A) (xs : list A) :
  xs <> [] -> exists x, orElse o (hd_error xs) = Some x.
Proof.
  intro H. destruct o as [a|]; simpl; [eauto|].
  destruct xs as [|x xs]; [contradiction|]. simpl. eauto.
Qed.

Lemma ringConfigOf_Some (insideDia : num) :
  GASKET_RING_TABLE <> [] ->
  exists row, ringConfigOf GASKET_RING_TABLE insideDia = Some row.
Proof.
  intro H. unfold ringConfigOf.
  destruct (find _ GASKET_RING_TABLE) as [row|]; simpl; [eauto|].
  destruct (last_error_app _ H) as (front & x & _ & ->). eauto.
Qed.

(** On non-empty tables [calculateFullResults] returns a result: no
    property is read from [undefined]. *)
Lemma calculate_total (i : FlangeInputs) :
  TEMA_BOLT_DATA <> [] -> GASKET_RING_TABLE <> [] ->
  GASKET_TYPES <> [] -> ASME_BOLT_MATERIALS <> [] ->
  exists r, calculate i = Some r.
Proof.
  intros Hb Hr Hg Hm. unfold calculateFullResults.
  destruct (ringConfigOf_Some (insideDia i) Hr) as [row Erow].
  rewrite Erow.
  apply bind_exists.
  { destruct (hasInnerRing i), (truthy (innerRingWidthManual i));
      simpl; eexists; reflexivity. }
  intro innerRingWidth. apply bind_exists.
  { destruct (hasOuterRing i), (truthy (outerRingWidthManual i));
      simpl; eexists; reflexivity. }
  intro outerRingWidth. cbv zeta. apply bind_exists.
  { apply orElse_hd_Some, Hb. }
  intro boltData. cbv zeta.
  destruct (orElse_hd_Some
              (find (fun g => String.eqb (Gasket.id g) (gasketType i))
                    GASKET_TYPES) _ Hg) as [gType EgType].
  rewrite EgType.
  apply bind_exists.
  { destruct (manualM i !== Fin 0); simpl; eexists; reflexivity. }
  intro gasketM. apply bind_exists.
  { destruct (manualY i !== Fin 0); simpl; eexists; reflexivity. }
  intro gasketY. cbv zeta.
  assert (Epass : exists pg,
             orElse (find (fun g => String.eqb (Gasket.id g) (passGasketType i))
                          GASKET_TYPES) (Some gType) = Some pg).
  { destruct (find (fun g => String.eqb (Gasket.id g) (passGasketType i))
                   GASKET_TYPES); simpl; eexists; reflexivity. }
  destruct Epass as [pg Epg]. rewrite Epg.
  apply bind_exists.
  { destruct (manualPassM i !== Fin 0); simpl; eexists; reflexivity. }
  intro passM. apply bind_exists.
  { destruct (manualPassY i !== Fin 0); simpl; eexists; reflexivity. }
  intro passY. cbv zeta. apply bind_exists.
  { apply orElse_hd_Some, Hm. }
  intro mat. eexists. reflexivity.
Qed.

(** C8 (as amended).  A nonzero manual B.C.D, O.D, seating I.D, seating
    O.D, gasket [m]/[y] or pass-partition [m]/[y] is the value of the
    corresponding result field, and with the field at zero the result is
    the auto-derived value.  A manual ring width is used only while the
    ring's presence flag is set and the width is neither zero nor NaN;
    with the flag set and no manual width the result is the table value;
    with the flag cleared the ring width is zero whatever the manual
    value. *)
Theorem calculate_override_precedence
        (i : FlangeInputs) (r : CalculationResults) :
  calculate i = Some r ->
  Res.finalBCD r
  = (if actualBCD i !== Fin 0 then actualBCD i else Res.bcdTema r) /\
  Res.finalOD r
  = (if actualOD i !== Fin 0 then actualOD i else Res.odTema r) /\
  Res.seatingID r
  = (if manualSeatingID i !== Fin 0 then manualSeatingID i
     else autoSeatingIDOf i r) /\
  Res.seatingOD r
  = (if manualSeatingOD i !== Fin 0 then manualSeatingOD i
     else autoSeatingODOf i r) /\
  Some (Res.gasketM r)
  = (if manualM i !== Fin 0 then Some (manualM i)
     else option_map Gasket.m (gTypeOf GASKET_TYPES i)) /\
  Some (Res.gasketY r)
  = (if manualY i !== Fin 0 then Some (manualY i)
     else option_map Gasket.y (gTypeOf GASKET_TYPES i)) /\
  Some (Res.passM r)
  = (if manualPassM i !== Fin 0 then Some (manualPassM i)
     else option_map Gasket.m (passGTypeOf GASKET_TYPES i)) /\
  Some (Res.passY r)
  = (if manualPassY i !== Fin 0 then Some (manualPassY i)
     else option_map Gasket.y (passGTypeOf GASKET_TYPES i)) /\
  Some (Res.innerRingWidth r)
  = (if hasInnerRing i then
       if truthy (innerRingWidthManual i) then Some (innerRingWidthManual i)
       else option_map Ring.irMin
                       (ringConfigOf GASKET_RING_TABLE (insideDia i))
     else Some (Fin 0)) /\
  Some (Res.outerRingWidth r)
  = (if hasOuterRing i then
       if truthy (outerRingWidthManual i) then Some (outerRingWidthManual i)
       else option_map Ring.orMin
                       (ringConfigOf GASKET_RING_TABLE (insideDia i))
     else Some (Fin 0)).
Proof.
  intro H.
  destruct (calculate_geometry _ _ H)
    as (Hod & Hid & _ & _ & _ & _ & Hbcd & _ & Hfod).
  destruct (calculate_factors _ _ H) as (Hm & Hy & Hpm & Hpy).
  destruct (calculate_rings _ _ H) as (Hir & Hor).
  repeat split; solve [assumption | symmetry; assumption].
Qed.

(** C10.  When the shell inside diameter lies in no range of the ring-width
    table, the ring configuration is the last entry of the table: the
    lookup does not fail, the input panel shows that entry's inner ring
    width, and on non-empty tables [calculateFullResults] returns a result
    whose ring widths (ring present, no manual width) are that entry's. *)
Theorem ringConfig_last_entry_fallback (i : FlangeInputs) :
  TEMA_BOLT_DATA <> [] -> GASKET_RING_TABLE <> [] ->
  GASKET_TYPES <> [] -> ASME_BOLT_MATERIALS <> [] ->
  (forall row, In row GASKET_RING_TABLE ->
               ((insideDia i >=? Ring.min row)
                && (insideDia i <=? Ring.max row)) = false) ->
  exists front lastRow,
    GASKET_RING_TABLE = (front ++ [lastRow])%list /\
    ringConfigOf GASKET_RING_TABLE (insideDia i) = Some lastRow /\
    Calculator_autoIR GASKET_RING_TABLE i = Some (Ring.irMin lastRow) /\
    exists r,
      calculate i = Some r /\
      (hasInnerRing i = true -> truthy (innerRingWidthManual i) = false ->
       Res.innerRingWidth r = Ring.irMin lastRow) /\
      (hasOuterRing i = true -> truthy (outerRingWidthManual i) = false ->
       Res.outerRingWidth r = Ring.orMin lastRow).
Proof.
  intros Hb Hr Hg Hm Hnone.
  destruct (last_error_app _ Hr) as (front & lastRow & Hsplit & Hlast).
  assert (Hcfg : ringConfigOf GASKET_RING_TABLE (insideDia i) = Some lastRow).
  { unfold ringConfigOf. rewrite (find_none_all _ _ Hnone). exact Hlast. }
  exists front, lastRow. split; [exact Hsplit|]. split; [exact Hcfg|].
  split; [unfold Calculator_autoIR; rewrite Hcfg; reflexivity|].
  destruct (calculate_total i Hb Hr Hg Hm) as [r Hcalc].
  exists r. split; [exact Hcalc|].
  destruct (calculate_rings _ _ Hcalc) as (Hir & Hor).
  rewrite Hcfg in Hir, Hor. simpl in Hir, Hor.
  split; intros Hflag Hman.
  - rewrite Hflag, Hman in Hir. congruence.
  - rewrite Hflag, Hman in Hor. congruence.
Qed.

End CalculateFacts.

(** The engine on [overriddenInputs]: every override is the result's
    value. *)
Lemma calculate_override_precedence_witness :
  match exampleCalculate overriddenInputs with
  | Some r =>
      Res.finalBCD r = Fin 400 /\ Res.finalOD r = Fin 450 /\
      Res.seatingID r = Fin 320 /\ Res.seatingOD r = Fin 350 /\
      Some (Res.gasketM r) = Some (Fin 2.5) /\
      Some (Res.gasketY r) = Some (Fin 9000) /\
      Some (Res.passM r) = Some (Fin 2) /\
      Some (Res.passY r) = Some (Fin 5000)
  | None => False
  end.
Proof.
  destruct (exampleCalculate overriddenInputs) as [r|] eqn:E;
    [|vm_compute in E; discriminate].
  destruct (calculate_override_precedence _ _ _ _ _ _ _ _ _ _ E)
    as (H1 & H2 & H3 & H4 & H5 & H6 & H7 & H8 & _).
  repeat split; assumption.
Defined.

(** C8 as stated fails for the ring widths: with the inner ring absent a
    manual inner ring width of 5 mm is not the result's inner ring width,
    which is zero. *)
Lemma manual_ring_width_ignored_without_ring :
  hasInnerRing ringAbsentInputs = false /\
  innerRingWidthManual ringAbsentInputs = Fin 5 /\
  option_map Res.innerRingWidth (exampleCalculate ringAbsentInputs)
  = Some (Fin 0).
Proof. repeat split. Qed.

(** The example tables are not empty. *)
Lemma exampleTables_nonempty :
  exampleBolts <> [] /\ exampleRings <> [] /\
  exampleGaskets <> [] /\ exampleMaterials <> [].
Proof. repeat split; discriminate. Qed.

(** An inside diameter of 600.5 mm lies between the two ranges of
    [exampleRings]; the ring widths are those of the last row. *)
Lemma ringConfig_last_entry_fallback_witness :
  (forall row, In row exampleRings ->
               ((insideDia betweenRangesInputs >=? Ring.min row)
                && (insideDia betweenRangesInputs <=? Ring.max row)) = false) /\
  ringConfigOf exampleRings (insideDia betweenRangesInputs)
  = Some (Ring.mk (Fin 601) (Fin 100000) (Fin 10) (Fin 10)) /\
  Calculator_autoIR exampleRings betweenRangesInputs = Some (Fin 10).
Proof.
  assert (Hnone : forall row, In row exampleRings ->
               ((insideDia betweenRangesInputs >=? Ring.min row)
                && (insideDia betweenRangesInputs <=? Ring.max row)) = false).
  { intros row [<-|[<-|[]]]; reflexivity. }
  split; [exact Hnone|].
  destruct exampleTables_nonempty as (Hb & Hr & Hg & Hm).
  destruct (ringConfig_last_entry_fallback exampleSqrt exampleBolts
              exampleTension exampleRings exampleGaskets exampleMaterials
              exampleSteps examplePitch betweenRangesInputs
              Hb Hr Hg Hm Hnone)
    as (front & lastRow & Hsplit & Hcfg & Hpanel & _).
  assert (Hrow : lastRow = Ring.mk (Fin 601) (Fin 100000) (Fin 10) (Fin 10)).
  { vm_compute in Hcfg. congruence. }
  subst lastRow. split; [exact Hcfg|exact Hpanel].
Defined.

(** C2 at the failing input: the second example material has no allowable
    stress at 300 degrees (its curve ends in [null]), the design allowable
    stress is zero and the required bolt area for the operating load, and
    with it the required bolt area, is [Infinity]. *)
Lemma requiredBoltArea_infinite_at_zero_stress :
  match exampleCalculate zeroStressInputs with
  | Some r =>
      Res.designAllowableStress r = Fin 0 /\
      (Res.wm1 r >? Fin 0) = true /\
      Res.wm1 r / Res.designAllowableStress r = PInf /\
      Res.requiredBoltArea r = PInf
  | None => False
  end.
Proof. vm_compute. repeat split. Qed.

(** The PCC-1 banner of [BoltLoadTable.tsx] is the application's PCC-1
    status and the bound test on the selected stress. *)
Lemma withinLimit_is_safe_and_bounds
      (inputs : FlangeInputs) (results : CalculationResults) :
  usePcc1Check inputs = true ->
  BoltLoadTable_withinLimit inputs results
  = ((sbSelFinalOf inputs (sbSelCalcOf inputs results) <=? sbMax inputs)
     && (sbSelFinalOf inputs (sbSelCalcOf inputs results) >=? sbMin inputs)
     && safe (pccStatusInfo inputs results)).
Proof.
  intro H. unfold BoltLoadTable_withinLimit, pccStatusInfo.
  rewrite H. cbn [negb safe].
  rewrite !andb_assoc. reflexivity.
Qed.

(** C3 at the failing input: all four inequality checks pass and the
    application reports the PCC-1 status as safe, while the selected stress
    (288.4 MPa) is below [sbMin] (289.6 MPa); the banner of the PCC-1 panel,
    which includes the bound test, reports the same design as out of
    bounds. *)
Lemma pccStatusInfo_safe_below_sbMin :
  match exampleCalculate pccBelowMinInputs with
  | Some r =>
      let sbSelFinal :=
        sbSelFinalOf pccBelowMinInputs (sbSelCalcOf pccBelowMinInputs r) in
      usePcc1Check pccBelowMinInputs = true /\
      isStep5Ok pccBelowMinInputs r sbSelFinal = true /\
      isStep6Ok pccBelowMinInputs r sbSelFinal = true /\
      isStep7Ok pccBelowMinInputs r sbSelFinal = true /\
      isStep8Ok pccBelowMinInputs sbSelFinal = true /\
      (sbSelFinal <=? sbMax pccBelowMinInputs) = true /\
      (sbSelFinal >=? sbMin pccBelowMinInputs) = false /\
      pccStatusInfo pccBelowMinInputs r = {| active := true; safe := true |} /\
      BoltLoadTable_withinLimit pccBelowMinInputs r = false
  | None => False
  end.
Proof. vm_compute. repeat split. Qed.

(** The engine on [exampleInputs]: the candidates are 170, 364 and 391 mm,
    Method 3 governs. *)
Lemma calculate_two_pass_bcd_witness :
  match exampleCalculate exampleInputs with
  | Some r =>
      Res.bcdMethod1 r = Math_ceil ((Res.boltSpacingMin r * Fin 12) / Math_PI) /\
      Res.bcdMethod2 r
      = Math_ceil (Fin 300 + (Fin 2 * Fin 3) + (Fin 2 * Res.radialDistance r)) /\
      Res.bcdMethod1 r =n= Fin 170 /\ Res.bcdMethod2 r =n= Fin 364 /\
      Res.bcdMethod3 r =n= Fin 391 /\
      Res.selectedBcdSource r = 3%nat /\
      (Res.bcdTema r === Res.bcdMethod1 r) = false /\
      (Res.bcdTema r === Res.bcdMethod2 r) = false /\
      Res.bcdMethod3 r
      = Res.gasketOD r + (Fin 2 * Fin 1.5) + (Fin 2 * Res.effectiveC r)
        + Res.boltHoleSize r /\
      Res.bcdTema r
      = Math_max3 (Res.bcdMethod1 r) (Res.bcdMethod2 r) (Res.bcdMethod3 r) /\
      Res.finalBCD r = Res.bcdTema r
  | None => False
  end.
Proof.
  destruct (exampleCalculate exampleInputs) as [r|] eqn:E;
    [|vm_compute in E; discriminate].
  assert (Hval : Res.bcdMethod1 r =n= Fin 170 /\ Res.bcdMethod2 r =n= Fin 364 /\
                 Res.bcdMethod3 r =n= Fin 391 /\
                 Res.selectedBcdSource r = 3%nat).
  { vm_compute in E. injection E as <-.
    repeat split; vm_compute; reflexivity. }
  destruct Hval as (V1 & V2 & V3 & Hsrc3).
  destruct (calculate_two_pass_bcd _ _ _ _ _ _ _ _ _ _ E)
    as (bd & _ & _ & _ & _ & Hm1 & Hm2 & _ & _ & _ & _ & _ & _ & _ & Hm3
        & Htema & Hsrc & Hfinal).
  rewrite Hsrc3 in Hsrc. destruct Hsrc as (H1 & H2 & _).
  repeat split; assumption.
Defined.

(** ** Loads on physical tables *)

Lemma nonneg_or_zero (v : num) : nonneg v -> nonneg (v || Fin 0).
Proof.
  unfold or. destruct (truthy v); [auto|]. intros _. simpl. lra.
Qed.

Lemma mul_nonneg (a b : num) : nonneg a -> nonneg b -> nonneg (a * b).
Proof.
  destruct a, b; simpl; try contradiction. intros Ha Hb.
  apply Qmult_le_0_compat; assumption.
Qed.

Lemma mul_nonneg_or_NaN (a b : num) :
  nonneg a -> b = NaN \/ nonneg b -> a * b = NaN \/ nonneg (a * b).
Proof.
  intros Ha [->|Hb].
  - left. destruct a; reflexivity.
  - right. apply mul_nonneg; assumption.
Qed.

(** A point of a segment between two values that are not negative is not
    negative. *)
Lemma segment_nonneg (s1 s2 t1 t2 t : num) :
  nonneg s1 -> nonneg s2 -> finite t1 -> finite t2 ->
  ((t >=? t1) && (t <=? t2)) = true ->
  s1 + ((s2 - s1) * (t - t1)) / (t2 - t1) = NaN \/
  nonneg (s1 + ((s2 - s1) * (t - t1)) / (t2 - t1)).
Proof.
  destruct s1 as [x| | |], s2 as [y| | |], t1 as [a| | |], t2 as [b| | |];
    simpl; try contradiction.
  intros Hx Hy _ _ Hin. apply andb_true_iff in Hin. destruct Hin as [Hlo Hhi].
  destruct t as [u| | |]; simpl in Hlo, Hhi; try discriminate.
  qprops. simpl.
  destruct (Qzerob (b + - a)) eqn:Ez.
  - destruct (Qzerob ((y + - x) * (u + - a))) eqn:En; simpl; auto.
    exfalso. qprops. apply En.
    assert (Hu : u + - a == 0) by lra. rewrite Hu. ring.
  - right. simpl. qprops.
    assert (Hd : 0 < b + - a) by lra.
    assert (E : x + (y + - x) * (u + - a) / (b + - a)
                == (x * (b + - u) + y * (u + - a)) / (b + - a)).
    { field. lra. }
    rewrite E. apply Qle_shift_div_l; [exact Hd|].
    assert (H1 : 0 <= x * (b + - u)) by (apply Qmult_le_0_compat; lra).
    assert (H2 : 0 <= y * (u + - a)) by (apply Qmult_le_0_compat; lra).
    lra.
Qed.

Lemma idx_Forall (P : num -> Prop) (xs : list num) (i : nat) :
  Forall P xs -> idx xs i = NaN \/ P (idx xs i).
Proof.
  unfold idx. intro H. destruct (Nat.lt_ge_cases i (List.length xs)) as [Hi|Hi].
  - right. rewrite Forall_forall in H. apply H. apply nth_In. exact Hi.
  - left. apply nth_overflow. exact Hi.
Qed.

Lemma idx_last_Forall (P : num -> Prop) (xs : list num) :
  Forall P xs -> idx_last xs = NaN \/ P (idx_last xs).
Proof.
  rewrite idx_last_eq. apply idx_Forall.
Qed.

Lemma cleanCurveOf_nonneg (curve : list (option num)) :
  (forall s, In (Some s) curve -> nonneg s) ->
  Forall nonneg (cleanCurveOf curve).
Proof.
  intro H. unfold cleanCurveOf. apply Forall_forall. intros x Hx.
  apply in_map_iff in Hx. destruct Hx as ([s|] & <- & Hin).
  - apply nonneg_or_zero. apply H. exact Hin.
  - simpl. lra.
Qed.

Lemma interpolateLoop_nonneg (steps clean : list num) (t : num) :
  Forall finite steps -> Forall nonneg clean ->
  forall fuel i,
    interpolateLoop steps t clean fuel i = NaN \/
    nonneg (interpolateLoop steps t clean fuel i).
Proof.
  intros Hsteps Hclean. induction fuel as [|fuel IH]; intro i; simpl.
  - apply idx_Forall. exact Hclean.
  - destruct ((t >=? idx steps i) && (t <=? idx steps (i + 1))) eqn:Hin;
      [|apply IH].
    assert (Hcmp := Hin). apply andb_true_iff in Hcmp.
    destruct Hcmp as [Hlo Hhi].
    destruct (idx_Forall _ _ i Hsteps) as [E|F1].
    { rewrite E in Hlo. destruct t; discriminate. }
    destruct (idx_Forall _ _ (i + 1) Hsteps) as [E|F2].
    { rewrite E in Hhi. destruct t; discriminate. }
    destruct (idx_Forall _ _ i Hclean) as [E|N1].
    { left. rewrite E. reflexivity. }
    assert (N2 : nonneg (idx clean (i + 1) || idx clean i)).
    { unfold or. destruct (truthy (idx clean (i + 1))) eqn:Et; [|exact N1].
      destruct (idx_Forall _ _ (i + 1) Hclean) as [E|N]; [|exact N].
      rewrite E in Et. discriminate. }
    apply segment_nonneg; assumption.
Qed.

(** Interpolation over a curve with no negative entry gives no negative
    stress. *)
Lemma interpolateStress_nonneg (steps : list num) (t : num)
      (curve : list (option num)) :
  (forall x, In x steps -> finite x) ->
  (forall s, In (Some s) curve -> nonneg s) ->
  interpolateStress steps t curve = NaN \/
  nonneg (interpolateStress steps t curve).
Proof.
  intros Hsteps Hcurve. unfold interpolateStress. cbv zeta.
  assert (Hclean := cleanCurveOf_nonneg curve Hcurve).
  destruct (t <=? idx steps 0); [apply idx_Forall; exact Hclean|].
  destruct (t >=? idx_last steps); [apply idx_last_Forall; exact Hclean|].
  apply interpolateLoop_nonneg; [|exact Hclean].
  apply Forall_forall. exact Hsteps.
Qed.

(** A margin of at least zero means the available load covers the required
    load, provided the available load is not negative. *)
Lemma margin_nonneg_load (avail req : num) :
  (((avail - req) / req) * Fin 100 >=? Fin 0) = true ->
  nonneg avail ->
  (avail >=? req) = true.
Proof.
  unfold ge.
  destruct avail as [a| | |], req as [q| | |]; simpl;
    try contradiction; try discriminate; try reflexivity.
  intros Hm Ha.
  destruct (Qzerob q) eqn:Ez.
  - destruct (Qzerob (a + - q)) eqn:Ez'; [discriminate|].
    qprops. apply Qle_bool_iff. lra.
  - simpl in Hm. qprops. apply Qle_bool_iff.
    destruct (Qlt_le_dec q 0) as [Hneg|Hpos]; [lra|].
    assert (Hq : 0 < q) by lra.
    assert (Hdiv : 0 <= (a + - q) / q).
    { destruct (Qlt_le_dec ((a + - q) / q) 0) as [Hlt|Hge]; [|exact Hge].
      exfalso. nra. }
    assert (Hnum : 0 <= a + - q).
    { setoid_replace (a + - q)%Q with (((a + - q) / q) * q)%Q
        by (field; lra).
      apply Qmult_le_0_compat; lra. }
    lra.
Qed.

Lemma counts_nonneg (c : num) : In c counts -> nonneg c.
Proof.
  intro H. unfold counts in H. apply in_map_iff in H.
  destruct H as (z & <- & Hz). simpl.
  change 0%Q with (inject_Z 0). rewrite <- Zle_Qle.
  repeat (destruct Hz as [<-|Hz]; [lia|]). contradiction.
Qed.

(** ** The design-space search *)

Section SearchFacts.

Variable Math_sqrt : num -> num.
Variable TEMA_BOLT_DATA : list Bolt.t.
Variable HYDRAULIC_TENSIONING_DATA : list Tension.t.
Variable GASKET_RING_TABLE : list Ring.t.
Variable GASKET_TYPES : list Gasket.t.
Variable ASME_BOLT_MATERIALS : list Material.t.
Variable BOLT_TEMP_STEPS : list num.
Variable WHC_MAX_PITCH_TABLE : list (num * num).

Local Abbreviation calculate :=
  (calculateFullResults Math_sqrt TEMA_BOLT_DATA HYDRAULIC_TENSIONING_DATA
     GASKET_RING_TABLE GASKET_TYPES ASME_BOLT_MATERIALS BOLT_TEMP_STEPS
     WHC_MAX_PITCH_TABLE).

Local Abbreviation search :=
  (performSearch Math_sqrt TEMA_BOLT_DATA HYDRAULIC_TENSIONING_DATA
     GASKET_RING_TABLE GASKET_TYPES ASME_BOLT_MATERIALS BOLT_TEMP_STEPS
     WHC_MAX_PITCH_TABLE).

Local Abbreviation step :=
  (searchStep Math_sqrt TEMA_BOLT_DATA HYDRAULIC_TENSIONING_DATA
     GASKET_RING_TABLE GASKET_TYPES ASME_BOLT_MATERIALS BOLT_TEMP_STEPS
     WHC_MAX_PITCH_TABLE).

Local Abbreviation countsLoop :=
  (forCounts Math_sqrt TEMA_BOLT_DATA HYDRAULIC_TENSIONING_DATA
     GASKET_RING_TABLE GASKET_TYPES ASME_BOLT_MATERIALS BOLT_TEMP_STEPS
     WHC_MAX_PITCH_TABLE).

Local Abbreviation sizesLoop :=
  (forSizes Math_sqrt TEMA_BOLT_DATA HYDRAULIC_TENSIONING_DATA
     GASKET_RING_TABLE GASKET_TYPES ASME_BOLT_MATERIALS BOLT_TEMP_STEPS
     WHC_MAX_PITCH_TABLE).

(** The loop invariant: once [found] is set, the best pair is a grid cell
    whose evaluation is feasible and whose required load is
    [minRequiredLoad]. *)
Local Abbreviation bestOk opt sizes v :=
  (found v = true ->
   In (bestSize v) sizes /\ In (bestCount v) counts /\
   exists r,
     calculate (withSizeCount opt (bestSize v) (bestCount v)) = Some r /\
     feasible r = true /\ minRequiredLoad v = requiredLoadOf r).

Lemma searchStep_bestOk (opt : FlangeInputs) (sizes : list num)
      (size count : num) (v v' : SearchVars) :
  In size sizes -> In count counts ->
  bestOk opt sizes v ->
  step opt size v count = Some v' ->
  bestOk opt sizes v'.
Proof.
  intros Hs Hc Hv Hstep. unfold searchStep in Hstep.
  apply bind_Some in Hstep. destruct Hstep as (r & Hr & Hstep).
  cbv zeta in Hstep.
  destruct ((marginOf r >=? Fin 0) && Res.spacingOk r) eqn:Hfeas;
    [|injection Hstep as <-; exact Hv].
  destruct (requiredLoadOf r <? minRequiredLoad v);
    injection Hstep as <-; [|exact Hv].
  intros _. simpl. repeat split; try assumption.
  exists r. repeat split; assumption.
Qed.

Lemma forCounts_bestOk (opt : FlangeInputs) (sizes : list num) (size : num) :
  In size sizes ->
  forall cs v v',
    incl cs counts ->
    bestOk opt sizes v ->
    countsLoop opt size cs v = Some v' ->
    bestOk opt sizes v'.
Proof.
  intros Hs cs. induction cs as [|c cs IH]; intros v v' Hincl Hv Hloop.
  - injection Hloop as <-. exact Hv.
  - simpl in Hloop. apply bind_Some in Hloop.
    destruct Hloop as (v1 & Hstep & Hloop).
    apply (IH v1 v'); [intros x Hx; apply Hincl; right; exact Hx| |exact Hloop].
    apply (searchStep_bestOk opt sizes size c v); try assumption.
    apply Hincl. left. reflexivity.
Qed.

Lemma forSizes_bestOk (opt : FlangeInputs) (sizes : list num) :
  forall ss v v',
    incl ss sizes ->
    bestOk opt sizes v ->
    sizesLoop opt ss v = Some v' ->
    bestOk opt sizes v'.
Proof.
  intros ss. induction ss as [|s ss IH]; intros v v' Hincl Hv Hloop.
  - injection Hloop as <-. exact Hv.
  - simpl in Hloop. apply bind_Some in Hloop.
    destruct Hloop as (v1 & Hcounts & Hloop).
    apply (IH v1 v'); [intros x Hx; apply Hincl; right; exact Hx| |exact Hloop].
    apply (forCounts_bestOk opt sizes s (Hincl s (or_introl eq_refl))
                            counts v v1);
      [apply incl_refl|exact Hv|exact Hcounts].
Qed.

(** What a successful search has established. *)
Lemma search_found (prev targetInputs next : FlangeInputs)
      (fixedSize f : bool) (s c req mg : num) :
  search prev targetInputs fixedSize
  = Some (next, OptimizationCompleted f s c req mg) ->
  next = applySearchResult prev s c /\
  In s (sizesToSearch TEMA_BOLT_DATA (clearGeometryOverrides targetInputs)
                      fixedSize) /\
  In c counts /\
  exists r,
    calculate (withSizeCount (clearGeometryOverrides targetInputs) s c)
    = Some r /\
    feasible r = true /\ req = requiredLoadOf r /\ mg = marginOf r.
Proof.
  intro H. unfold performSearch in H. cbv zeta in H.
  apply bind_Some in H. destruct H as (v & Hloop & H).
  destruct (found v) eqn:Hfound; [|discriminate].
  apply bind_Some in H. destruct H as (finalResults & Hfinal & H).
  injection H as <- _ <- <- <- <-.
  match type of Hloop with
  | forSizes _ _ _ _ _ _ _ _ ?opt ?sizes ?init = _ =>
      assert (Hinit : bestOk opt sizes init) by (simpl; discriminate);
      pose proof (forSizes_bestOk opt sizes sizes init v (incl_refl _)
                                  Hinit Hloop Hfound) as Hok
  end.
  destruct Hok as (Hs & Hc & r & Hr & Hfeas & Hreq).
  split; [reflexivity|]. split; [exact Hs|]. split; [exact Hc|].
  exists r. rewrite Hr in Hfinal. injection Hfinal as <-.
  repeat split; assumption.
Qed.

Lemma available_load_nonneg (i : FlangeInputs) (r : CalculationResults) :
  calculate i = Some r ->
  physicalTables TEMA_BOLT_DATA ASME_BOLT_MATERIALS BOLT_TEMP_STEPS ->
  nonneg (boltCount i) ->
  Res.totalBoltLoadDesign r = NaN \/ nonneg (Res.totalBoltLoadDesign r).
Proof.
  intros H (Hbolts & Hmats & Hsteps) Hcount.
  destruct (calculate_loads _ _ _ _ _ _ _ _ _ _ H)
    as (_ & _ & Hload & mat & Hmat & Hdesign & _).
  destruct (calculate_boltData _ _ _ _ _ _ _ _ _ _ H)
    as (boltData & Hrow & _ & _ & Harea).
  rewrite Hload, Harea, Hdesign.
  apply mul_nonneg_or_NaN.
  - apply mul_nonneg; [|exact Hcount].
    apply Hbolts. exact (orElse_find_In _ _ _ Hrow).
  - apply interpolateStress_nonneg; [exact Hsteps|].
    intros s Hs. apply (Hmats mat s); [|exact Hs].
    exact (orElse_find_In _ _ _ Hmat).
Qed.


Lemma forCounts_infeasible (opt : FlangeInputs) (size : num) (v : SearchVars) :
  TEMA_BOLT_DATA <> [] -> GASKET_RING_TABLE <> [] ->
  GASKET_TYPES <> [] -> ASME_BOLT_MATERIALS <> [] ->
  forall cs,
    (forall count r, In count cs ->
                     calculate (withSizeCount opt size count) = Some r ->
                     feasible r = false) ->
    countsLoop opt size cs v = Some v.
Proof.
  intros Hb Hr Hg Hm cs. induction cs as [|c cs IH]; intro Hinf.
  - reflexivity.
  - simpl. unfold searchStep.
    destruct (calculate_total Math_sqrt TEMA_BOLT_DATA
                HYDRAULIC_TENSIONING_DATA GASKET_RING_TABLE GASKET_TYPES
                ASME_BOLT_MATERIALS BOLT_TEMP_STEPS WHC_MAX_PITCH_TABLE
                (withSizeCount opt size c) Hb Hr Hg Hm) as [r Hcalc].
    rewrite Hcalc. cbn [bind].
    pose proof (Hinf c r (or_introl eq_refl) Hcalc) as Hfeas.
    unfold feasible in Hfeas. rewrite Hfeas.
    apply IH. intros count r' Hin. apply Hinf. right. exact Hin.
Qed.

Lemma forSizes_infeasible (opt : FlangeInputs) (v : SearchVars) :
  TEMA_BOLT_DATA <> [] -> GASKET_RING_TABLE <> [] ->
  GASKET_TYPES <> [] -> ASME_BOLT_MATERIALS <> [] ->
  forall ss,
    (forall size count r, In size ss -> In count counts ->
                          calculate (withSizeCount opt size count) = Some r ->
                          feasible r = false) ->
    sizesLoop opt ss v = Some v.
Proof.
  intros Hb Hr Hg Hm ss. induction ss as [|s ss IH]; intro Hinf.
  - reflexivity.
  - cbn [forSizes].
    rewrite (forCounts_infeasible opt s v Hb Hr Hg Hm counts).
    + cbn [bind]. apply IH. intros size count r Hin. apply Hinf. right.
      exact Hin.
    + intros count r Hin. apply Hinf; [left; reflexivity|exact Hin].
Qed.

(** C7.  On non-empty tables, when no cell of the search grid is feasible
    the search raises no error: it reports that no valid configuration was
    found and the stored Design Input is the one it was before. *)
Theorem search_failure_leaves_inputs
        (prev targetInputs : FlangeInputs) (fixedSize : bool) :
  TEMA_BOLT_DATA <> [] -> GASKET_RING_TABLE <> [] ->
  GASKET_TYPES <> [] -> ASME_BOLT_MATERIALS <> [] ->
  (forall size count r,
     In size (sizesToSearch TEMA_BOLT_DATA
                            (clearGeometryOverrides targetInputs) fixedSize) ->
     In count counts ->
     calculate (withSizeCount (clearGeometryOverrides targetInputs) size count)
     = Some r ->
     feasible r = false) ->
  search prev targetInputs fixedSize
  = Some (prev, NoValidConfiguration fixedSize (boltSize targetInputs)).
Proof.
  intros Hb Hr Hg Hm Hinf. unfold performSearch. cbv zeta.
  rewrite (forSizes_infeasible _ _ Hb Hr Hg Hm _ Hinf).
  reflexivity.
Qed.

(** C9.  When the search succeeds, the stored Design Input changes in
    [boltSize], [boltCount], [useManualOverride], [actualBCD], [actualOD],
    [manualSeatingID] and [manualSeatingOD] only.  The manual gasket
    factors are not cleared, neither in the stored input nor in the input
    of any evaluated cell: each nonzero manual factor of the target input
    is the factor of every cell's result, the winning cell's included. *)
Theorem search_success_frame
        (prev targetInputs next : FlangeInputs)
        (fixedSize f : bool) (s c req mg : num) :
  search prev targetInputs fixedSize
  = Some (next, OptimizationCompleted f s c req mg) ->
  next
  = mkFlangeInputs
      (itemNo prev) (partName prev) s c (insideDia prev)
      (g0 prev) (g1 prev) (cClearance prev) (shellGapA prev)
      (gasketSeatingWidth prev)
      (hasInnerRing prev) (hasOuterRing prev)
      (innerRingWidthManual prev) (outerRingWidthManual prev)
      false (Fin 0) (Fin 0) (Fin 0) (Fin 0)
      (manualM prev) (manualY prev) (manualPassM prev) (manualPassY prev)
      (designTemp prev) (tempUnit prev) (designPressure prev)
      (pressureUnit prev)
      (shellMaterial prev) (jointEfficiency prev) (corrosionAllowance prev)
      (boltMaterial prev) (passPartitionLength prev) (passPartitionWidth prev)
      (gasketType prev) (passGasketType prev) (facingSketch prev)
      (useHydraulicTensioning prev) (usePcc1Check prev)
      (sgT prev) (sgMinS prev) (sgMinO prev) (sgMax prev) (sbMax prev)
      (sbMin prev) (sfMax prev)
      (phiFMax prev) (phiGMax prev) (g prev) (passPartAreaReduction prev) /\
  (forall size count,
     let testInputs :=
       withSizeCount (clearGeometryOverrides targetInputs) size count in
     manualM testInputs = manualM targetInputs /\
     manualY testInputs = manualY targetInputs /\
     manualPassM testInputs = manualPassM targetInputs /\
     manualPassY testInputs = manualPassY targetInputs /\
     forall r,
       calculate testInputs = Some r ->
       ((manualM targetInputs !== Fin 0) = true ->
        Res.gasketM r = manualM targetInputs) /\
       ((manualY targetInputs !== Fin 0) = true ->
        Res.gasketY r = manualY targetInputs) /\
       ((manualPassM targetInputs !== Fin 0) = true ->
        Res.passM r = manualPassM targetInputs) /\
       ((manualPassY targetInputs !== Fin 0) = true ->
        Res.passY r = manualPassY targetInputs)) /\
  exists r,
    calculate (withSizeCount (clearGeometryOverrides targetInputs) s c)
    = Some r /\
    req = requiredLoadOf r.
Proof.
  intro H.
  destruct (search_found _ _ _ _ _ _ _ _ _ H)
    as (Hnext & _ & _ & r & Hr & _ & Hreq & _).
  split; [exact Hnext|]. split.
  - intros size count testInputs.
    repeat (split; [reflexivity|]).
    intros r' Hr'.
    destruct (calculate_factors _ _ _ _ _ _ _ _ _ _ Hr')
      as (Hm & Hy & Hpm & Hpy).
    cbn [manualM manualY manualPassM manualPassY testInputs withSizeCount
         clearGeometryOverrides] in Hm, Hy, Hpm, Hpy.
    repeat split; intro Hnz.
    + rewrite Hnz in Hm. congruence.
    + rewrite Hnz in Hy. congruence.
    + rewrite Hnz in Hpm. congruence.
    + rewrite Hnz in Hpy. congruence.
  - exists r. split; assumption.
Qed.

End SearchFacts.

(** ** The search on the example tables *)

Lemma exampleTables_physical :
  physicalTables exampleBolts exampleMaterials exampleSteps.
Proof.
  split; [|split].
  - intros b Hb. simpl in Hb.
    repeat (destruct Hb as [<-|Hb]; [simpl; lra|]). contradiction.
  - intros m s Hm Hs. simpl in Hm.
    repeat (destruct Hm as [<-|Hm];
            [simpl in Hs;
             repeat (destruct Hs as [Hs|Hs];
                     [try discriminate; injection Hs as <-; simpl; lra|]);
             contradiction|]).
    contradiction.
  - intros t Ht. simpl in Ht.
    repeat (destruct Ht as [<-|Ht]; [exact I|]). contradiction.
Qed.

(** The search from [overriddenInputs] succeeds with twenty 3/4 inch
    bolts. *)
Lemma exampleSearch_overridden_outcome :
  match exampleSearch overriddenInputs overriddenInputs false with
  | Some (_, OptimizationCompleted _ s c _ _) => Some (s, c)
  | _ => None
  end = Some (Fin 0.75, Fin (inject_Z 20)).
Proof. vm_compute. reflexivity. Qed.


(** With the second example material at 300 degrees the available load is
    zero: no cell is feasible, and the search leaves the stored input as it
    was. *)
Lemma search_failure_leaves_inputs_witness :
  exampleSearch zeroStressInputs zeroStressInputs false
  = Some (zeroStressInputs, NoValidConfiguration false (Fin 0.75)).
Proof.
  destruct exampleTables_nonempty as (Hb & Hr & Hg & Hm).
  apply (search_failure_leaves_inputs exampleSqrt exampleBolts exampleTension
           exampleRings exampleGaskets exampleMaterials exampleSteps
           examplePitch zeroStressInputs zeroStressInputs false Hb Hr Hg Hm).
  intros size count r Hs Hc Hcalc.
  vm_compute in Hs.
  destruct Hs as [<-|[<-|[]]];
    unfold counts in Hc; simpl in Hc;
    repeat (destruct Hc as [<-|Hc];
            [vm_compute in Hcalc; injection Hcalc as <-; reflexivity|]);
    contradiction.
Defined.

(** The search from [overriddenInputs]: the manual geometry is cleared in
    the stored input, the manual gasket factors stay, and the winning cell
    was evaluated with them. *)
Lemma search_success_frame_witness :
  match exampleSearch overriddenInputs overriddenInputs false with
  | Some (next, OptimizationCompleted _ s c req _) =>
      actualBCD next = Fin 0 /\ manualSeatingOD next = Fin 0 /\
      useManualOverride next = false /\
      boltSize next = s /\ boltCount next = c /\
      manualM next = Fin 2.5 /\ manualY next = Fin 9000 /\
      manualPassM next = Fin 2 /\ manualPassY next = Fin 5000 /\
      exists r,
        exampleCalculate
          (withSizeCount (clearGeometryOverrides overriddenInputs) s c)
        = Some r /\
        req = requiredLoadOf r /\
        Res.gasketM r = Fin 2.5 /\ Res.gasketY r = Fin 9000
  | _ => False
  end.
Proof.
  pose proof exampleSearch_overridden_outcome as Hout.
  destruct (exampleSearch overriddenInputs overriddenInputs false)
    as [[next [f s c req mg|f b]]|] eqn:E; try discriminate Hout.
  clear Hout.
  destruct (search_success_frame
              _ _ _ _ _ _ _ _ _ _ _ _ _ _ _ _ _ E)
    as (Hnext & Hcells & r & Hr & Hreq).
  subst next. repeat (split; [reflexivity|]).
  exists r. split; [exact Hr|]. split; [exact Hreq|].
  destruct (Hcells s c) as (_ & _ & _ & _ & Hfactors).
  destruct (Hfactors r Hr) as (Hm & Hy & _ & _).
  split; [apply Hm|apply Hy]; reflexivity.
Defined.

(* ===================================================================== *)
(** * Further properties of the search *)
(* ===================================================================== *)

Lemma lt_irrefl (a : num) : (a <? a) = false.
Proof.
  destruct a; simpl; try reflexivity. apply Qltb_false. lra.
Qed.

Lemma lt_not_NaN (a b : num) : (a <? b) = true -> a <> NaN /\ b <> NaN.
Proof. destruct a, b; simpl; intro H; split; congruence. Qed.

Lemma not_lt_le (a b : num) :
  a <> NaN -> b <> NaN -> (b <? a) = false -> (a <=? b) = true.
Proof.
  destruct a, b; simpl; intros Ha Hb H; try congruence.
  qprops. apply Qle_bool_iff. exact H.
Qed.

Lemma lt_false_le (a b c : num) :
  (a <? b) = false -> (c <=? b) = true -> (a <? c) = false.
Proof.
  intros Hab Hcb. destruct (a <? c) eqn:Hac; [|reflexivity].
  rewrite (lt_le_trans _ _ _ Hac Hcb) in Hab. discriminate.
Qed.

(** A margin of at least zero needs a required load that is a number
    below [Infinity]. *)
Lemma feasible_required_below_PInf (r : CalculationResults) :
  feasible r = true -> (requiredLoadOf r <? PInf) = true.
Proof.
  unfold feasible, marginOf. intro H. apply andb_true_iff in H.
  destruct H as [H _]. unfold ge in H.
  destruct (Res.totalBoltLoadDesign r) as [a| | |],
           (requiredLoadOf r) as [q| | |];
    simpl in *; try reflexivity; try discriminate.
Qed.

Section SearchOptimality.

Variable Math_sqrt : num -> num.
Variable TEMA_BOLT_DATA : list Bolt.t.
Variable HYDRAULIC_TENSIONING_DATA : list Tension.t.
Variable GASKET_RING_TABLE : list Ring.t.
Variable GASKET_TYPES : list Gasket.t.
Variable ASME_BOLT_MATERIALS : list Material.t.
Variable BOLT_TEMP_STEPS : list num.
Variable WHC_MAX_PITCH_TABLE : list (num * num).

Local Abbreviation calculate :=
  (calculateFullResults Math_sqrt TEMA_BOLT_DATA HYDRAULIC_TENSIONING_DATA
     GASKET_RING_TABLE GASKET_TYPES ASME_BOLT_MATERIALS BOLT_TEMP_STEPS
     WHC_MAX_PITCH_TABLE).

Local Abbreviation search :=
  (performSearch Math_sqrt TEMA_BOLT_DATA HYDRAULIC_TENSIONING_DATA
     GASKET_RING_TABLE GASKET_TYPES ASME_BOLT_MATERIALS BOLT_TEMP_STEPS
     WHC_MAX_PITCH_TABLE).

Local Abbreviation optimize :=
  (handleOptimize Math_sqrt TEMA_BOLT_DATA HYDRAULIC_TENSIONING_DATA
     GASKET_RING_TABLE GASKET_TYPES ASME_BOLT_MATERIALS BOLT_TEMP_STEPS
     WHC_MAX_PITCH_TABLE).

Local Abbreviation step :=
  (searchStep Math_sqrt TEMA_BOLT_DATA HYDRAULIC_TENSIONING_DATA
     GASKET_RING_TABLE GASKET_TYPES ASME_BOLT_MATERIALS BOLT_TEMP_STEPS
     WHC_MAX_PITCH_TABLE).

Local Abbreviation countsLoop :=
  (forCounts Math_sqrt TEMA_BOLT_DATA HYDRAULIC_TENSIONING_DATA
     GASKET_RING_TABLE GASKET_TYPES ASME_BOLT_MATERIALS BOLT_TEMP_STEPS
     WHC_MAX_PITCH_TABLE).

Local Abbreviation sizesLoop :=
  (forSizes Math_sqrt TEMA_BOLT_DATA HYDRAULIC_TENSIONING_DATA
     GASKET_RING_TABLE GASKET_TYPES ASME_BOLT_MATERIALS BOLT_TEMP_STEPS
     WHC_MAX_PITCH_TABLE).

Local Abbreviation gridSizes targetInputs fixedSize :=
  (sizesToSearch TEMA_BOLT_DATA (clearGeometryOverrides targetInputs)
                 fixedSize).

(** The loop that produced a successful search. *)
Lemma search_unfold (prev targetInputs next : FlangeInputs)
      (fixedSize f : bool) (s c req mg : num) :
  search prev targetInputs fixedSize
  = Some (next, OptimizationCompleted f s c req mg) ->
  exists v,
    sizesLoop (clearGeometryOverrides targetInputs)
              (gridSizes targetInputs fixedSize)
              (mkSearchVars (boltSize targetInputs) (boltCount targetInputs)
                            PInf false)
    = Some v /\
    found v = true /\ s = bestSize v /\ c = bestCount v /\
    req = minRequiredLoad v /\ f = fixedSize /\
    next = applySearchResult prev s c /\
    exists r,
      calculate (withSizeCount (clearGeometryOverrides targetInputs) s c)
      = Some r /\
      mg = marginOf r.
Proof.
  intro H. unfold performSearch in H. cbv zeta in H.
  apply bind_Some in H. destruct H as (v & Hloop & H).
  destruct (found v) eqn:Hfound; [|discriminate].
  apply bind_Some in H. destruct H as (finalResults & Hfinal & H).
  injection H as <- <- <- <- <- <-.
  exists v. split; [exact Hloop|]. split; [exact Hfound|].
  do 5 (split; [reflexivity|]).
  exists finalResults. split; [exact Hfinal|reflexivity].
Qed.

(** X1.  A fixed-size search never changes the bolt size: the size it
    reports, and the size it stores, is the size of the input it was
    started from. *)
Theorem fixed_size_search_keeps_size
        (inputs next : FlangeInputs) (f : bool) (s c req mg : num) :
  optimize inputs true = Some (next, OptimizationCompleted f s c req mg) ->
  s = boltSize inputs /\ boltSize next = boltSize inputs /\ In c counts /\
  boltCount next = c.
Proof.
  intro H. unfold handleOptimize in H.
  destruct (search_found _ _ _ _ _ _ _ _ _ _ _ _ _ _ _ _ _ H)
    as (Hnext & Hs & Hc & _).
  simpl in Hs. destruct Hs as [Hs|[]].
  subst next. simpl. repeat split; auto.
Qed.

(** X2.  A full search only returns a size that is a row of the bolt table
    at or above 3/4 inch, and a count from the list 4, 8, ..., 80. *)
Theorem full_search_pair_from_grid
        (prev targetInputs next : FlangeInputs) (f : bool)
        (s c req mg : num) :
  search prev targetInputs false
  = Some (next, OptimizationCompleted f s c req mg) ->
  (exists b, In b TEMA_BOLT_DATA /\ Bolt.size b = s) /\
  (s >=? Fin 0.75) = true /\
  exists k : Z, (1 <= k <= 20)%Z /\ c = Fin (inject_Z (4 * k)).
Proof.
  intro H.
  destruct (search_found _ _ _ _ _ _ _ _ _ _ _ _ _ _ _ _ _ H)
    as (_ & Hs & Hc & _).
  unfold sizesToSearch in Hs. apply in_map_iff in Hs.
  destruct Hs as (b & Hb & Hin). apply filter_In in Hin.
  destruct Hin as [Hin Hge]. rewrite Hb in Hge.
  split; [exists b; auto|]. split; [exact Hge|].
  unfold counts in Hc. apply in_map_iff in Hc.
  destruct Hc as (z & <- & Hz).
  exists (z / 4)%Z. simpl in Hz.
  repeat (destruct Hz as [<-|Hz];
          [vm_compute; split; [split; discriminate|reflexivity]|]).
  contradiction.
Qed.

(** *** The required load is minimal *)

Local Abbreviation cellAbove opt size count bound :=
  (forall r', calculate (withSizeCount opt size count) = Some r' ->
              feasible r' = true ->
              (requiredLoadOf r' <? bound) = false).

Lemma searchStep_min (opt : FlangeInputs) (size count : num)
      (v v' : SearchVars) :
  step opt size v count = Some v' ->
  minRequiredLoad v <> NaN ->
  minRequiredLoad v' <> NaN /\
  (minRequiredLoad v' <=? minRequiredLoad v) = true /\
  cellAbove opt size count (minRequiredLoad v').
Proof.
  intros Hstep Hnan. unfold searchStep in Hstep.
  apply bind_Some in Hstep. destruct Hstep as (r & Hr & Hstep).
  cbv zeta in Hstep. fold (feasible r) in Hstep.
  destruct (feasible r) eqn:Hfeas.
  - destruct (requiredLoadOf r <? minRequiredLoad v) eqn:Hlt;
      injection Hstep as <-; simpl.
    + split; [apply (lt_not_NaN _ _ Hlt)|]. split; [apply lt_le; exact Hlt|].
      intros r' Hr' _. rewrite Hr in Hr'. injection Hr' as <-.
      apply lt_irrefl.
    + split; [exact Hnan|]. split; [apply le_refl; exact Hnan|].
      intros r' Hr' _. rewrite Hr in Hr'. injection Hr' as <-. exact Hlt.
  - injection Hstep as <-.
    split; [exact Hnan|]. split; [apply le_refl; exact Hnan|].
    intros r' Hr' Hf. rewrite Hr in Hr'. injection Hr' as <-. congruence.
Qed.

Lemma forCounts_min (opt : FlangeInputs) (size : num) :
  forall cs v v',
    countsLoop opt size cs v = Some v' ->
    minRequiredLoad v <> NaN ->
    minRequiredLoad v' <> NaN /\
    (minRequiredLoad v' <=? minRequiredLoad v) = true /\
    forall count, In count cs -> cellAbove opt size count (minRequiredLoad v').
Proof.
  induction cs as [|c cs IH]; intros v v' Hloop Hnan.
  - injection Hloop as <-.
    split; [exact Hnan|]. split; [apply le_refl; exact Hnan|].
    intros count [].
  - cbn [forCounts] in Hloop. apply bind_Some in Hloop.
    destruct Hloop as (v1 & Hstep & Hloop).
    destruct (searchStep_min _ _ _ _ _ Hstep Hnan) as (Hnan1 & Hle1 & Hcell).
    destruct (IH _ _ Hloop Hnan1) as (Hnan' & Hle' & Hrest).
    split; [exact Hnan'|].
    split; [exact (le_trans _ _ _ Hle' Hle1)|].
    intros count [<-|Hin].
    + intros r' Hr' Hf. apply lt_false_le with (minRequiredLoad v1);
        [exact (Hcell r' Hr' Hf)|exact Hle'].
    + apply Hrest. exact Hin.
Qed.

Lemma forSizes_min (opt : FlangeInputs) :
  forall ss v v',
    sizesLoop opt ss v = Some v' ->
    minRequiredLoad v <> NaN ->
    minRequiredLoad v' <> NaN /\
    (minRequiredLoad v' <=? minRequiredLoad v) = true /\
    forall size count, In size ss -> In count counts ->
                       cellAbove opt size count (minRequiredLoad v').
Proof.
  induction ss as [|s ss IH]; intros v v' Hloop Hnan.
  - injection Hloop as <-.
    split; [exact Hnan|]. split; [apply le_refl; exact Hnan|].
    intros size count [].
  - cbn [forSizes] in Hloop. apply bind_Some in Hloop.
    destruct Hloop as (v1 & Hcounts & Hloop).
    destruct (forCounts_min _ _ _ _ _ Hcounts Hnan) as (Hnan1 & Hle1 & Hcells).
    destruct (IH _ _ Hloop Hnan1) as (Hnan' & Hle' & Hrest).
    split; [exact Hnan'|].
    split; [exact (le_trans _ _ _ Hle' Hle1)|].
    intros size count [<-|Hin] Hc.
    + intros r' Hr' Hf. apply lt_false_le with (minRequiredLoad v1);
        [exact (Hcells count Hc r' Hr' Hf)|exact Hle'].
    + apply Hrest; assumption.
Qed.


(** *** The search succeeds whenever a cell is feasible *)

Local Abbreviation unsetIsInfinite v :=
  (found v = false -> minRequiredLoad v = PInf).

Lemma searchStep_found (opt : FlangeInputs) (size count : num)
      (v v' : SearchVars) :
  step opt size v count = Some v' ->
  unsetIsInfinite v ->
  unsetIsInfinite v' /\
  (found v = true -> found v' = true) /\
  (forall r, calculate (withSizeCount opt size count) = Some r ->
             feasible r = true -> found v' = true).
Proof.
  intros Hstep Hinv. unfold searchStep in Hstep.
  apply bind_Some in Hstep. destruct Hstep as (r & Hr & Hstep).
  cbv zeta in Hstep. fold (feasible r) in Hstep.
  destruct (feasible r) eqn:Hfeas.
  - destruct (requiredLoadOf r <? minRequiredLoad v) eqn:Hlt;
      injection Hstep as <-; simpl.
    + repeat split; auto; discriminate.
    + split; [exact Hinv|]. split; [auto|].
      intros _ _ _. destruct (found v) eqn:Hf; [reflexivity|].
      rewrite (Hinv eq_refl) in Hlt.
      rewrite (feasible_required_below_PInf _ Hfeas) in Hlt. discriminate.
  - injection Hstep as <-. split; [exact Hinv|]. split; [auto|].
    intros r' Hr' Hf. rewrite Hr in Hr'. injection Hr' as <-. congruence.
Qed.

Lemma forCounts_found (opt : FlangeInputs) (size : num) :
  forall cs v v',
    countsLoop opt size cs v = Some v' ->
    unsetIsInfinite v ->
    unsetIsInfinite v' /\
    (found v = true -> found v' = true) /\
    (forall count r, In count cs ->
                     calculate (withSizeCount opt size count) = Some r ->
                     feasible r = true -> found v' = true).
Proof.
  induction cs as [|c cs IH]; intros v v' Hloop Hinv.
  - injection Hloop as <-. split; [exact Hinv|]. split; [auto|].
    intros count r [].
  - cbn [forCounts] in Hloop. apply bind_Some in Hloop.
    destruct Hloop as (v1 & Hstep & Hloop).
    destruct (searchStep_found _ _ _ _ _ Hstep Hinv) as (Hinv1 & Hmono1 & Hcell).
    destruct (IH _ _ Hloop Hinv1) as (Hinv' & Hmono' & Hrest).
    split; [exact Hinv'|]. split; [auto|].
    intros count r [<-|Hin] Hr Hf.
    + apply Hmono'. exact (Hcell r Hr Hf).
    + exact (Hrest count r Hin Hr Hf).
Qed.

Lemma forSizes_found (opt : FlangeInputs) :
  forall ss v v',
    sizesLoop opt ss v = Some v' ->
    unsetIsInfinite v ->
    unsetIsInfinite v' /\
    (found v = true -> found v' = true) /\
    (forall size count r, In size ss -> In count counts ->
                          calculate (withSizeCount opt size count) = Some r ->
                          feasible r = true -> found v' = true).
Proof.
  induction ss as [|s ss IH]; intros v v' Hloop Hinv.
  - injection Hloop as <-. split; [exact Hinv|]. split; [auto|].
    intros size count r [].
  - cbn [forSizes] in Hloop. apply bind_Some in Hloop.
    destruct Hloop as (v1 & Hcounts & Hloop).
    destruct (forCounts_found _ _ _ _ _ Hcounts Hinv)
      as (Hinv1 & Hmono1 & Hcells).
    destruct (IH _ _ Hloop Hinv1) as (Hinv' & Hmono' & Hrest).
    split; [exact Hinv'|]. split; [auto|].
    intros size count r [<-|Hin] Hc Hr Hf.
    + apply Hmono'. exact (Hcells count r Hc Hr Hf).
    + exact (Hrest size count r Hin Hc Hr Hf).
Qed.

Lemma forCounts_total (opt : FlangeInputs) (size : num) :
  TEMA_BOLT_DATA <> [] -> GASKET_RING_TABLE <> [] ->
  GASKET_TYPES <> [] -> ASME_BOLT_MATERIALS <> [] ->
  forall cs v, exists v', countsLoop opt size cs v = Some v'.
Proof.
  intros Hb Hr Hg Hm. induction cs as [|c cs IH]; intro v.
  - eexists. reflexivity.
  - cbn [forCounts]. unfold searchStep.
    destruct (calculate_total Math_sqrt TEMA_BOLT_DATA
                HYDRAULIC_TENSIONING_DATA GASKET_RING_TABLE GASKET_TYPES
                ASME_BOLT_MATERIALS BOLT_TEMP_STEPS WHC_MAX_PITCH_TABLE
                (withSizeCount opt size c) Hb Hr Hg Hm) as [r Hcalc].
    rewrite Hcalc. cbn [bind]. cbv zeta.
    destruct ((marginOf r >=? Fin 0) && Res.spacingOk r);
      [destruct (requiredLoadOf r <? minRequiredLoad v)|]; apply IH.
Qed.

Lemma forSizes_total (opt : FlangeInputs) :
  TEMA_BOLT_DATA <> [] -> GASKET_RING_TABLE <> [] ->
  GASKET_TYPES <> [] -> ASME_BOLT_MATERIALS <> [] ->
  forall ss v, exists v', sizesLoop opt ss v = Some v'.
Proof.
  intros Hb Hr Hg Hm. induction ss as [|s ss IH]; intro v.
  - eexists. reflexivity.
  - cbn [forSizes].
    destruct (forCounts_total opt s Hb Hr Hg Hm counts v) as [v1 H1].
    rewrite H1. cbn [bind]. apply IH.
Qed.

(** X4.  On non-empty tables the search succeeds as soon as one cell of
    the grid is feasible: "No valid configuration found" is reported only
    when no cell is. *)
Theorem search_succeeds_when_a_cell_is_feasible
        (prev targetInputs : FlangeInputs) (fixedSize : bool)
        (size count : num) (r : CalculationResults) :
  TEMA_BOLT_DATA <> [] -> GASKET_RING_TABLE <> [] ->
  GASKET_TYPES <> [] -> ASME_BOLT_MATERIALS <> [] ->
  In size (gridSizes targetInputs fixedSize) -> In count counts ->
  calculate (withSizeCount (clearGeometryOverrides targetInputs) size count)
  = Some r ->
  feasible r = true ->
  exists next s c req mg,
    search prev targetInputs fixedSize
    = Some (next, OptimizationCompleted fixedSize s c req mg).
Proof.
  intros Hb Hr Hg Hm Hs Hc Hcalc Hfeas.
  unfold performSearch. cbv zeta.
  match goal with
  | |- context [forSizes _ _ _ _ _ _ _ _ ?opt ?sizes ?init] =>
      destruct (forSizes_total opt Hb Hr Hg Hm sizes init) as [v Hloop];
      assert (Hinit : unsetIsInfinite init) by (intros _; reflexivity);
      destruct (forSizes_found opt sizes init v Hloop Hinit)
        as (_ & _ & Hcells)
  end.
  rewrite Hloop. cbn [bind].
  rewrite (Hcells size count r Hs Hc Hcalc Hfeas).
  destruct (calculate_total Math_sqrt TEMA_BOLT_DATA
              HYDRAULIC_TENSIONING_DATA GASKET_RING_TABLE GASKET_TYPES
              ASME_BOLT_MATERIALS BOLT_TEMP_STEPS WHC_MAX_PITCH_TABLE
              (withSizeCount (clearGeometryOverrides targetInputs)
                             (bestSize v) (bestCount v)) Hb Hr Hg Hm)
    as [rf Hrf].
  rewrite Hrf. cbn [bind]. do 5 eexists. reflexivity.
Qed.

(** X5.  After a successful optimisation the stored Design Input is the
    winning cell: evaluating it gives the result the search accepted, with
    the pitch within the spacing bounds and a margin of at least zero. *)
Theorem optimized_input_is_feasible
        (inputs next : FlangeInputs) (fixedSize f : bool)
        (s c req mg : num) :
  optimize inputs fixedSize
  = Some (next, OptimizationCompleted f s c req mg) ->
  exists r,
    calculate next = Some r /\
    Res.spacingOk r = true /\ (marginOf r >=? Fin 0) = true /\
    requiredLoadOf r = req /\ marginOf r = mg /\
    Res.finalBCD r = Res.bcdTema r /\ Res.finalOD r = Res.odTema r.
Proof.
  intro H. unfold handleOptimize in H.
  destruct (search_found _ _ _ _ _ _ _ _ _ _ _ _ _ _ _ _ _ H)
    as (Hnext & _ & _ & r & Hr & Hfeas & Hreq & Hmg).
  exists r. subst next.
  split; [exact Hr|].
  unfold feasible in Hfeas. apply andb_true_iff in Hfeas.
  destruct Hfeas as [Hmargin Hok].
  destruct (calculate_geometry _ _ _ _ _ _ _ _ _ _ Hr)
    as (_ & _ & _ & _ & _ & _ & Hbcd & _ & Hod).
  repeat split; auto.
Qed.

(** *** Optimising twice *)

Local Abbreviation sameBest v1 v2 :=
  (minRequiredLoad v1 = minRequiredLoad v2 /\ found v1 = found v2 /\
   (found v1 = true ->
    bestSize v1 = bestSize v2 /\ bestCount v1 = bestCount v2)).

Lemma searchStep_sameBest (opt opt' : FlangeInputs) (size count : num)
      (v1 v2 v1' : SearchVars) :
  (forall size count,
     withSizeCount opt size count = withSizeCount opt' size count) ->
  sameBest v1 v2 ->
  step opt size v1 count = Some v1' ->
  exists v2', step opt' size v2 count = Some v2' /\ sameBest v1' v2'.
Proof.
  intros Hcell (Hmin & Hfound & Hbest) Hstep. unfold searchStep in *.
  rewrite <- Hcell.
  apply bind_Some in Hstep. destruct Hstep as (r & Hr & Hstep).
  rewrite Hr. cbn [bind]. cbv zeta in *. rewrite <- Hmin.
  destruct ((marginOf r >=? Fin 0) && Res.spacingOk r);
    [destruct (requiredLoadOf r <? minRequiredLoad v1)|];
    injection Hstep as <-; eexists; (split; [reflexivity|]);
    simpl; auto.
Qed.

Lemma forCounts_sameBest (opt opt' : FlangeInputs) (size : num) :
  (forall size count,
     withSizeCount opt size count = withSizeCount opt' size count) ->
  forall cs v1 v2 v1',
    sameBest v1 v2 ->
    countsLoop opt size cs v1 = Some v1' ->
    exists v2', countsLoop opt' size cs v2 = Some v2' /\ sameBest v1' v2'.
Proof.
  intros Hcell. induction cs as [|c cs IH]; intros v1 v2 v1' Hsame Hloop.
  - injection Hloop as <-. exists v2. split; [reflexivity|exact Hsame].
  - cbn [forCounts] in *. apply bind_Some in Hloop.
    destruct Hloop as (w1 & Hstep & Hloop).
    destruct (searchStep_sameBest _ _ _ _ _ _ _ Hcell Hsame Hstep)
      as (w2 & Hstep2 & Hsame').
    rewrite Hstep2. cbn [bind]. exact (IH _ _ _ Hsame' Hloop).
Qed.

Lemma forSizes_sameBest (opt opt' : FlangeInputs) :
  (forall size count,
     withSizeCount opt size count = withSizeCount opt' size count) ->
  forall ss v1 v2 v1',
    sameBest v1 v2 ->
    sizesLoop opt ss v1 = Some v1' ->
    exists v2', sizesLoop opt' ss v2 = Some v2' /\ sameBest v1' v2'.
Proof.
  intros Hcell. induction ss as [|s ss IH]; intros v1 v2 v1' Hsame Hloop.
  - injection Hloop as <-. exists v2. split; [reflexivity|exact Hsame].
  - cbn [forSizes] in *. apply bind_Some in Hloop.
    destruct Hloop as (w1 & Hcounts & Hloop).
    destruct (forCounts_sameBest _ _ s Hcell counts _ _ _ Hsame Hcounts)
      as (w2 & Hcounts2 & Hsame').
    rewrite Hcounts2. cbn [bind]. exact (IH _ _ _ Hsame' Hloop).
Qed.

(** X6.  Optimising is idempotent: run again on the Design Input it has
    just stored, with the same search mode, the search reports the same
    pair, load and margin and stores the same Design Input. *)
Theorem optimize_twice
        (inputs next : FlangeInputs) (fixedSize f : bool)
        (s c req mg : num) :
  optimize inputs fixedSize
  = Some (next, OptimizationCompleted f s c req mg) ->
  optimize next fixedSize
  = Some (next, OptimizationCompleted f s c req mg).
Proof.
  intro H. unfold handleOptimize in *.
  destruct (search_unfold _ _ _ _ _ _ _ _ _ H)
    as (v & Hloop & Hfound & Hs & Hc & Hreq & Hf & Hnext & r & Hr & Hmg).
  destruct (search_found _ _ _ _ _ _ _ _ _ _ _ _ _ _ _ _ _ H)
    as (_ & Hin & _).
  assert (Hsizes : gridSizes next fixedSize = gridSizes inputs fixedSize).
  { unfold sizesToSearch. destruct fixedSize; [|reflexivity].
    simpl in Hin. destruct Hin as [Hin|[]]. subst next. simpl.
    rewrite Hin. reflexivity. }
  assert (Hcell : forall size count,
             withSizeCount (clearGeometryOverrides inputs) size count
             = withSizeCount (clearGeometryOverrides next) size count).
  { intros size count. subst next. reflexivity. }
  assert (Hsame : sameBest
                    (mkSearchVars (boltSize inputs) (boltCount inputs)
                                  PInf false)
                    (mkSearchVars (boltSize next) (boltCount next)
                                  PInf false)).
  { simpl. repeat split; discriminate. }
  destruct (forSizes_sameBest _ _ Hcell _ _ _ _ Hsame Hloop)
    as (v2 & Hloop2 & Hmin & Hfound2 & Hbest).
  destruct (Hbest Hfound) as [Hbs Hbc].
  unfold performSearch. cbv zeta.
  change (boltSize (clearGeometryOverrides next)) with (boltSize next).
  change (boltCount (clearGeometryOverrides next)) with (boltCount next).
  rewrite Hsizes, Hloop2. cbn [bind].
  rewrite <- Hfound2, Hfound, <- Hbs, <- Hbc, <- Hmin, <- Hcell.
  rewrite <- Hs, <- Hc, <- Hreq, Hr. cbn [bind].
  rewrite <- Hmg, Hf. f_equal. f_equal.
  subst next. reflexivity.
Qed.

End SearchOptimality.

(** *** The search from [exampleInputs] *)

Lemma exampleOptimize_fixed_outcome :
  match exampleOptimize exampleInputs true with
  | Some (_, OptimizationCompleted _ s c _ _) => Some (s, c)
  | _ => None
  end = Some (Fin 0.75, Fin (inject_Z 20)).
Proof. vm_compute. reflexivity. Qed.

Lemma exampleOptimize_full_outcome :
  match exampleOptimize exampleInputs false with
  | Some (_, OptimizationCompleted _ s c _ _) => Some (s, c)
  | _ => None
  end = Some (Fin 0.75, Fin (inject_Z 20)).
Proof. vm_compute. reflexivity. Qed.

Lemma exampleCells_feasible :
  match exampleCalculate exampleCell_34_20, exampleCalculate exampleCell_1_24
  with
  | Some r, Some r' => feasible r = true /\ feasible r' = true
  | _, _ => False
  end.
Proof. vm_compute. split; reflexivity. Qed.

Lemma exampleCells_in_grid :
  In (Fin 0.75) (sizesToSearch exampleBolts
                               (clearGeometryOverrides exampleInputs) false) /\
  In (Fin 1) (sizesToSearch exampleBolts
                            (clearGeometryOverrides exampleInputs) false) /\
  In (Fin (inject_Z 20)) counts /\ In (Fin (inject_Z 24)) counts.
Proof. simpl. tauto. Qed.

(** A fixed-size search from [exampleInputs] stays at 3/4 inch. *)
Lemma fixed_size_search_keeps_size_witness :
  match exampleOptimize exampleInputs true with
  | Some (next, OptimizationCompleted _ s c _ _) =>
      s = boltSize exampleInputs /\ boltSize next = boltSize exampleInputs /\
      In c counts /\ boltCount next = c
  | _ => False
  end.
Proof.
  pose proof exampleOptimize_fixed_outcome as Hout.
  destruct (exampleOptimize exampleInputs true)
    as [[next [f s c req mg|f b]]|] eqn:E; try discriminate Hout.
  clear Hout.
  exact (fixed_size_search_keeps_size
           _ _ _ _ _ _ _ _ _ _ _ _ _ _ _ E).
Defined.

(** The pair a full search from [exampleInputs] reports is in the grid. *)
Lemma full_search_pair_from_grid_witness :
  match exampleSearch exampleInputs exampleInputs false with
  | Some (_, OptimizationCompleted _ s c _ _) =>
      (exists b, In b exampleBolts /\ Bolt.size b = s) /\
      (s >=? Fin 0.75) = true /\
      exists k : Z, (1 <= k <= 20)%Z /\ c = Fin (inject_Z (4 * k))
  | _ => False
  end.
Proof.
  pose proof exampleOptimize_full_outcome as Hout.
  unfold handleOptimize in Hout.
  destruct (exampleSearch exampleInputs exampleInputs false)
    as [[next [f s c req mg|f b]]|] eqn:E; try discriminate Hout.
  clear Hout.
  exact (full_search_pair_from_grid
           _ _ _ _ _ _ _ _ _ _ _ _ _ _ _ _ E).
Defined.


(** Twenty 3/4 inch bolts are feasible for [exampleInputs], so the search
    from it succeeds. *)
Lemma search_succeeds_when_a_cell_is_feasible_witness :
  exists next s c req mg,
    exampleSearch exampleInputs exampleInputs false
    = Some (next, OptimizationCompleted false s c req mg).
Proof.
  pose proof exampleCells_feasible as Hcells.
  destruct exampleCells_in_grid as (Hs & _ & Hc & _).
  destruct exampleTables_nonempty as (Hb & Hr & Hg & Hm).
  destruct (exampleCalculate exampleCell_34_20) as [r|] eqn:E;
    [|contradiction].
  destruct (exampleCalculate exampleCell_1_24) as [r'|]; [|contradiction].
  destruct Hcells as [Hf _].
  exact (search_succeeds_when_a_cell_is_feasible
           exampleSqrt exampleBolts exampleTension exampleRings
           exampleGaskets exampleMaterials exampleSteps examplePitch
           exampleInputs exampleInputs false
           (Fin 0.75) (Fin (inject_Z 20)) r Hb Hr Hg Hm Hs Hc E Hf).
Defined.

(** After optimising [exampleInputs] the stored input evaluates as
    feasible. *)
Lemma optimized_input_is_feasible_witness :
  match exampleOptimize exampleInputs false with
  | Some (next, OptimizationCompleted _ _ _ req mg) =>
      exists r,
        exampleCalculate next = Some r /\
        Res.spacingOk r = true /\ (marginOf r >=? Fin 0) = true /\
        requiredLoadOf r = req /\ marginOf r = mg /\
        Res.finalBCD r = Res.bcdTema r /\ Res.finalOD r = Res.odTema r
  | _ => False
  end.
Proof.
  pose proof exampleOptimize_full_outcome as Hout.
  destruct (exampleOptimize exampleInputs false)
    as [[next [f s c req mg|f b]]|] eqn:E; try discriminate Hout.
  clear Hout.
  exact (optimized_input_is_feasible
           _ _ _ _ _ _ _ _ _ _ _ _ _ _ _ _ E).
Defined.

(** Optimising [exampleInputs] a second time changes nothing. *)
Lemma optimize_twice_witness :
  match exampleOptimize exampleInputs false with
  | Some (next, OptimizationCompleted f s c req mg) =>
      exampleOptimize next false
      = Some (next, OptimizationCompleted f s c req mg)
  | _ => False
  end.
Proof.
  pose proof exampleOptimize_full_outcome as Hout.
  destruct (exampleOptimize exampleInputs false)
    as [[next [f s c req mg|f b]]|] eqn:E; try discriminate Hout.
  clear Hout.
  exact (optimize_twice _ _ _ _ _ _ _ _ _ _ _ _ _ _ _ _ E).
Defined.

(* ===================================================================== *)
(** * Further properties of [calculateFullResults] *)
(* ===================================================================== *)

Lemma Math_max_le_l (a b : num) :
  Math_max a b <> NaN -> (a <=? Math_max a b) = true.
Proof.
  intro H. apply Math_max_ge_l; intro E; apply H; apply Math_max_NaN; auto.
Qed.

Lemma Math_max_le_r (a b : num) :
  Math_max a b <> NaN -> (b <=? Math_max a b) = true.
Proof.
  intro H. apply Math_max_ge_r; intro E; apply H; apply Math_max_NaN; auto.
Qed.

Lemma Math_max3_le (a b c : num) :
  Math_max3 a b c <> NaN ->
  (a <=? Math_max3 a b c) = true /\ (b <=? Math_max3 a b c) = true /\
  (c <=? Math_max3 a b c) = true.
Proof.
  unfold Math_max3. intro H.
  assert (Hab : Math_max a b <> NaN)
    by (intro E; apply H; apply Math_max_NaN; auto).
  pose proof (Math_max_le_l _ _ H) as H1.
  repeat split.
  - exact (le_trans _ _ _ (Math_max_le_l _ _ Hab) H1).
  - exact (le_trans _ _ _ (Math_max_le_r _ _ Hab) H1).
  - exact (Math_max_le_r _ _ H).
Qed.

(** A circle of diameter at least [ceil(b * n / pi)] gives [n] bolts a
    pitch of at least [b]. *)
Lemma pitch_at_least_spacing (p : Q) (b n T : num) :
  (0 < p)%Q -> finite n -> (n >? Fin 0) = true ->
  (Math_ceil ((b * n) / Fin p) <=? T) = true ->
  ((Fin p * T) / n >=? b) = true.
Proof.
  intros Hp Hn Hpos Hle. unfold ge, gt in *.
  destruct n as [q| | |]; simpl in Hn; try contradiction.
  simpl in Hpos. qprops.
  assert (Ezp : Qzerob p = false) by (apply Qzerob_false; lra).
  assert (Ezq : Qzerob q = false) by (apply Qzerob_false; lra).
  assert (Elp : Qltb 0 p = true) by (apply Qltb_true; lra).
  assert (Elq : Qltb 0 q = true) by (apply Qltb_true; lra).
  assert (Enq : Qltb q 0 = false) by (apply Qltb_false; lra).
  assert (Enp : Qltb p 0 = false) by (apply Qltb_false; lra).
  destruct b as [x| | |], T as [t| | |]; simpl in *;
    rewrite ?Ezp, ?Ezq in *; unfold inf_of_sign in *; simpl in *;
    rewrite ?Elp, ?Elq, ?Enq, ?Enp in *; simpl in *;
    rewrite ?Ezp, ?Ezq, ?Enq, ?Enp in *; simpl in *;
    try reflexivity; try discriminate.
  qprops. apply Qle_bool_iff.
  pose proof (Qle_ceiling (x * q / p)) as Hc.
  assert (Hxq : x * q / p <= t) by lra.
  apply Qle_shift_div_l; [exact Hpos|].
  assert (Hmul : x * q / p * p <= t * p)
    by (apply Qmult_le_compat_r; lra).
  assert (E : x * q / p * p == x * q) by (field; lra).
  lra.
Qed.

Lemma Math_PI_positive : exists p, Math_PI = Fin p /\ (0 < p)%Q.
Proof. eexists. split; [reflexivity|]. reflexivity. Qed.

Section CalculateMore.

Variable Math_sqrt : num -> num.
Variable TEMA_BOLT_DATA : list Bolt.t.
Variable HYDRAULIC_TENSIONING_DATA : list Tension.t.
Variable GASKET_RING_TABLE : list Ring.t.
Variable GASKET_TYPES : list Gasket.t.
Variable ASME_BOLT_MATERIALS : list Material.t.
Variable BOLT_TEMP_STEPS : list num.
Variable WHC_MAX_PITCH_TABLE : list (num * num).

Local Abbreviation calculate :=
  (calculateFullResults Math_sqrt TEMA_BOLT_DATA HYDRAULIC_TENSIONING_DATA
     GASKET_RING_TABLE GASKET_TYPES ASME_BOLT_MATERIALS BOLT_TEMP_STEPS
     WHC_MAX_PITCH_TABLE).

Local Abbreviation geometryOf i r H :=
  (calculate_geometry Math_sqrt TEMA_BOLT_DATA HYDRAULIC_TENSIONING_DATA
     GASKET_RING_TABLE GASKET_TYPES ASME_BOLT_MATERIALS BOLT_TEMP_STEPS
     WHC_MAX_PITCH_TABLE i r H).

Local Abbreviation ringsOf i r H :=
  (calculate_rings Math_sqrt TEMA_BOLT_DATA HYDRAULIC_TENSIONING_DATA
     GASKET_RING_TABLE GASKET_TYPES ASME_BOLT_MATERIALS BOLT_TEMP_STEPS
     WHC_MAX_PITCH_TABLE i r H).

(** The fields that come from the bolt row. *)
Lemma calculate_bolt_fields (i : FlangeInputs) (r : CalculationResults) :
  calculate i = Some r ->
  exists boltData,
    orElse (find (fun b => Bolt.size b === boltSize i) TEMA_BOLT_DATA)
           (hd_error TEMA_BOLT_DATA) = Some boltData /\
    Res.radialDistance r = Bolt.R boltData * Fin 25.4 /\
    Res.edgeDistance r = Bolt.E boltData * Fin 25.4 /\
    Res.boltSpacingMin r
    = match useHydraulicTensioning i,
            find (fun t => Tension.size t === boltSize i)
                 HYDRAULIC_TENSIONING_DATA with
      | true, Some tensionData =>
          Math_max (Bolt.B_min boltData) (Tension.B_ten tensionData)
      | _, _ => Bolt.B_min boltData
      end * Fin 25.4 /\
    Res.bcdMethod1 r
    = Math_ceil ((Res.boltSpacingMin r * boltCount i) / Math_PI) /\
    Res.bcdMethod2 r
    = Math_ceil (insideDia i + (Fin 2 * g1 i)
                 + (Fin 2 * Res.radialDistance r)) /\
    Res.geometricPitch r = (Math_PI * Res.finalBCD r) / boltCount i /\
    Res.maxBoltSpacing r
    = (pitchAt WHC_MAX_PITCH_TABLE (boltSize i)
       || (Fin 2.5 * (boltSize i * Fin 25.4) + Fin 12)) /\
    Res.maxRaisedFace r
    = Res.finalBCD r - Res.boltHoleSize r - (Fin 2 * Res.effectiveC r)
      - (Fin 2 * Fin 1.5) - (Fin 2 * Res.outerRingWidth r) /\
    Res.gasketID r
    = Res.seatingID r
      - (if hasInnerRing i then Fin 2 * Res.innerRingWidth r else Fin 0).
Proof.
  intro H. calc_inv H.
  match goal with
  | E : orElse (find _ TEMA_BOLT_DATA) _ = Some ?b |- _ =>
      exists b; split; [exact E|repeat split]
  end.
Qed.

(** X7.  With no manual B.C.D and a finite positive bolt count the result
    table never shows "PITCH TOO SMALL": the geometric pitch is not below
    the minimum bolt spacing less the 0.1 mm the table allows. *)
Theorem auto_bcd_never_pitch_too_small
        (i : FlangeInputs) (r : CalculationResults) :
  calculate i = Some r ->
  (actualBCD i !== Fin 0) = false ->
  finite (boltCount i) -> (boltCount i >? Fin 0) = true ->
  isPitchTooSmall r = false.
Proof.
  intros H Hauto Hfin Hpos.
  destruct (geometryOf _ _ H) as (_ & _ & _ & _ & Htema & _ & Hbcd & _).
  destruct (calculate_bolt_fields _ _ H)
    as (bd & _ & _ & _ & _ & Hm1 & _ & Hpitch & _).
  rewrite Hauto in Hbcd. unfold isPitchTooSmall.
  assert (Hcase : Res.bcdTema r = NaN \/ Res.bcdTema r <> NaN)
    by (destruct (Res.bcdTema r); [right; discriminate ..|left; reflexivity]).
  destruct Hcase as [En|Hnan].
  - rewrite Hpitch, Hbcd, En.
    destruct Math_PI_positive as (p & -> & _). reflexivity.
  - assert (Hlow : (Res.geometricPitch r >=? Res.boltSpacingMin r) = true).
    { rewrite Hpitch, Hbcd.
      destruct Math_PI_positive as (p & Ep & Hp).
      rewrite Ep in *.
      apply pitch_at_least_spacing; try assumption.
      rewrite <- Hm1. rewrite Htema in *.
      apply (Math_max3_le _ _ _ Hnan). }
    unfold ge in Hlow.
    destruct (Res.geometricPitch r) as [x| | |],
             (Res.boltSpacingMin r) as [y| | |];
      simpl in *; try reflexivity; try discriminate.
    qprops. apply Qltb_false. lra.
Qed.

(** X8.  With no manual B.C.D, and candidates that are numbers, the final
    B.C.D is at least each of the three candidates as the engine computes
    them: the circle of the minimum pitch, the hub circle
    [insideDia + 2 * g1 + 2 * R], and
    [gasketOD + 2 * 1.5 + 2 * clearance + hole], so the gasket and its
    outer ring stay clear of the bolt holes. *)
Theorem auto_bcd_meets_every_candidate
        (i : FlangeInputs) (r : CalculationResults) :
  calculate i = Some r ->
  (actualBCD i !== Fin 0) = false ->
  Res.bcdTema r <> NaN ->
  (Math_ceil ((Res.boltSpacingMin r * boltCount i) / Math_PI)
   <=? Res.finalBCD r) = true /\
  (Math_ceil (insideDia i + (Fin 2 * g1 i) + (Fin 2 * Res.radialDistance r))
   <=? Res.finalBCD r) = true /\
  (Res.gasketOD r + (Fin 2 * Fin 1.5) + (Fin 2 * Res.effectiveC r)
   + Res.boltHoleSize r <=? Res.finalBCD r) = true.
Proof.
  intros H Hauto Hnan.
  destruct (geometryOf _ _ H) as (_ & _ & _ & Hm3 & Htema & _ & Hbcd & _).
  destruct (calculate_bolt_fields _ _ H)
    as (bd & _ & _ & _ & _ & Hm1 & Hm2 & _).
  rewrite Hauto in Hbcd.
  rewrite <- Hm1, <- Hm2, <- Hm3, Hbcd.
  rewrite Htema in *. apply (Math_max3_le _ _ _ Hnan).
Qed.

(** X9.  With no manual seating diameters, a contact width and ring widths
    that are not negative, the four gasket diameters are ordered:
    [gasketID <= seatingID <= seatingOD <= gasketOD]. *)
Theorem auto_gasket_diameters_ordered
        (i : FlangeInputs) (r : CalculationResults) :
  calculate i = Some r ->
  (manualSeatingID i !== Fin 0) = false ->
  (manualSeatingOD i !== Fin 0) = false ->
  nonneg (gasketSeatingWidth i) ->
  nonneg (Res.innerRingWidth r) -> nonneg (Res.outerRingWidth r) ->
  finite (Res.seatingOD r) ->
  (Res.gasketID r <=? Res.seatingID r) = true /\
  (Res.seatingID r <=? Res.seatingOD r) = true /\
  (Res.seatingOD r <=? Res.gasketOD r) = true.
Proof.
  intros H Hid0 Hod0 Nn Ni No Fod.
  destruct (geometryOf _ _ H) as (Hod & Hid & Hgod & _).
  destruct (calculate_bolt_fields _ _ H)
    as (bd & _ & _ & _ & _ & _ & _ & _ & _ & _ & Hgid).
  rewrite Hid0 in Hid. rewrite Hod0 in Hod.
  unfold autoSeatingIDOf in Hid. rewrite <- Hod in Hid.
  rewrite Hgid, Hgod, Hid.
  destruct (Res.seatingOD r) as [od| | |]; simpl in Fod; try contradiction.
  destruct (gasketSeatingWidth i) as [n| | |]; simpl in Nn; try contradiction.
  destruct (Res.innerRingWidth r) as [wi| | |]; simpl in Ni;
    try contradiction.
  destruct (Res.outerRingWidth r) as [wo| | |]; simpl in No;
    try contradiction.
  destruct (hasInnerRing i), (hasOuterRing i); simpl;
    repeat split; apply Qle_bool_iff; lra.
Qed.

(** X10.  Method 1 never decreases with the bolt count: more bolts of the
    same size never give a smaller minimum-pitch B.C.D. *)
Theorem bcdMethod1_monotone_in_count
        (i : FlangeInputs) (count' : num) (r r' : CalculationResults) :
  calculate i = Some r ->
  calculate (withSizeCount i (boltSize i) count') = Some r' ->
  nonneg (Res.boltSpacingMin r) ->
  finite (boltCount i) -> finite count' ->
  (boltCount i <=? count') = true ->
  Res.boltSpacingMin r' = Res.boltSpacingMin r /\
  (Res.bcdMethod1 r <=? Res.bcdMethod1 r') = true.
Proof.
  intros H H' Nb Fn Fn' Hle.
  destruct (calculate_bolt_fields _ _ H) as (bd & Hrow & _ & _ & Hs & Hm1 & _).
  destruct (calculate_bolt_fields _ _ H')
    as (bd' & Hrow' & _ & _ & Hs' & Hm1' & _).
  cbn [boltSize boltCount useHydraulicTensioning withSizeCount] in *.
  rewrite Hrow in Hrow'. injection Hrow' as <-.
  assert (Hsame : Res.boltSpacingMin r' = Res.boltSpacingMin r)
    by (rewrite Hs, Hs'; reflexivity).
  split; [exact Hsame|].
  rewrite Hm1, Hm1', Hsame.
  destruct Math_PI_positive as (p & -> & Hp).
  destruct (Res.boltSpacingMin r) as [b| | |]; simpl in Nb; try contradiction.
  destruct (boltCount i) as [n| | |]; simpl in Fn; try contradiction.
  destruct count' as [n'| | |]; simpl in Fn'; try contradiction.
  simpl in Hle. qprops. simpl.
  assert (Ezp : Qzerob p = false) by (apply Qzerob_false; lra).
  rewrite Ezp. simpl. apply Qle_bool_iff.
  rewrite <- Zle_Qle. apply Qceiling_resp_le.
  apply Qmult_le_compat_r; [|apply Qlt_le_weak, Qinv_lt_0_compat; exact Hp].
  rewrite !(Qmult_comm b). apply Qmult_le_compat_r; assumption.
Qed.

Lemma mul_le_mono_r (a b : num) (c : Q) :
  (0 < c)%Q -> b * Fin c <> NaN ->
  (a <=? b) = true -> (a * Fin c <=? b * Fin c) = true.
Proof.
  intros Hc Hn Hle.
  assert (Ez : Qzerob c = false) by (apply Qzerob_false; lra).
  assert (El : Qltb 0 c = true) by (apply Qltb_true; lra).
  destruct a as [x| | |], b as [y| | |]; simpl in *;
    rewrite ?Ez in *; unfold inf_of_sign; rewrite ?El; simpl;
    try reflexivity; try discriminate.
  qprops. apply Qle_bool_iff. apply Qmult_le_compat_r; lra.
Qed.

(** X11.  Switching hydraulic bolt tensioning on never lowers the minimum
    bolt spacing; for a size without a tensioning row it changes
    nothing. *)
Theorem tensioning_never_lowers_spacing
        (i : FlangeInputs) (r r' : CalculationResults) :
  useHydraulicTensioning i = false ->
  calculate i = Some r ->
  calculate (toggleHydraulicTensioning i) = Some r' ->
  Res.boltSpacingMin r' <> NaN ->
  (Res.boltSpacingMin r <=? Res.boltSpacingMin r') = true /\
  (find (fun t => Tension.size t === boltSize i) HYDRAULIC_TENSIONING_DATA
   = None ->
   Res.boltSpacingMin r' = Res.boltSpacingMin r).
Proof.
  intros Hoff H H' Hnan.
  destruct (calculate_bolt_fields _ _ H) as (bd & Hrow & _ & _ & Hs & _).
  destruct (calculate_bolt_fields _ _ H') as (bd' & Hrow' & _ & _ & Hs' & _).
  cbn [boltSize useHydraulicTensioning toggleHydraulicTensioning] in *.
  rewrite Hrow in Hrow'. injection Hrow' as <-.
  rewrite Hoff in *. cbn [negb] in *.
  rewrite Hs, Hs' in *.
  destruct (find (fun t => Tension.size t === boltSize i)
                 HYDRAULIC_TENSIONING_DATA) as [t|].
  - split; [|discriminate].
    apply mul_le_mono_r; [reflexivity|exact Hnan|].
    apply Math_max_le_l. intro E. apply Hnan. rewrite E. reflexivity.
  - split; [|reflexivity]. apply le_refl. exact Hnan.
Qed.

(** X12.  A key that matches no row falls back: an unknown bolt size to
    the first bolt row (hole, minimum spacing, radial and edge distance,
    tensile area), an unknown bolt material to the first material, an
    unknown gasket type to the first gasket row, an unknown pass-partition
    gasket type to the row of the flange gasket (both factors), and a size
    without a maximum-pitch entry to [2.5 * d + 12]. *)
Theorem unmatched_keys_fall_back
        (i : FlangeInputs) (r : CalculationResults) :
  calculate i = Some r ->
  ((forall b, In b TEMA_BOLT_DATA -> (Bolt.size b === boltSize i) = false) ->
   exists b0 rest,
     TEMA_BOLT_DATA = b0 :: rest /\
     Res.singleBoltArea r = Bolt.tensileArea b0 /\
     Res.totalBoltArea r = Bolt.tensileArea b0 * boltCount i /\
     Res.boltHoleSize r = Math_ceil (Bolt.holeSize b0) /\
     Res.boltSpacingMin r
     = match useHydraulicTensioning i,
             find (fun t => Tension.size t === boltSize i)
                  HYDRAULIC_TENSIONING_DATA with
       | true, Some tensionData =>
           Math_max (Bolt.B_min b0) (Tension.B_ten tensionData)
       | _, _ => Bolt.B_min b0
       end * Fin 25.4 /\
     Res.radialDistance r = Bolt.R b0 * Fin 25.4 /\
     Res.edgeDistance r = Bolt.E b0 * Fin 25.4) /\
  ((forall m, In m ASME_BOLT_MATERIALS ->
              String.eqb (Material.id m) (boltMaterial i) = false) ->
   exists m0 rest,
     ASME_BOLT_MATERIALS = m0 :: rest /\
     Res.ambientAllowableStress r = ambientOf (Material.stresses m0) /\
     Res.designAllowableStress r
     = interpolateStress BOLT_TEMP_STEPS
         (toCelsius (designTemp i) (tempUnit i)) (Material.stresses m0)) /\
  ((forall g, In g GASKET_TYPES ->
              String.eqb (Gasket.id g) (gasketType i) = false) ->
   ((manualM i !== Fin 0) = false ->
    Some (Res.gasketM r) = option_map Gasket.m (hd_error GASKET_TYPES)) /\
   ((manualY i !== Fin 0) = false ->
    Some (Res.gasketY r) = option_map Gasket.y (hd_error GASKET_TYPES))) /\
  ((forall g, In g GASKET_TYPES ->
              String.eqb (Gasket.id g) (passGasketType i) = false) ->
   ((manualPassM i !== Fin 0) = false ->
    Some (Res.passM r) = option_map Gasket.m (gTypeOf GASKET_TYPES i)) /\
   ((manualPassY i !== Fin 0) = false ->
    Some (Res.passY r) = option_map Gasket.y (gTypeOf GASKET_TYPES i))) /\
  ((forall e, In e WHC_MAX_PITCH_TABLE -> (fst e === boltSize i) = false) ->
   Res.maxBoltSpacing r = Fin 2.5 * (boltSize i * Fin 25.4) + Fin 12).
Proof.
  intro H.
  destruct (calculate_bolt_fields _ _ H)
    as (bd & Hrow & HR & HE & Hs & _ & _ & _ & Hmax & _).
  destruct (calculate_boltData Math_sqrt TEMA_BOLT_DATA
              HYDRAULIC_TENSIONING_DATA GASKET_RING_TABLE GASKET_TYPES
              ASME_BOLT_MATERIALS BOLT_TEMP_STEPS WHC_MAX_PITCH_TABLE _ _ H)
    as (bd' & Hrow' & Hhole & Harea & Htotal).
  rewrite Hrow in Hrow'. injection Hrow' as <-.
  destruct (calculate_loads Math_sqrt TEMA_BOLT_DATA
              HYDRAULIC_TENSIONING_DATA GASKET_RING_TABLE GASKET_TYPES
              ASME_BOLT_MATERIALS BOLT_TEMP_STEPS WHC_MAX_PITCH_TABLE _ _ H)
    as (_ & _ & _ & mat & Hmat & Hdes & Hamb).
  destruct (calculate_factors Math_sqrt TEMA_BOLT_DATA
              HYDRAULIC_TENSIONING_DATA GASKET_RING_TABLE GASKET_TYPES
              ASME_BOLT_MATERIALS BOLT_TEMP_STEPS WHC_MAX_PITCH_TABLE _ _ H)
    as (Hm & Hy & Hpm & Hpy).
  split; [|split; [|split; [|split]]].
  - intro Hnone. rewrite (find_none_all _ _ Hnone) in Hrow.
    destruct TEMA_BOLT_DATA as [|b0 rest]; [discriminate|].
    injection Hrow as <-. exists b0, rest. repeat split; assumption.
  - intro Hnone. rewrite (find_none_all _ _ Hnone) in Hmat.
    destruct ASME_BOLT_MATERIALS as [|m0 rest]; [discriminate|].
    injection Hmat as <-. exists m0, rest. repeat split; assumption.
  - intro Hnone. unfold gTypeOf in Hm, Hy.
    rewrite (find_none_all _ _ Hnone) in Hm, Hy. cbn [orElse] in Hm, Hy.
    split.
    + intro Hm0. rewrite Hm0 in Hm. symmetry. exact Hm.
    + intro Hy0. rewrite Hy0 in Hy. symmetry. exact Hy.
  - intro Hnone. unfold passGTypeOf in Hpm, Hpy.
    rewrite (find_none_all _ _ Hnone) in Hpm, Hpy. split.
    + intro Hpm0. rewrite Hpm0 in Hpm. symmetry. exact Hpm.
    + intro Hpy0. rewrite Hpy0 in Hpy. symmetry. exact Hpy.
  - intro Hnone. rewrite Hmax. unfold pitchAt.
    rewrite (find_none_all _ _ Hnone). reflexivity.
Qed.

(** X13.  Whenever the engine accepts the pitch ([spacingOk]), the result
    table shows "PITCH OK": its two tests allow 0.1 mm more on each side. *)
Theorem spacing_ok_shows_pitch_ok
        (i : FlangeInputs) (r : CalculationResults) :
  calculate i = Some r ->
  Res.spacingOk r = true ->
  isPitchTooSmall r = false /\ isPitchTooLarge r = false /\
  spacingStatus r = "PITCH OK".
Proof.
  intros H Hok.
  destruct (calculate_loads _ _ _ _ _ _ _ _ _ _ H) as (_ & Hdef & _).
  rewrite Hdef in Hok. apply andb_true_iff in Hok. destruct Hok as [Hlo Hhi].
  unfold ge in Hlo.
  assert (Hs : isPitchTooSmall r = false).
  { unfold isPitchTooSmall.
    destruct (Res.geometricPitch r) as [x| | |],
             (Res.boltSpacingMin r) as [y| | |];
      simpl in *; try reflexivity; try discriminate.
    qprops. apply Qltb_false. lra. }
  assert (Hl : isPitchTooLarge r = false).
  { unfold isPitchTooLarge, gt.
    destruct (Res.geometricPitch r) as [x| | |],
             (Res.maxBoltSpacing r) as [y| | |];
      simpl in *; try reflexivity; try discriminate.
    qprops. apply Qltb_false. lra. }
  unfold spacingStatus. rewrite Hs, Hl. auto.
Qed.

(** *** When the engine throws *)

Lemma orElse_hd_None {A : Type} (f : A -> bool) (xs : list A) :
  orElse (find f xs) (hd_error xs) = None <-> xs = [].
Proof.
  split; [|intros ->; reflexivity].
  destruct xs as [|x xs]; [reflexivity|]. simpl.
  destruct (f x); [discriminate|]. destruct (find f xs); discriminate.
Qed.

Lemma nil_or_not {A : Type} (xs : list A) : xs = [] \/ xs <> [].
Proof. destruct xs; [left; reflexivity|right; discriminate]. Qed.

(** Peels the [bind]s of a run that throws. *)
Ltac bind_none :=
  repeat (cbv zeta;
          match goal with
          | |- bind ?c _ = None =>
              let E := fresh "E" in
              destruct c eqn:E; cbn [bind];
              [try (exfalso; simpl in E; congruence)|reflexivity]
          end).

Lemma calculate_total_weak (i : FlangeInputs) :
  TEMA_BOLT_DATA <> [] -> ASME_BOLT_MATERIALS <> [] ->
  (GASKET_RING_TABLE = [] -> needsRingTable i = false) ->
  (GASKET_TYPES = [] -> needsGasketTable i = false) ->
  exists r, calculate i = Some r.
Proof.
  intros Hb Hm Hring Hgasket. unfold calculateFullResults.
  unfold needsRingTable, needsGasketTable in *.
  apply bind_exists.
  { destruct (hasInnerRing i), (truthy (innerRingWidthManual i));
      simpl; try (eexists; reflexivity).
    assert (Hne : GASKET_RING_TABLE <> [])
      by (intro E; specialize (Hring E); simpl in Hring; discriminate).
    destruct (ringConfigOf_Some GASKET_RING_TABLE (insideDia i) Hne)
      as [cfg ->].
    eexists. reflexivity. }
  intro innerRingWidth. apply bind_exists.
  { destruct (hasOuterRing i), (truthy (outerRingWidthManual i));
      simpl; try (eexists; reflexivity).
    assert (Hne : GASKET_RING_TABLE <> [])
      by (intro E; specialize (Hring E); simpl in Hring;
          rewrite orb_true_r in Hring; discriminate).
    destruct (ringConfigOf_Some GASKET_RING_TABLE (insideDia i) Hne)
      as [cfg ->].
    eexists. reflexivity. }
  intro outerRingWidth. cbv zeta. apply bind_exists.
  { apply orElse_hd_Some, Hb. }
  intro boltData. cbv zeta.
  destruct (nil_or_not GASKET_TYPES) as [Eg|Hg].
  - specialize (Hgasket Eg).
    apply orb_false_iff in Hgasket. destruct Hgasket as [Hgasket H4].
    apply orb_false_iff in Hgasket. destruct Hgasket as [Hgasket H3].
    apply orb_false_iff in Hgasket. destruct Hgasket as [H1 H2].
    apply negb_false_iff in H1, H2, H3, H4.
    rewrite H1, H2, H3, H4. cbn [bind].
    apply bind_exists; [apply orElse_hd_Some, Hm|].
    intro mat. eexists. reflexivity.
  - destruct (orElse_hd_Some
                (find (fun g => String.eqb (Gasket.id g) (gasketType i))
                      GASKET_TYPES) _ Hg) as [gType EgType].
    rewrite EgType.
    apply bind_exists.
    { destruct (manualM i !== Fin 0); simpl; eexists; reflexivity. }
    intro gasketM. apply bind_exists.
    { destruct (manualY i !== Fin 0); simpl; eexists; reflexivity. }
    intro gasketY. cbv zeta.
    assert (Epass : exists pg,
               orElse (find (fun g => String.eqb (Gasket.id g)
                                                 (passGasketType i))
                            GASKET_TYPES) (Some gType) = Some pg).
    { destruct (find (fun g => String.eqb (Gasket.id g) (passGasketType i))
                     GASKET_TYPES); simpl; eexists; reflexivity. }
    destruct Epass as [pg Epg]. rewrite Epg.
    apply bind_exists.
    { destruct (manualPassM i !== Fin 0); simpl; eexists; reflexivity. }
    intro passM. apply bind_exists.
    { destruct (manualPassY i !== Fin 0); simpl; eexists; reflexivity. }
    intro passY. cbv zeta. apply bind_exists.
    { apply orElse_hd_Some, Hm. }
    intro mat. eexists. reflexivity.
Qed.

(** X14.  [calculateFullResults] throws exactly when a table it has to
    read a row from is empty: the bolt table, the bolt material table, the
    ring table while a present ring has no manual width, or the gasket
    table while one of the four gasket factors has no manual value. *)
Theorem calculate_throws_iff (i : FlangeInputs) :
  calculate i = None <->
  TEMA_BOLT_DATA = [] \/ ASME_BOLT_MATERIALS = [] \/
  (GASKET_RING_TABLE = [] /\ needsRingTable i = true) \/
  (GASKET_TYPES = [] /\ needsGasketTable i = true).
Proof.
  split.
  - intro Hnone.
    destruct (nil_or_not TEMA_BOLT_DATA) as [Eb|Hb]; [auto|].
    destruct (nil_or_not ASME_BOLT_MATERIALS) as [Em|Hm]; [auto|].
    destruct (nil_or_not GASKET_RING_TABLE) as [Er|Hr];
      destruct (needsRingTable i) eqn:Hring; [auto 6| | |];
      (destruct (nil_or_not GASKET_TYPES) as [Eg|Hg];
       destruct (needsGasketTable i) eqn:Hgasket; [auto 6| | |]);
      exfalso;
      (destruct (calculate_total_weak i) as [r Hr'];
       [exact Hb|exact Hm
       |first [intros _; exact Hring | intro E; contradiction]
       |first [intros _; exact Hgasket | intro E; contradiction]
       |congruence]).
  - unfold calculateFullResults, needsRingTable, needsGasketTable.
    intros [E|[E|[[E Hneed]|[E Hneed]]]]; rewrite E in *; clear E.
    + bind_none.
    + bind_none.
    + destruct (hasInnerRing i), (truthy (innerRingWidthManual i)),
               (hasOuterRing i), (truthy (outerRingWidthManual i));
        simpl in Hneed; try discriminate; bind_none.
    + destruct (manualM i !== Fin 0), (manualY i !== Fin 0),
               (manualPassM i !== Fin 0), (manualPassY i !== Fin 0);
        simpl in Hneed; try discriminate; bind_none.
Qed.

End CalculateMore.

(** ** The further properties on the example inputs *)

Lemma exampleResult_facts :
  match exampleCalculate exampleInputs with
  | Some r =>
      finite (Res.seatingOD r) /\ finite (Res.effectiveC r) /\
      finite (Res.boltHoleSize r) /\
      nonneg (Res.innerRingWidth r) /\ nonneg (Res.outerRingWidth r) /\
      nonneg (Res.boltSpacingMin r) /\ Res.bcdTema r <> NaN
  | None => False
  end.
Proof.
  vm_compute. repeat split; try exact I; intro; discriminate.
Qed.

Lemma nonneg_finite (a : num) : nonneg a -> finite a.
Proof. destruct a; simpl; auto. Qed.

(** The engine on [exampleInputs]: the pitch is not too small. *)
Lemma auto_bcd_never_pitch_too_small_witness :
  match exampleCalculate exampleInputs with
  | Some r => isPitchTooSmall r = false
  | None => False
  end.
Proof.
  destruct (exampleCalculate exampleInputs) as [r|] eqn:E;
    [|vm_compute in E; discriminate E].
  exact (auto_bcd_never_pitch_too_small
           _ _ _ _ _ _ _ _ _ _ E eq_refl I eq_refl).
Defined.

(** The engine on [exampleInputs]: the final B.C.D meets the three
    candidates. *)
Lemma auto_bcd_meets_every_candidate_witness :
  match exampleCalculate exampleInputs with
  | Some r =>
      (Math_ceil ((Res.boltSpacingMin r * Fin 12) / Math_PI)
       <=? Res.finalBCD r) = true /\
      (Math_ceil (Fin 300 + (Fin 2 * Fin 3) + (Fin 2 * Res.radialDistance r))
       <=? Res.finalBCD r) = true /\
      (Res.gasketOD r + (Fin 2 * Fin 1.5) + (Fin 2 * Res.effectiveC r)
       + Res.boltHoleSize r <=? Res.finalBCD r) = true
  | None => False
  end.
Proof.
  pose proof exampleResult_facts as Hf.
  destruct (exampleCalculate exampleInputs) as [r|] eqn:E; [|contradiction].
  destruct Hf as (_ & _ & _ & _ & _ & _ & Hnan).
  exact (auto_bcd_meets_every_candidate
           _ _ _ _ _ _ _ _ _ _ E eq_refl Hnan).
Defined.

(** The engine on [exampleInputs]: the four gasket diameters are
    ordered. *)
Lemma auto_gasket_diameters_ordered_witness :
  match exampleCalculate exampleInputs with
  | Some r =>
      (Res.gasketID r <=? Res.seatingID r) = true /\
      (Res.seatingID r <=? Res.seatingOD r) = true /\
      (Res.seatingOD r <=? Res.gasketOD r) = true
  | None => False
  end.
Proof.
  pose proof exampleResult_facts as Hf.
  destruct (exampleCalculate exampleInputs) as [r|] eqn:E; [|contradiction].
  destruct Hf as (Fod & _ & _ & Ni & No & _).
  assert (Nn : nonneg (gasketSeatingWidth exampleInputs)) by (simpl; lra).
  exact (auto_gasket_diameters_ordered
           _ _ _ _ _ _ _ _ _ _ E eq_refl eq_refl Nn Ni No Fod).
Defined.

(** Sixteen bolts instead of twelve on [exampleInputs]: Method 1 does not
    decrease. *)
Lemma bcdMethod1_monotone_in_count_witness :
  match exampleCalculate exampleInputs,
        exampleCalculate
          (withSizeCount exampleInputs (Fin 0.75) (Fin (inject_Z 16)))
  with
  | Some r, Some r' =>
      Res.boltSpacingMin r' = Res.boltSpacingMin r /\
      (Res.bcdMethod1 r <=? Res.bcdMethod1 r') = true
  | _, _ => False
  end.
Proof.
  pose proof exampleResult_facts as Hf.
  destruct (exampleCalculate exampleInputs) as [r|] eqn:E; [|contradiction].
  destruct (exampleCalculate
              (withSizeCount exampleInputs (Fin 0.75) (Fin (inject_Z 16))))
    as [r'|] eqn:E'; [|vm_compute in E'; discriminate E'].
  destruct Hf as (_ & _ & _ & _ & _ & Nb & _).
  exact (bcdMethod1_monotone_in_count
           _ _ _ _ _ _ _ _ exampleInputs (Fin (inject_Z 16)) r r'
           E E' Nb I I eq_refl).
Defined.

Lemma exampleTensioned_facts :
  match exampleCalculate
          (toggleHydraulicTensioning
             (withSizeCount exampleInputs (Fin 1) (Fin 12)))
  with
  | Some r' => Res.boltSpacingMin r' <> NaN
  | None => False
  end.
Proof. vm_compute. discriminate. Qed.

(** One inch bolts have a tensioning row: switching tensioning on raises
    the minimum spacing from 57.15 mm to 63.5 mm. *)
Lemma tensioning_never_lowers_spacing_witness :
  match exampleCalculate (withSizeCount exampleInputs (Fin 1) (Fin 12)),
        exampleCalculate
          (toggleHydraulicTensioning
             (withSizeCount exampleInputs (Fin 1) (Fin 12)))
  with
  | Some r, Some r' =>
      (Res.boltSpacingMin r <=? Res.boltSpacingMin r') = true
  | _, _ => False
  end.
Proof.
  pose proof exampleTensioned_facts as Hf.
  destruct (exampleCalculate (withSizeCount exampleInputs (Fin 1) (Fin 12)))
    as [r|] eqn:E; [|vm_compute in E; discriminate E].
  destruct (exampleCalculate
              (toggleHydraulicTensioning
                 (withSizeCount exampleInputs (Fin 1) (Fin 12))))
    as [r'|] eqn:E'; [|contradiction].
  exact (proj1 (tensioning_never_lowers_spacing
                  _ _ _ _ _ _ _ _
                  (withSizeCount exampleInputs (Fin 1) (Fin 12)) r r'
                  eq_refl E E' Hf)).
Defined.

(** A bolt material that is not in the table is calculated with the first
    material's curve. *)
Lemma unmatched_keys_fall_back_witness :
  match exampleCalculate (withBoltMaterial exampleInputs "SA-000" (Fin 100)) with
  | Some r =>
      exists m0 rest,
        exampleMaterials = m0 :: rest /\
        Res.ambientAllowableStress r = ambientOf (Material.stresses m0) /\
        Res.designAllowableStress r
        = interpolateStress exampleSteps (Fin 100) (Material.stresses m0)
  | None => False
  end.
Proof.
  destruct (exampleCalculate (withBoltMaterial exampleInputs "SA-000" (Fin 100)))
    as [r|] eqn:E; [|vm_compute in E; discriminate E].
  destruct (unmatched_keys_fall_back _ _ _ _ _ _ _ _ _ _ E)
    as (_ & Hmat & _).
  apply Hmat. intros m Hm. simpl in Hm.
  destruct Hm as [<-|[<-|[]]]; reflexivity.
Defined.

(** Twenty 3/4 inch bolts pass the spacing check, and the result table
    shows "PITCH OK". *)
Lemma spacing_ok_shows_pitch_ok_witness :
  match exampleCalculate exampleCell_34_20 with
  | Some r =>
      isPitchTooSmall r = false /\ isPitchTooLarge r = false /\
      spacingStatus r = "PITCH OK"
  | None => False
  end.
Proof.
  pose proof exampleCells_feasible as Hcells.
  destruct (exampleCalculate exampleCell_34_20) as [r|] eqn:E;
    [|contradiction].
  destruct (exampleCalculate exampleCell_1_24) as [r'|]; [|contradiction].
  destruct Hcells as [Hf _].
  apply andb_true_iff in Hf. destruct Hf as [_ Hok].
  exact (spacing_ok_shows_pitch_ok _ _ _ _ _ _ _ _ _ _ E Hok).
Defined.

(* ===================================================================== *)
(** * The input panel and the engine *)
(* ===================================================================== *)

Section PanelFacts.

Variable Math_sqrt : num -> num.
Variable TEMA_BOLT_DATA : list Bolt.t.
Variable HYDRAULIC_TENSIONING_DATA : list Tension.t.
Variable GASKET_RING_TABLE : list Ring.t.
Variable GASKET_TYPES : list Gasket.t.
Variable ASME_BOLT_MATERIALS : list Material.t.
Variable BOLT_TEMP_STEPS : list num.
Variable WHC_MAX_PITCH_TABLE : list (num * num).
Variable minYield : Material.t -> option num.

Local Abbreviation calculate :=
  (calculateFullResults Math_sqrt TEMA_BOLT_DATA HYDRAULIC_TENSIONING_DATA
     GASKET_RING_TABLE GASKET_TYPES ASME_BOLT_MATERIALS BOLT_TEMP_STEPS
     WHC_MAX_PITCH_TABLE).

Local Abbreviation optimize :=
  (handleOptimize Math_sqrt TEMA_BOLT_DATA HYDRAULIC_TENSIONING_DATA
     GASKET_RING_TABLE GASKET_TYPES ASME_BOLT_MATERIALS BOLT_TEMP_STEPS
     WHC_MAX_PITCH_TABLE).

Local Abbreviation sizesLoop :=
  (forSizes Math_sqrt TEMA_BOLT_DATA HYDRAULIC_TENSIONING_DATA
     GASKET_RING_TABLE GASKET_TYPES ASME_BOLT_MATERIALS BOLT_TEMP_STEPS
     WHC_MAX_PITCH_TABLE).

Local Abbreviation countsLoop :=
  (forCounts Math_sqrt TEMA_BOLT_DATA HYDRAULIC_TENSIONING_DATA
     GASKET_RING_TABLE GASKET_TYPES ASME_BOLT_MATERIALS BOLT_TEMP_STEPS
     WHC_MAX_PITCH_TABLE).

Local Abbreviation togglePcc1 :=
  (togglePcc1Check ASME_BOLT_MATERIALS minYield).

Local Abbreviation updatePcc1 :=
  (updatePcc1Values ASME_BOLT_MATERIALS minYield).

(** X15.  Neither the manual-mode switch nor the PCC-1 switch reaches the
    engine: the calculated result is the same before and after. *)
Theorem panel_switches_do_not_reach_engine (i : FlangeInputs) :
  calculate (toggleManualMode i) = calculate i /\
  calculate (togglePcc1 i) = calculate i.
Proof.
  split; [reflexivity|].
  unfold togglePcc1Check. cbn [usePcc1Check].
  destruct (usePcc1Check i); reflexivity.
Qed.

(** The loops depend on the target input only through the engine. *)
Lemma forCounts_ext (o1 o2 : FlangeInputs) (size : num) (cs : list num)
      (v : SearchVars) :
  (forall s c, calculate (withSizeCount o1 s c)
               = calculate (withSizeCount o2 s c)) ->
  countsLoop o1 size cs v = countsLoop o2 size cs v.
Proof.
  intro Hext. revert v. induction cs as [|c cs IH]; intro v; [reflexivity|].
  cbn [forCounts]. unfold searchStep. cbv zeta. rewrite Hext.
  destruct (calculate (withSizeCount o2 size c)) as [r|]; [|reflexivity].
  cbn [bind].
  destruct ((marginOf r >=? Fin 0) && Res.spacingOk r);
    [destruct (requiredLoadOf r <? minRequiredLoad v)|]; cbn [bind];
    apply IH.
Qed.

Lemma forSizes_ext (o1 o2 : FlangeInputs) (sizes : list num)
      (v : SearchVars) :
  (forall s c, calculate (withSizeCount o1 s c)
               = calculate (withSizeCount o2 s c)) ->
  sizesLoop o1 sizes v = sizesLoop o2 sizes v.
Proof.
  intro Hext. revert v.
  induction sizes as [|s sizes IH]; intro v; [reflexivity|].
  cbn [forSizes]. rewrite (forCounts_ext o1 o2 s counts v Hext).
  destruct (countsLoop o2 s counts v) as [v'|]; [|reflexivity].
  cbn [bind]. apply IH.
Qed.

Lemma togglePcc1_applySearchResult (i : FlangeInputs) (s c : num) :
  applySearchResult (togglePcc1 i) s c = togglePcc1 (applySearchResult i s c).
Proof.
  unfold togglePcc1Check. cbn [usePcc1Check applySearchResult
    clearGeometryOverrides withSizeCount].
  destruct (usePcc1Check i); reflexivity.
Qed.

(** X16.  Optimising after the PCC-1 switch gives what the switch gives
    after optimising: the same dialog, and the stored input with the same
    switch applied.  The search never looks at the PCC-1 assessment. *)
Theorem optimize_commutes_with_pcc1_switch (i : FlangeInputs) (f : bool) :
  optimize (togglePcc1 i) f
  = option_map (fun out => (togglePcc1 (fst out), snd out)) (optimize i f).
Proof.
  unfold handleOptimize, performSearch. cbv zeta.
  assert (Hext : forall s c,
             calculate (withSizeCount
                          (clearGeometryOverrides (togglePcc1 i)) s c)
             = calculate (withSizeCount (clearGeometryOverrides i) s c)).
  { intros s c. unfold togglePcc1Check. cbn [usePcc1Check].
    destruct (usePcc1Check i); reflexivity. }
  assert (Hsize : boltSize (clearGeometryOverrides (togglePcc1 i))
                  = boltSize (clearGeometryOverrides i)).
  { unfold togglePcc1Check. cbn [usePcc1Check].
    destruct (usePcc1Check i); reflexivity. }
  assert (Hcount : boltCount (clearGeometryOverrides (togglePcc1 i))
                   = boltCount (clearGeometryOverrides i)).
  { unfold togglePcc1Check. cbn [usePcc1Check].
    destruct (usePcc1Check i); reflexivity. }
  assert (Hsizes : sizesToSearch TEMA_BOLT_DATA
                     (clearGeometryOverrides (togglePcc1 i)) f
                   = sizesToSearch TEMA_BOLT_DATA
                       (clearGeometryOverrides i) f).
  { unfold sizesToSearch. rewrite Hsize. reflexivity. }
  rewrite Hsizes, Hsize, Hcount.
  rewrite (forSizes_ext _ _ _ _ Hext).
  destruct (sizesLoop (clearGeometryOverrides i)
              (sizesToSearch TEMA_BOLT_DATA (clearGeometryOverrides i) f)
              _) as [v|]; [|reflexivity].
  cbn [bind]. destruct (found v); [|reflexivity].
  rewrite Hext.
  destruct (calculate (withSizeCount (clearGeometryOverrides i)
                                     (bestSize v) (bestCount v)))
    as [r|]; [|reflexivity].
  cbn [bind option_map fst snd].
  rewrite togglePcc1_applySearchResult. reflexivity.
Qed.

(** The two clearances of a result. *)
Lemma calculate_clearances (i : FlangeInputs) (r : CalculationResults) :
  calculate i = Some r ->
  Res.effectiveC r = (cClearance i || Fin 2.5) /\
  Res.shellGapA r = match shellGapA i with Some a => a | None => Fin 3 end.
Proof. intro H. calc_inv H. split; reflexivity. Qed.

(** X19.  After "Reset to Standard" the engine reports derived values
    only: the TEMA diameters, the derived seating diameters, the standard
    clearances, the minimum spacing of the bolt row without tensioning, the
    ring widths and the gasket factors of the tables; and the PCC-1 summary
    is inactive. *)
Theorem reset_discards_overrides (i : FlangeInputs)
        (r : CalculationResults) :
  calculate (resetGasketStandard i) = Some r ->
  Res.finalBCD r = Res.bcdTema r /\ Res.finalOD r = Res.odTema r /\
  Res.seatingOD r = autoSeatingODOf (resetGasketStandard i) r /\
  Res.seatingID r = Res.seatingOD r - (Fin 2 * gasketSeatingWidth i) /\
  Res.effectiveC r = Fin 2.5 /\ Res.shellGapA r = Fin 3 /\
  (exists boltData,
      orElse (find (fun b => Bolt.size b === boltSize i) TEMA_BOLT_DATA)
             (hd_error TEMA_BOLT_DATA) = Some boltData /\
      Res.boltSpacingMin r = Bolt.B_min boltData * Fin 25.4) /\
  option_map Ring.irMin (ringConfigOf GASKET_RING_TABLE (insideDia i))
  = Some (Res.innerRingWidth r) /\
  option_map Ring.orMin (ringConfigOf GASKET_RING_TABLE (insideDia i))
  = Some (Res.outerRingWidth r) /\
  option_map Gasket.m (gTypeOf GASKET_TYPES i) = Some (Res.gasketM r) /\
  option_map Gasket.y (gTypeOf GASKET_TYPES i) = Some (Res.gasketY r) /\
  option_map Gasket.m (passGTypeOf GASKET_TYPES i) = Some (Res.passM r) /\
  option_map Gasket.y (passGTypeOf GASKET_TYPES i) = Some (Res.passY r) /\
  pccStatusInfo (resetGasketStandard i) r
  = {| active := false; safe := true |}.
Proof.
  intro H.
  destruct (calculate_geometry _ _ _ _ _ _ _ _ _ _ H)
    as (Hod & Hid & _ & _ & _ & _ & Hbcd & _ & Hfod).
  destruct (calculate_clearances _ _ H) as (Hc & Ha).
  destruct (calculate_bolt_fields _ _ _ _ _ _ _ _ _ _ H)
    as (bd & Hrow & _ & _ & Hs & _).
  destruct (calculate_rings _ _ _ _ _ _ _ _ _ _ H) as (Hir & Hor).
  destruct (calculate_factors _ _ _ _ _ _ _ _ _ _ H)
    as (Hm & Hy & Hpm & Hpy).
  cbn in Hod, Hid, Hbcd, Hfod, Hc, Ha, Hrow, Hs, Hir, Hor.
  unfold autoSeatingIDOf in Hid. rewrite <- Hod in Hid.
  repeat split; try assumption.
  exists bd. split; assumption.
Qed.

End PanelFacts.

(* ===================================================================== *)
(** * The PCC-1 limits set by the input panel *)
(* ===================================================================== *)

Section Pcc1Limits.

Variable ASME_BOLT_MATERIALS : list Material.t.
Variable minYield : Material.t -> option num.

Local Abbreviation updatePcc1 :=
  (updatePcc1Values ASME_BOLT_MATERIALS minYield).

Lemma truthy_default (x d : num) :
  truthy d = true -> truthy (if negb (truthy x) then d else x) = true.
Proof. intro Hd. destruct (truthy x) eqn:E; simpl; assumption. Qed.

Lemma default_idempotent (x d : num) :
  truthy d = true ->
  (if negb (truthy (if negb (truthy x) then d else x)) then d
   else if negb (truthy x) then d else x)
  = (if negb (truthy x) then d else x).
Proof.
  intro Hd. destruct (truthy x) eqn:E; simpl; [rewrite E|rewrite Hd];
    reflexivity.
Qed.

(** X17.  Applying [updatePcc1Values] a second time changes nothing; and
    after it the three factors [phiFMax], [g] and [passPartAreaReduction]
    are never zero or NaN. *)
Theorem updatePcc1Values_idempotent (gasketType' : string)
        (i : FlangeInputs) :
  updatePcc1 gasketType' (updatePcc1 gasketType' i)
  = updatePcc1 gasketType' i /\
  truthy (phiFMax (updatePcc1 gasketType' i)) = true /\
  truthy (g (updatePcc1 gasketType' i)) = true /\
  truthy (passPartAreaReduction (updatePcc1 gasketType' i)) = true.
Proof.
  split.
  - unfold updatePcc1Values. cbv zeta.
    cbn [itemNo partName boltSize boltCount insideDia g0 g1 cClearance
         shellGapA gasketSeatingWidth hasInnerRing hasOuterRing
         innerRingWidthManual outerRingWidthManual useManualOverride
         actualBCD actualOD manualSeatingID manualSeatingOD manualM manualY
         manualPassM manualPassY designTemp tempUnit designPressure
         pressureUnit shellMaterial jointEfficiency corrosionAllowance
         boltMaterial passPartitionLength passPartitionWidth gasketType
         passGasketType facingSketch useHydraulicTensioning usePcc1Check
         sgT sgMinS sgMinO sgMax sbMax sbMin sfMax phiFMax phiGMax g
         passPartAreaReduction].
    rewrite !default_idempotent by reflexivity.
    destruct (includes (toLowerCase gasketType') "grooved"),
             (includes (toLowerCase gasketType') "corruga"),
             (includes (toLowerCase gasketType') "spiral");
      destruct (find _ ASME_BOLT_MATERIALS) as [m|];
      try destruct (minYield m) as [y|];
      try destruct (truthy y);
      reflexivity.
  - unfold updatePcc1Values. cbv zeta. cbn [phiFMax g passPartAreaReduction].
    repeat split; apply truthy_default; reflexivity.
Qed.


End Pcc1Limits.

(* ===================================================================== *)
(** * The shell thickness [calculateAutoG0] *)
(* ===================================================================== *)

Section ShellFacts.

Variable ASME_SHELL_MATERIALS : list Material.t.
Variable BOLT_TEMP_STEPS : list num.

Local Abbreviation autoG0 :=
  (calculateAutoG0 ASME_SHELL_MATERIALS BOLT_TEMP_STEPS).

Local Abbreviation shellStressOf c shellMat :=
  (interpolateStress BOLT_TEMP_STEPS
     (toCelsius (nullish (Partial.designTemp c) (Fin 100))
                (strOr (Partial.tempUnit c) "°C"))
     (Material.stresses shellMat)).

Local Abbreviation pMpaOf c :=
  (toMpa (nullish (Partial.designPressure c) (Fin 1))
         (strOr (Partial.pressureUnit c) "MPa")).

(** The value [calculateAutoG0] returns on finite operands, by the sign of
    the denominator. *)
Lemma calculateAutoG0_value (c : Partial.t) (shellMat : Material.t)
      (S P E D A : Q) :
  shellMatOf ASME_SHELL_MATERIALS c = Some shellMat ->
  shellStressOf c shellMat = Fin S -> pMpaOf c = Fin P ->
  nullish (Partial.jointEfficiency c) (Fin 1) = Fin E ->
  nullish (Partial.insideDia c) (Fin 300) = Fin D ->
  nullish (Partial.corrosionAllowance c) (Fin 0) = Fin A ->
  autoG0 c
  = Some (Fin (inject_Z
                 (Qceiling
                    (P * (D + 2 * A) / 2
                     / (if Qltb 0 (S * E + - (0.6 * P)) then
                          S * E + - (0.6 * P)
                        else 1)
                     + A)))).
Proof.
  intros Hmat HS HP HE HD HA.
  unfold calculateAutoG0. rewrite Hmat. cbn [bind]. cbv zeta.
  rewrite HS, HP, HE, HD, HA.
  cbn [mul add sub neg gt lt].
  change (Qzerob 2) with false. cbn [div]. change (Qzerob 2) with false.
  cbv iota.
  destruct (Qltb 0 (S * E + - (0.6 * P))) eqn:Hd.
  - assert (Hz : Qzerob (S * E + - (0.6 * P)) = false)
      by (apply Qzerob_false; apply Qltb_true in Hd; lra).
    cbn [div]. rewrite Hz. reflexivity.
  - cbn [div]. change (Qzerob 1) with false. reflexivity.
Qed.

Lemma find_first_by_own_id (m0 : Material.t) (rest : list Material.t) :
  find (fun m => String.eqb (Material.id m) (Material.id m0)) (m0 :: rest)
  = Some m0.
Proof. simpl. rewrite String.eqb_refl. reflexivity. Qed.

(** The row [calculateAutoG0] reads when the id selects none. *)
Lemma shellMatOf_fallback (c : Partial.t) (m0 : Material.t)
      (rest : list Material.t) :
  ASME_SHELL_MATERIALS = m0 :: rest ->
  match Partial.shellMaterial c with
  | Some (String a s') =>
      forall m, In m ASME_SHELL_MATERIALS ->
                String.eqb (Material.id m) (String a s') = false
  | _ => True
  end ->
  shellMatOf ASME_SHELL_MATERIALS c = Some m0.
Proof.
  intros Et Hnone. unfold shellMatOf.
  destruct (Partial.shellMaterial c) as [[|a s']|].
  - rewrite Et. cbn [hd_error bind]. rewrite find_first_by_own_id.
    reflexivity.
  - cbn [bind]. rewrite (find_none_all _ _ Hnone). rewrite Et. reflexivity.
  - rewrite Et. cbn [hd_error bind]. rewrite find_first_by_own_id.
    reflexivity.
Qed.

(** X20.  [calculateAutoG0] throws exactly when [ASME_SHELL_MATERIALS] is
    empty.  On a table that is not empty, a shell material id that is
    absent, empty or the id of no row is calculated as the first row: the
    result is the one for the first row's id. *)
Theorem calculateAutoG0_material_fallback (c : Partial.t) :
  (autoG0 c = None <-> ASME_SHELL_MATERIALS = []) /\
  forall m0 rest,
    ASME_SHELL_MATERIALS = m0 :: rest ->
    match Partial.shellMaterial c with
    | Some (String a s') =>
        forall m, In m ASME_SHELL_MATERIALS ->
                  String.eqb (Material.id m) (String a s') = false
    | _ => True
    end ->
    shellMatOf ASME_SHELL_MATERIALS c = Some m0 /\
    autoG0 c
    = autoG0 (Partial.mk (Some (Material.id m0)) (Partial.designTemp c)
                         (Partial.tempUnit c) (Partial.designPressure c)
                         (Partial.pressureUnit c) (Partial.insideDia c)
                         (Partial.corrosionAllowance c)
                         (Partial.jointEfficiency c)).
Proof.
  split.
  - unfold calculateAutoG0, shellMatOf. split.
    + intro H. destruct ASME_SHELL_MATERIALS as [|m0 rest] eqn:Et;
        [reflexivity|exfalso].
      destruct (Partial.shellMaterial c) as [[|a s']|];
        cbn [hd_error bind] in H;
        try (rewrite find_first_by_own_id in H; cbn [orElse bind] in H;
             discriminate H).
      destruct (find _ (m0 :: rest)); cbn [orElse hd_error bind] in H;
        discriminate H.
    + intros ->. destruct (Partial.shellMaterial c) as [[|a s']|];
        reflexivity.
  - intros m0 rest Et Hnone.
    pose proof (shellMatOf_fallback c m0 rest Et Hnone) as Hc.
    split; [exact Hc|].
    assert (Hc' : shellMatOf ASME_SHELL_MATERIALS
                    (Partial.mk (Some (Material.id m0))
                       (Partial.designTemp c) (Partial.tempUnit c)
                       (Partial.designPressure c) (Partial.pressureUnit c)
                       (Partial.insideDia c) (Partial.corrosionAllowance c)
                       (Partial.jointEfficiency c)) = Some m0).
    { unfold shellMatOf. cbn [Partial.shellMaterial]. rewrite Et.
      destruct (Material.id m0) as [|a s'] eqn:Eid;
        cbn [hd_error bind]; rewrite <- ?Eid;
        rewrite find_first_by_own_id; reflexivity. }
    unfold calculateAutoG0. rewrite Hc, Hc'. reflexivity.
Qed.

(** X21.  On finite operands [calculateAutoG0] always returns a whole
    number: the denominator it divides by is never zero or negative.  With
    a pressure and a corroded diameter that are not negative, the thickness
    is at least the corrosion allowance. *)
Theorem calculateAutoG0_guarded (c : Partial.t) (shellMat : Material.t)
        (S P E D A : Q) :
  shellMatOf ASME_SHELL_MATERIALS c = Some shellMat ->
  shellStressOf c shellMat = Fin S -> pMpaOf c = Fin P ->
  nullish (Partial.jointEfficiency c) (Fin 1) = Fin E ->
  nullish (Partial.insideDia c) (Fin 300) = Fin D ->
  nullish (Partial.corrosionAllowance c) (Fin 0) = Fin A ->
  exists t : Z,
    autoG0 c = Some (Fin (inject_Z t)) /\
    ((0 <= P)%Q -> (0 <= D + 2 * A)%Q -> (A <= inject_Z t)%Q).
Proof.
  intros Hmat HS HP HE HD HA.
  rewrite (calculateAutoG0_value c shellMat S P E D A Hmat HS HP HE HD HA).
  eexists. split; [reflexivity|]. intros HP0 HD0.
  set (den := if Qltb 0 (S * E + - (0.6 * P)) then (S * E + - (0.6 * P))%Q
              else 1%Q).
  assert (Hden : (0 < den)%Q).
  { unfold den. destruct (Qltb 0 (S * E + - (0.6 * P))) eqn:Hd;
      [apply Qltb_true in Hd; exact Hd|reflexivity]. }
  clearbody den.
  eapply Qle_trans; [|apply Qle_ceiling].
  assert (H0 : (0 <= P * (D + 2 * A) / 2 / den)%Q).
  { apply Qle_shift_div_l; [exact Hden|].
    assert (H1 : (0 <= P * (D + 2 * A))%Q)
      by (apply Qmult_le_0_compat; assumption).
    set (z := (P * (D + 2 * A))%Q) in *. clearbody z.
    setoid_replace (z / 2)%Q with (z * (1 # 2))%Q by field. lra. }
  set (y := (P * (D + 2 * A) / 2 / den)%Q) in *. clearbody y. lra.
Qed.

End ShellFacts.

(* ===================================================================== *)
(** * The handlers of the application state *)
(* ===================================================================== *)

Section AppFacts.

Variable Math_sqrt : num -> num.
Variable TEMA_BOLT_DATA : list Bolt.t.
Variable HYDRAULIC_TENSIONING_DATA : list Tension.t.
Variable GASKET_RING_TABLE : list Ring.t.
Variable GASKET_TYPES : list Gasket.t.
Variable ASME_BOLT_MATERIALS : list Material.t.
Variable BOLT_TEMP_STEPS : list num.
Variable WHC_MAX_PITCH_TABLE : list (num * num).
Variable ASME_SHELL_MATERIALS : list Material.t.

Local Abbreviation optimize :=
  (handleOptimize Math_sqrt TEMA_BOLT_DATA HYDRAULIC_TENSIONING_DATA
     GASKET_RING_TABLE GASKET_TYPES ASME_BOLT_MATERIALS BOLT_TEMP_STEPS
     WHC_MAX_PITCH_TABLE).

Local Abbreviation inputChange :=
  (handleInputChange ASME_SHELL_MATERIALS BOLT_TEMP_STEPS).

Local Abbreviation autoG0 :=
  (calculateAutoG0 ASME_SHELL_MATERIALS BOLT_TEMP_STEPS).

(** The input and the search mode [handleInputChange] stores. *)
Lemma handleInputChange_Some (s s' : App.t) (u : FlangeInputs)
      (name : string) :
  inputChange s u name = Some s' ->
  (if Array_includes g0Triggers name then
     exists t, autoG0 (partialOf u) = Some t /\
               App.inputs s'
               = withG0G1 u t (Math_ceil (t * Fin 1.3 / Fin 3 + t))
   else App.inputs s' = u) /\
  App.isFixedSizeSearch s'
  = (if Array_includes designConditions name then false
     else if Array_includes geometryTriggers name then true
     else App.isFixedSizeSearch s) /\
  App.savedRecords s' = App.savedRecords s /\
  App.editingRecordId s' = App.editingRecordId s.
Proof.
  unfold handleInputChange. intro H.
  apply bind_Some in H. destruct H as (finalInputs & Hfin & H).
  cbv zeta in H. injection H as <-. cbn [App.inputs App.isFixedSizeSearch
    App.savedRecords App.editingRecordId].
  split; [|repeat split].
  destruct (Array_includes g0Triggers name).
  - apply bind_Some in Hfin. destruct Hfin as (t & Ht & Hfin).
    injection Hfin as <-. exists t. split; [exact Ht|reflexivity].
  - injection Hfin as <-. reflexivity.
Qed.

Lemma ceil_hub_ge (t : num) :
  nonneg t -> (t <=? Math_ceil (t * Fin 1.3 / Fin 3 + t)) = true.
Proof.
  destruct t as [q| | |]; simpl; try contradiction. intro Hq.
  apply Qle_bool_iff.
  eapply Qle_trans; [|apply Qle_ceiling].
  setoid_replace (q * 1.3 / 3 + q)%Q with (q * (13 # 30) + q)%Q by field.
  lra.
Qed.

(** X22.  After a change of a field the shell thickness depends on, the
    stored [g0] is the thickness [calculateAutoG0] gives for the stored
    input, and the hub thickness [g1] is not below a [g0] that is not
    negative. *)
Theorem design_change_keeps_thickness_consistent
        (s s' : App.t) (u : FlangeInputs) (name : string) :
  inputChange s u name = Some s' ->
  Array_includes g0Triggers name = true ->
  autoG0 (partialOf (App.inputs s')) = Some (g0 (App.inputs s')) /\
  (nonneg (g0 (App.inputs s')) ->
   (g0 (App.inputs s') <=? g1 (App.inputs s')) = true).
Proof.
  intros H Htrig.
  destruct (handleInputChange_Some _ _ _ _ H) as (Hin & _).
  rewrite Htrig in Hin. destruct Hin as (t & Ht & ->).
  cbn [g0 g1 withG0G1]. split.
  - exact Ht.
  - apply ceil_hub_ge.
Qed.

Lemma Array_includes_In (xs : list string) (name : string) :
  Array_includes xs name = true -> In name xs.
Proof.
  unfold Array_includes. intro H. apply existsb_exists in H.
  destruct H as (x & Hin & Heq). apply String.eqb_eq in Heq.
  subst x. exact Hin.
Qed.

(** X23.  The field changed last decides the next search: after a change
    of the bolt size or the inside diameter "Optimize" keeps the bolt size
    of the input; after a change of a design condition it searches all
    table sizes from 3/4 inch. *)
Theorem changed_field_sets_search_mode
        (s s' : App.t) (u next : FlangeInputs) (name : string) (f : bool)
        (sz c req mg : num) :
  inputChange s u name = Some s' ->
  optimize (App.inputs s') (App.isFixedSizeSearch s')
  = Some (next, OptimizationCompleted f sz c req mg) ->
  (Array_includes geometryTriggers name = true ->
   f = true /\ sz = boltSize u /\ boltSize next = boltSize u) /\
  (Array_includes designConditions name = true ->
   f = false /\ (exists b, In b TEMA_BOLT_DATA /\ Bolt.size b = sz) /\
   (sz >=? Fin 0.75) = true).
Proof.
  intros H Hopt.
  destruct (handleInputChange_Some _ _ _ _ H) as (Hin & Hflag & _).
  assert (Hsize : boltSize (App.inputs s') = boltSize u).
  { destruct (Array_includes g0Triggers name).
    - destruct Hin as (t & _ & ->). reflexivity.
    - rewrite Hin. reflexivity. }
  unfold handleOptimize in Hopt.
  assert (Hf : f = App.isFixedSizeSearch s').
  { unfold performSearch in Hopt. cbv zeta in Hopt.
    apply bind_Some in Hopt. destruct Hopt as (v & _ & Hopt).
    destruct (found v); [|discriminate].
    apply bind_Some in Hopt. destruct Hopt as (r & _ & Hopt).
    injection Hopt as _ <- _ _ _ _. reflexivity. }
  destruct (search_found _ _ _ _ _ _ _ _ _ _ _ _ _ _ _ _ _ Hopt)
    as (Hnext & Hs & _).
  split.
  - intro Hgeo.
    assert (Hfix : App.isFixedSizeSearch s' = true).
    { rewrite Hflag. apply Array_includes_In in Hgeo. simpl in Hgeo.
      destruct Hgeo as [<-|[<-|[]]]; reflexivity. }
    rewrite Hfix in Hs, Hf. simpl in Hs. destruct Hs as [Hs|[]].
    rewrite Hsize in Hs. subst next.
    split; [exact Hf|]. split; [symmetry; exact Hs|].
    cbn. symmetry. exact Hs.
  - intro Hdes. rewrite Hdes in Hflag. rewrite Hflag in Hs, Hf.
    split; [exact Hf|].
    unfold sizesToSearch in Hs. apply in_map_iff in Hs.
    destruct Hs as (b & Hb & Hfil). apply filter_In in Hfil.
    destruct Hfil as [Hinb Hge]. rewrite Hb in Hge.
    split; [exists b; auto|exact Hge].
Qed.

End AppFacts.

Section SavedFacts.

Variable Number_toString : num -> string.

Local Abbreviation save := (handleSaveToList Number_toString).
Local Abbreviation editSave := (handleEditSave Number_toString).

Lemma filter_other_id (now : string) (rs : list Saved.t) :
  (forall old, In old rs -> Saved.id old <> now) ->
  filter (fun r => negb (String.eqb (Saved.id r) now)) rs = rs.
Proof.
  induction rs as [|r rs IH]; intro H; [reflexivity|]. simpl.
  destruct (String.eqb (Saved.id r) now) eqn:E.
  - apply String.eqb_eq in E. exfalso. apply (H r); [left; reflexivity|exact E].
  - simpl. f_equal. apply IH. intros old Hold. apply H. right. exact Hold.
Qed.

(** X24.  A saved record restores the input it was saved from whatever the
    state it is opened in; and removing a record just saved under an id no
    other record has gives the list back as it was. *)
Theorem save_round_trip (now : string) (results : CalculationResults)
        (s : App.t) :
  (forall old, In old (App.savedRecords s) -> Saved.id old <> now) ->
  exists rec,
    App.savedRecords (save now results s) = (App.savedRecords s ++ [rec])%list /\
    Saved.id rec = now /\
    (forall later, App.inputs (editRecord rec later) = App.inputs s) /\
    (forall later, App.editingRecordId (editRecord rec later) = Some now) /\
    App.savedRecords (removeRecord now (save now results s))
    = App.savedRecords s.
Proof.
  intro Hfresh. eexists. split; [reflexivity|].
  cbn [Saved.id Saved.originalInputs recordOf App.inputs
       App.editingRecordId editRecord].
  repeat split.
  unfold removeRecord, handleSaveToList. cbn [App.savedRecords].
  rewrite filter_app. rewrite (filter_other_id _ _ Hfresh).
  cbn [filter recordOf Saved.id]. rewrite String.eqb_refl. cbn [negb].
  apply app_nil_r.
Qed.

(** X25.  The four handlers of the list keep the editing id the id of a
    saved record (or [null]): removing the record that is being edited
    clears it. *)
Theorem editing_id_stays_saved (s : App.t) (now id : string)
        (results : CalculationResults) (rec : Saved.t) :
  editingIsSaved s ->
  editingIsSaved (save now results s) /\
  editingIsSaved (fst (editSave results s)) /\
  editingIsSaved (removeRecord id s) /\
  (In rec (App.savedRecords s) -> editingIsSaved (editRecord rec s)).
Proof.
  intro Hwf. split; [exact I|]. split; [|split].
  - unfold handleEditSave.
    destruct (App.editingRecordId s) as [[|ch e]|] eqn:E;
      cbn [fst]; try exact Hwf. exact I.
  - unfold editingIsSaved, removeRecord in *.
    cbn [App.editingRecordId App.savedRecords].
    destruct (App.editingRecordId s) as [e|]; [|exact I].
    destruct (String.eqb e id) eqn:E; [exact I|].
    destruct Hwf as (r & Hin & Hid). exists r. split; [|exact Hid].
    apply filter_In. split; [exact Hin|].
    rewrite Hid, E. reflexivity.
  - intro Hin. unfold editingIsSaved, editRecord.
    cbn [App.editingRecordId App.savedRecords].
    exists rec. split; [exact Hin|reflexivity].
Qed.

(** X26.  "Edit Save" on a selected record keeps the ids of the list in
    their order, leaves every record of another id as it is, stores the
    current input under the selected id, and ends the editing. *)
Theorem edit_save_rewrites_selected (s : App.t) (e : string)
        (results : CalculationResults) :
  editingIsSaved s ->
  App.editingRecordId s = Some e -> e <> EmptyString ->
  let s' := fst (editSave results s) in
  map Saved.id (App.savedRecords s') = map Saved.id (App.savedRecords s) /\
  (exists rec, In rec (App.savedRecords s') /\ Saved.id rec = e /\
               Saved.originalInputs rec = App.inputs s) /\
  (forall rec, In rec (App.savedRecords s) -> Saved.id rec <> e ->
               In rec (App.savedRecords s')) /\
  (forall rec, In rec (App.savedRecords s') -> Saved.id rec = e ->
               Saved.originalInputs rec = App.inputs s) /\
  App.editingRecordId s' = None /\ App.inputs s' = App.inputs s.
Proof.
  intros Hwf He Hne. unfold editingIsSaved in Hwf. rewrite He in Hwf.
  destruct Hwf as (r0 & Hin0 & Hid0).
  unfold handleEditSave. rewrite He.
  destruct e as [|ch e']; [contradiction|]. cbv zeta.
  cbn [fst App.savedRecords App.editingRecordId App.inputs].
  set (e := String ch e') in *.
  set (upd := recordOf Number_toString e (App.inputs s) results).
  split; [|split; [|split; [|split; [|split; reflexivity]]]].
  - rewrite map_map. apply map_ext_in. intros r _.
    destruct (String.eqb (Saved.id r) e) eqn:E; [|reflexivity].
    apply String.eqb_eq in E. rewrite E. reflexivity.
  - exists upd. split; [|split; reflexivity].
    apply in_map_iff. exists r0. split; [|exact Hin0].
    rewrite Hid0, String.eqb_refl. reflexivity.
  - intros r Hin Hid. apply in_map_iff. exists r. split; [|exact Hin].
    destruct (String.eqb (Saved.id r) e) eqn:E; [|reflexivity].
    apply String.eqb_eq in E. contradiction.
  - intros r Hin Hid. apply in_map_iff in Hin.
    destruct Hin as (r1 & Hr & _).
    destruct (String.eqb (Saved.id r1) e) eqn:E.
    + subst r. reflexivity.
    + subst r. apply String.eqb_neq in E. contradiction.
Qed.

End SavedFacts.

(* ===================================================================== *)
(** * Interpolation always returns from the table *)
(* ===================================================================== *)

Lemma finite_or (a b : num) :
  (a = NaN \/ finite a) -> finite b -> finite (a || b).
Proof.
  intros [->|Ha] Hb; [exact Hb|].
  unfold or. destruct (truthy a); assumption.
Qed.

(** The value of a segment over a step of positive length is a finite
    number. *)
Lemma segment_finite (s1 s2 t1 t2 t : num) :
  finite s1 -> finite s2 -> finite t1 -> finite t2 ->
  (t1 <? t2) = true -> (t1 <=? t) = true -> (t <=? t2) = true ->
  finite (s1 + ((s2 - s1) * (t - t1)) / (t2 - t1)).
Proof.
  destruct s1 as [x| | |], s2 as [y| | |], t1 as [a| | |], t2 as [b| | |];
    simpl; try contradiction.
  intros _ _ _ _ Hab Hlo Hhi.
  destruct t as [u| | |]; simpl in Hlo, Hhi; try discriminate.
  qprops. simpl.
  assert (Ez : Qzerob (b + - a) = false) by (apply Qzerob_false; lra).
  rewrite Ez. exact I.
Qed.

Lemma cleanCurveOf_finite (curve : list (option num)) :
  (forall s, In (Some s) curve -> finite s) ->
  forall i, (i < List.length curve)%nat ->
            finite (idx (cleanCurveOf curve) i).
Proof.
  intros H i Hi. rewrite cleanCurveOf_idx.
  destruct (nth_error curve i) as [[s|]|] eqn:E.
  - apply finite_or; [right; apply H; eapply nth_error_In; exact E|exact I].
  - exact I.
  - apply nth_error_None in E. lia.
Qed.


(** Started at or above step [i] and below step [i + fuel], the loop
    returns from a bracketing segment. *)
Lemma interpolateLoop_bracket (steps clean : list num) (t : num) :
  ascending steps ->
  forall fuel i,
    (i + fuel < List.length steps)%nat ->
    (idx steps i <=? t) = true -> (t <? idx steps (i + fuel)) = true ->
    exists j,
      (j + 1 < List.length steps)%nat /\
      (idx steps j <=? t) = true /\ (t <=? idx steps (j + 1)) = true /\
      interpolateLoop steps t clean fuel i
      = (let s1 := idx clean j in
         let s2 := idx clean (j + 1) || s1 in
         s1 + ((s2 - s1) * (t - idx steps j))
              / (idx steps (j + 1) - idx steps j)).
Proof.
  intros Hasc. induction fuel as [|fuel IH]; intros i Hi Hlo Hhi.
  - exfalso. rewrite Nat.add_0_r in Hhi.
    rewrite (lt_not_ge _ _ Hhi) in Hlo. discriminate.
  - cbn [interpolateLoop]. cbv zeta. unfold ge. rewrite Hlo. cbn [andb].
    destruct Hasc as [Hfin Hadj].
    assert (F2 : finite (idx steps (i + 1))) by (apply Hfin; lia).
    destruct (t <=? idx steps (i + 1)) eqn:Hup.
    + exists i. split; [lia|]. split; [exact Hlo|]. split; [exact Hup|].
      reflexivity.
    + apply IH.
      * lia.
      * apply lt_le.
        destruct (idx steps (i + 1)) as [b| | |]; simpl in F2;
          try contradiction.
        destruct t as [u| | |]; simpl in *; try discriminate;
          try reflexivity.
        qprops. apply Qltb_true. exact Hup.
      * replace (i + 1 + fuel)%nat with (i + S fuel)%nat by lia.
        exact Hhi.
Qed.

(** X27.  Over strictly ascending finite steps and a curve of as many
    entries, each [null] or a finite number, [interpolateStress] returns,
    at every temperature that is not NaN, the first cleaned value (at or
    below the first step), the last one (at or above the last step), or
    the value of a segment whose steps bracket the temperature: the loop
    always returns from inside, the [return cleanCurve[0]] after it is
    never reached.  The result is a finite number. *)
Theorem interpolateStress_returns_from_table (steps : list num)
        (t : num) (stressCurve : list (option num)) :
  ascending steps -> steps <> [] ->
  List.length stressCurve = List.length steps ->
  (forall s, In (Some s) stressCurve -> finite s) ->
  t <> NaN ->
  let clean := cleanCurveOf stressCurve in
  finite (interpolateStress steps t stressCurve) /\
  (((t <=? idx steps 0) = true /\
    interpolateStress steps t stressCurve = idx clean 0) \/
   ((t <=? idx steps 0) = false /\ (t >=? idx_last steps) = true /\
    interpolateStress steps t stressCurve = idx_last clean) \/
   exists j,
     (j + 1 < List.length steps)%nat /\
     (idx steps j <=? t) = true /\ (t <=? idx steps (j + 1)) = true /\
     interpolateStress steps t stressCurve
     = (let s1 := idx clean j in
        let s2 := idx clean (j + 1) || s1 in
        s1 + ((s2 - s1) * (t - idx steps j))
             / (idx steps (j + 1) - idx steps j))).
Proof.
  intros Hasc Hne Hlen Hcurve Ht clean.
  assert (Hn : (0 < List.length steps)%nat)
    by (destruct steps; [contradiction|simpl; lia]).
  assert (Hclean : forall i, (i < List.length steps)%nat ->
                             finite (idx clean i)).
  { intros i Hi. apply cleanCurveOf_finite; [assumption|lia]. }
  unfold interpolateStress. cbv zeta. fold clean.
  destruct (t <=? idx steps 0) eqn:H0.
  { split; [apply Hclean; exact Hn|]. left. split; reflexivity. }
  destruct (t >=? idx_last steps) eqn:H1.
  { split.
    - rewrite idx_last_eq. unfold clean, cleanCurveOf. rewrite length_map.
      rewrite Hlen. apply Hclean. lia.
    - right. left. repeat split. }
  pose proof (proj1 Hasc 0%nat Hn) as F0.
  pose proof (proj1 Hasc (List.length steps - 1)%nat ltac:(lia)) as Fl.
  rewrite idx_last_eq in H1. unfold ge in H1.
  destruct (interpolateLoop_bracket steps clean t Hasc
              (List.length steps - 1) 0) as (j & Hj & Hlo & Hhi & Hval).
  - lia.
  - destruct (idx steps 0) as [a| | |]; simpl in F0; try contradiction.
    destruct t as [u| | |]; simpl in *; try discriminate;
      try reflexivity; try congruence.
    qprops. apply Qle_bool_iff. lra.
  - rewrite Nat.add_0_l.
    destruct (idx steps (List.length steps - 1)) as [b| | |];
      simpl in Fl; try contradiction.
    destruct t as [u| | |]; simpl in *; try discriminate;
      try reflexivity; try congruence.
    qprops. apply Qltb_true. exact H1.
  - split.
    + rewrite Hval. cbv zeta. destruct Hasc as [Hfin Hadj].
      apply segment_finite; try assumption.
      * apply Hclean. lia.
      * apply finite_or; [right|]; apply Hclean; lia.
      * apply Hfin. lia.
      * apply Hfin. lia.
      * apply Hadj. lia.
    + right. right. exists j. repeat split; assumption.
Qed.

(* ===================================================================== *)
(** * Cross-checks on the result of [calculateFullResults] *)
(* ===================================================================== *)

Section CrossChecks.

Variable Math_sqrt : num -> num.
Variable TEMA_BOLT_DATA : list Bolt.t.
Variable HYDRAULIC_TENSIONING_DATA : list Tension.t.
Variable GASKET_RING_TABLE : list Ring.t.
Variable GASKET_TYPES : list Gasket.t.
Variable ASME_BOLT_MATERIALS : list Material.t.
Variable BOLT_TEMP_STEPS : list num.
Variable WHC_MAX_PITCH_TABLE : list (num * num).

Local Abbreviation calculate :=
  (calculateFullResults Math_sqrt TEMA_BOLT_DATA HYDRAULIC_TENSIONING_DATA
     GASKET_RING_TABLE GASKET_TYPES ASME_BOLT_MATERIALS BOLT_TEMP_STEPS
     WHC_MAX_PITCH_TABLE).

(** X28.  With no manual flange O.D the flange reaches at least the edge
    distance beyond the bolt circle on both sides:
    [finalBCD + 2 * E <= finalOD], and so [finalBCD <= finalOD]. *)
Theorem auto_od_covers_edge_distance
        (i : FlangeInputs) (r : CalculationResults) :
  calculate i = Some r ->
  (actualOD i !== Fin 0) = false ->
  finite (Res.finalBCD r) -> nonneg (Res.edgeDistance r) ->
  (Res.finalBCD r + (Fin 2 * Res.edgeDistance r) <=? Res.finalOD r) = true /\
  (Res.finalBCD r <=? Res.finalOD r) = true.
Proof.
  intros H Hauto Fb Ne.
  destruct (calculate_geometry _ _ _ _ _ _ _ _ _ _ H)
    as (_ & _ & _ & _ & _ & _ & _ & Hod & Hfod).
  rewrite Hauto in Hfod. rewrite Hfod, Hod.
  destruct (Res.finalBCD r) as [b| | |]; simpl in Fb; try contradiction.
  destruct (Res.edgeDistance r) as [e| | |]; simpl in Ne; try contradiction.
  simpl. pose proof (Qle_ceiling (b + 2 * e)) as Hc.
  split; apply Qle_bool_iff; lra.
Qed.
End CrossChecks.

(* ===================================================================== *)
(** * The handlers on the example data *)
(* ===================================================================== *)


(** Resetting [overriddenInputs] gives a result with derived values
    only. *)
Lemma reset_discards_overrides_witness :
  match exampleCalculate (resetGasketStandard overriddenInputs) with
  | Some r =>
      Res.finalBCD r = Res.bcdTema r /\ Res.finalOD r = Res.odTema r /\
      Res.effectiveC r = Fin 2.5 /\ Res.shellGapA r = Fin 3 /\
      pccStatusInfo (resetGasketStandard overriddenInputs) r
      = {| active := false; safe := true |}
  | None => False
  end.
Proof.
  destruct (exampleCalculate (resetGasketStandard overriddenInputs))
    as [r|] eqn:E; [|vm_compute in E; discriminate E].
  destruct (reset_discards_overrides _ _ _ _ _ _ _ _ _ _ E)
    as (H1 & H2 & _ & _ & H3 & H4 & _ & _ & _ & _ & _ & _ & _ & H5).
  repeat split; assumption.
Defined.

(** A shell material that is not in [exampleShells] is calculated as
    its first row, SA-516 70. *)
Lemma calculateAutoG0_material_fallback_witness :
  shellMatOf exampleShells
    (Partial.mk (Some "SA-000") (Some (Fin 100)) (Some "°C") (Some (Fin 1))
                (Some "MPa") (Some (Fin 300)) (Some (Fin 0)) (Some (Fin 1)))
  = hd_error exampleShells /\
  exampleAutoG0
    (Partial.mk (Some "SA-000") (Some (Fin 100)) (Some "°C") (Some (Fin 1))
                (Some "MPa") (Some (Fin 300)) (Some (Fin 0)) (Some (Fin 1)))
  = exampleAutoG0 (partialOf exampleInputs).
Proof.
  refine (proj2 (calculateAutoG0_material_fallback
                   exampleShells exampleSteps _) _ _ eq_refl _).
  intros m Hm. simpl in Hm. destruct Hm as [<-|[]]. reflexivity.
Defined.

Lemma calculateAutoG0_guarded_witness :
  exists t : Z,
    exampleAutoG0 (partialOf exampleInputs) = Some (Fin (inject_Z t)) /\
    (0 <= inject_Z t)%Q.
Proof.
  destruct (calculateAutoG0_guarded
              exampleShells exampleSteps (partialOf exampleInputs)
              (Material.mk "SA-516 70"
                 [Some (Fin 138); Some (Fin 138); Some (Fin 138);
                  Some (Fin 136)])
              (8280 # 60) 1 1 300 0
              eq_refl eq_refl eq_refl eq_refl eq_refl eq_refl)
    as (t & Ht & Hge).
  exists t. split; [exact Ht|]. apply Hge; discriminate.
Defined.

Lemma exampleInputChange_pressure_facts :
  match exampleInputChange exampleState exampleInputs "designPressure" with
  | Some s' => nonneg (g0 (App.inputs s'))
  | None => False
  end.
Proof. vm_compute. discriminate. Qed.

(** A change of the design pressure of [exampleInputs] stores the
    thickness the rule gives, and a hub that is not thinner. *)
Lemma design_change_keeps_thickness_consistent_witness :
  match exampleInputChange exampleState exampleInputs "designPressure" with
  | Some s' =>
      exampleAutoG0 (partialOf (App.inputs s')) = Some (g0 (App.inputs s')) /\
      (g0 (App.inputs s') <=? g1 (App.inputs s')) = true
  | None => False
  end.
Proof.
  pose proof exampleInputChange_pressure_facts as Hf.
  destruct (exampleInputChange exampleState exampleInputs "designPressure")
    as [s'|] eqn:E; [|contradiction].
  destruct (design_change_keeps_thickness_consistent
              _ _ _ _ _ _ E eq_refl) as (H1 & H2).
  split; [exact H1|exact (H2 Hf)].
Defined.

Lemma exampleOptimize_one_inch_outcome :
  match exampleOptimize (withSizeCount exampleInputs (Fin 1) (Fin 12)) true
  with
  | Some (_, OptimizationCompleted _ _ _ _ _) => True
  | _ => False
  end.
Proof. vm_compute. exact I. Qed.

(** After the bolt size of [exampleInputs] is set to one inch, "Optimize"
    keeps one inch bolts. *)
Lemma changed_field_sets_search_mode_witness :
  match exampleOptimize (withSizeCount exampleInputs (Fin 1) (Fin 12)) true
  with
  | Some (next, OptimizationCompleted f sz _ _ _) =>
      f = true /\ sz = Fin 1 /\ boltSize next = Fin 1
  | _ => False
  end.
Proof.
  pose proof exampleOptimize_one_inch_outcome as Hout.
  destruct (exampleOptimize (withSizeCount exampleInputs (Fin 1) (Fin 12))
                            true)
    as [[next [f sz c req mg|f b]]|] eqn:E; try contradiction.
  clear Hout.
  assert (Hchange :
            exampleInputChange exampleState
              (withSizeCount exampleInputs (Fin 1) (Fin 12)) "boltSize"
            = Some (App.mk (withSizeCount exampleInputs (Fin 1) (Fin 12))
                           true [] None))
    by reflexivity.
  exact (proj1 (changed_field_sets_search_mode
                  _ _ _ _ _ _ _ _ _ _ _ _ _ _ _ _ _ _ _ Hchange E)
               eq_refl).
Defined.

(** Saving [exampleInputs] into the empty list, and removing the record
    again. *)
Lemma save_round_trip_witness :
  match exampleCalculate exampleInputs with
  | Some r =>
      exists rec,
        App.savedRecords (savedOnce "1700000000000" r) = [rec] /\
        Saved.id rec = "1700000000000" /\
        (forall later, App.inputs (editRecord rec later) = exampleInputs) /\
        App.savedRecords
          (removeRecord "1700000000000" (savedOnce "1700000000000" r))
        = []
  | None => False
  end.
Proof.
  destruct (exampleCalculate exampleInputs) as [r|] eqn:E;
    [|vm_compute in E; discriminate E].
  destruct (save_round_trip exampleToString "1700000000000" r exampleState)
    as (rec & H1 & H2 & H3 & _ & H5).
  - intros old [].
  - exists rec. repeat split; assumption.
Defined.

Lemma editingFirst_saved (now : string) (r : CalculationResults) :
  editingIsSaved (editingFirst now r).
Proof.
  unfold editingIsSaved, editingFirst, editRecord, savedOnce,
    handleSaveToList.
  cbn [App.editingRecordId App.savedRecords app exampleState].
  eexists. split; [left; reflexivity|reflexivity].
Qed.

(** While the saved record is being edited, removing another id keeps the
    editing id; removing the record itself clears it. *)
Lemma editing_id_stays_saved_witness :
  match exampleCalculate exampleInputs with
  | Some r =>
      editingIsSaved (removeRecord "1600000000000"
                                   (editingFirst "1700000000000" r)) /\
      editingIsSaved (removeRecord "1700000000000"
                                   (editingFirst "1700000000000" r)) /\
      editingIsSaved (fst (exampleEditSave r
                                           (editingFirst "1700000000000" r)))
  | None => False
  end.
Proof.
  destruct (exampleCalculate exampleInputs) as [r|] eqn:E;
    [|vm_compute in E; discriminate E].
  pose proof (editingFirst_saved "1700000000000" r) as Hwf.
  pose (rec := recordOf exampleToString "1700000000000" exampleInputs r).
  destruct (editing_id_stays_saved exampleToString _ "1700000000000"
              "1600000000000" r rec Hwf) as (_ & H2 & H3 & _).
  destruct (editing_id_stays_saved exampleToString _ "1700000000000"
              "1700000000000" r rec Hwf) as (_ & _ & H3' & _).
  repeat split; assumption.
Defined.

(** "Edit Save" while the saved record is open stores the input under the
    same id and ends the editing. *)
Lemma edit_save_rewrites_selected_witness :
  match exampleCalculate exampleInputs with
  | Some r =>
      let s' := fst (exampleEditSave r (editingFirst "1700000000000" r)) in
      map Saved.id (App.savedRecords s') = ["1700000000000"] /\
      App.editingRecordId s' = None
  | None => False
  end.
Proof.
  destruct (exampleCalculate exampleInputs) as [r|] eqn:E;
    [|vm_compute in E; discriminate E].
  pose proof (editingFirst_saved "1700000000000" r) as Hwf.
  destruct (edit_save_rewrites_selected exampleToString _ "1700000000000" r
              Hwf eq_refl ltac:(discriminate))
    as (H1 & _ & _ & _ & H5 & _).
  split; [exact H1|exact H5].
Defined.

(** The second example curve at 250 degrees: a finite number, from the
    table. *)
Lemma interpolateStress_returns_from_table_witness :
  finite (interpolateStress exampleSteps (Fin 250) exampleCurveB).
Proof.
  refine (proj1 (interpolateStress_returns_from_table
                   exampleSteps (Fin 250) exampleCurveB
                   exampleSteps_ascending _ eq_refl _ _)).
  - discriminate.
  - intros s Hs. simpl in Hs.
    repeat (destruct Hs as [Hs|Hs];
            [try discriminate Hs; injection Hs as <-; exact I|]).
    contradiction.
  - discriminate.
Defined.

Lemma exampleResult_more_facts :
  match exampleCalculate exampleInputs with
  | Some r =>
      finite (Res.finalBCD r) /\ nonneg (Res.edgeDistance r)
  | None => False
  end.
Proof. vm_compute. repeat split; try exact I; intro; discriminate. Qed.

(** The flange of [exampleInputs] reaches beyond the bolt circle. *)
Lemma auto_od_covers_edge_distance_witness :
  match exampleCalculate exampleInputs with
  | Some r =>
      (Res.finalBCD r + (Fin 2 * Res.edgeDistance r) <=? Res.finalOD r)
      = true /\
      (Res.finalBCD r <=? Res.finalOD r) = true
  | None => False
  end.
Proof.
  pose proof exampleResult_more_facts as Hf.
  destruct (exampleCalculate exampleInputs) as [r|] eqn:E; [|contradiction].
  destruct Hf as (Fb & Ne).
  exact (auto_od_covers_edge_distance _ _ _ _ _ _ _ _ _ _ E eq_refl Fb Ne).
Defined.


(* ===================================================================== *)
(** * The seating suggestion marked as applied *)
(* ===================================================================== *)

Lemma toFixed_parsed_2_close (x : Q) :
  (1 <= x)%Q -> (x < inject_Z (10 ^ 21))%Q ->
  exists m, toFixed_parsed 2 (Fin x) = Fin m /\
            (x - 0.005 <= m <= x + 0.005)%Q /\ (0 < m)%Q.
Proof.
  intros H1 Hbig. unfold toFixed_parsed.
  assert (Hn : Qltb x 0 = false) by (apply Qltb_false; lra).
  rewrite Hn. cbv zeta.
  assert (Hb : Qle_bool (inject_Z (10 ^ 21)) x = false)
    by (apply Qle_bool_false; exact Hbig).
  rewrite Hb. eexists. split; [reflexivity|].
  change (inject_Z (10 ^ 2)) with 100%Q.
  pose proof (Qfloor_le (x * 100 + (1 # 2))) as Hl.
  pose proof (Qlt_floor (x * 100 + (1 # 2))) as Hu.
  rewrite inject_Z_plus in Hu. change (inject_Z 1) with 1%Q in Hu.
  set (n := inject_Z (Qfloor (x * 100 + (1 # 2)))) in *. clearbody n.
  assert (En : (n / 100 == n * (1 # 100))%Q) by field.
  rewrite En. repeat split; lra.
Qed.

Section SuggestionFacts.

Variable GASKET_RING_TABLE : list Ring.t.


End SuggestionFacts.

